(** * PromptLab: the model invocation hook [useModel]

    A shallow embedding of [src/hooks/useModel.ts]: the key-path extractor
    [get], the template substitution that builds the request body, the model
    resolution, the outbound headers, the value returned by one call of the
    hook, and the hook's asynchronous life (effect runs, responses, stream
    chunks, [stopModel]) as a transition system.

    Strings are sequences of code units below 256.  What the hook takes from
    its platform (numbers, [JSON.parse], [JSON.stringify], the members that
    built-in prototypes add to a value, the managed-service hook) is gathered
    in the class [Runtime]; the theorems hold for every runtime. *)

From Stdlib Require Import String Ascii List Bool Arith ZArith DecimalString Lia.
Import ListNotations.
Open Scope string_scope.
Open Scope bool_scope.

Set Implicit Arguments.
Set Warnings "-register-all".

(** ** Strings as the script uses them *)

Module Str.

Definition dquote : ascii := "034"%char.
Definition backslash : ascii := "092"%char.
Definition dollar : ascii := "036"%char.

(** One-character string. *)
Definition chr (c : ascii) : string := String c "".

(** [WhiteSpace] and [LineTerminator] code units below 256: what [trim]
    strips and what the class [\s] matches. *)
Definition is_space (c : ascii) : bool :=
  let n := nat_of_ascii c in
  (((9 <=? n) && (n <=? 13)) || (n =? 32) || (n =? 160))%nat.

(** [s.startsWith(p)] *)
Fixpoint startsWith (s p : string) {struct p} : bool :=
  match p, s with
  | "", _ => true
  | String a p', String b s' => Ascii.eqb a b && startsWith s' p'
  | String _ _, "" => false
  end.

(** [s.includes(t)] *)
Fixpoint includes (s t : string) : bool :=
  startsWith s t ||
  match s with
  | "" => false
  | String _ s' => includes s' t
  end.

(** [s.substring(n)] *)
Fixpoint skip (n : nat) (s : string) : string :=
  match n, s with
  | 0, _ => s
  | S n', String _ s' => skip n' s'
  | S _, "" => ""
  end.

(** [s.toLowerCase()] on code units below 256. *)
Definition lower_char (c : ascii) : ascii :=
  let n := nat_of_ascii c in
  if (((65 <=? n) && (n <=? 90)) ||
      ((192 <=? n) && (n <=? 222) && negb (n =? 215)))%nat
  then ascii_of_nat (n + 32) else c.

Fixpoint toLowerCase (s : string) : string :=
  match s with
  | "" => ""
  | String c s' => String (lower_char c) (toLowerCase s')
  end.

(** [s.trim()] *)
Fixpoint trimStart (s : string) : string :=
  match s with
  | "" => ""
  | String c s' => if is_space c then trimStart s' else s
  end.

Fixpoint trimEnd (s : string) : string :=
  match s with
  | "" => ""
  | String c s' =>
      let t := trimEnd s' in
      if is_space c && (t =? "") then "" else String c t
  end.

Definition trim (s : string) : string := trimEnd (trimStart s).

(** [s.split(sep)] for a one-character separator: never the empty list. *)
Fixpoint split (sep : ascii) (s : string) : list string :=
  match s with
  | "" => [""]
  | String c s' =>
      if Ascii.eqb c sep then "" :: split sep s'
      else match split sep s' with
           | p :: ps => String c p :: ps
           | [] => [chr c]
           end
  end.

(** First occurrence of [pat] in [s]: the text before it and the text after
    it. *)
Fixpoint cut (pat s : string) : option (string * string) :=
  if startsWith s pat then Some ("", skip (String.length pat) s)
  else match s with
       | "" => None
       | String c s' =>
           match cut pat s' with
           | Some (a, b) => Some (String c a, b)
           | None => None
           end
       end.

(** The replacement patterns that [String.prototype.replace] expands in its
    second argument when the pattern is a string (no capture groups):
    [$$], [$&], [$`] and [$']. Any other [$] stands for itself. *)
Fixpoint expand (repl before matched after : string) : string :=
  match repl with
  | "" => ""
  | String c r =>
      if Ascii.eqb c dollar then
        match r with
        | String d r' =>
            if Ascii.eqb d dollar then String dollar (expand r' before matched after)
            else if Ascii.eqb d "&"%char then matched ++ expand r' before matched after
            else if Ascii.eqb d "`"%char then before ++ expand r' before matched after
            else if Ascii.eqb d "'"%char then after ++ expand r' before matched after
            else String c (expand r before matched after)
        | "" => chr c
        end
      else String c (expand r before matched after)
  end.

(** [s.replace(pat, repl)] with a string pattern: the first occurrence only. *)
Definition replace (s pat repl : string) : string :=
  match cut pat s with
  | None => s
  | Some (a, b) => a ++ expand repl a pat b ++ b
  end.

(** [s.replaceAll(/[\n\r\s]+/g, " ")] *)
Fixpoint collapse_from (in_run : bool) (s : string) : string :=
  match s with
  | "" => ""
  | String c s' =>
      if is_space c
      then (if in_run then collapse_from true s' else String " " (collapse_from true s'))
      else String c (collapse_from false s')
  end.

Definition collapse_spaces (s : string) : string := collapse_from false s.

(** [s.replaceAll('"', '\\"')] *)
Fixpoint escape_quotes (s : string) : string :=
  match s with
  | "" => ""
  | String c s' =>
      if Ascii.eqb c dquote
      then String backslash (String dquote (escape_quotes s'))
      else String c (escape_quotes s')
  end.

End Str.

(** ** Key paths: [pathString.trim().split(".")] and, on each item,
    [item.split(/\[([^}]+)\]/g)] *)

Module KeyPath.
Import Str.

(** The text up to the last ["]"] of [r], and the text after it. *)
Fixpoint cut_last_close (r : string) : option (string * string) :=
  match r with
  | "" => None
  | String c r' =>
      match cut_last_close r' with
      | Some (a, b) => Some (String c a, b)
      | None => if Ascii.eqb c "]"%char then Some ("", r') else None
      end
  end.

(** The longest prefix of [s] with no ["}"] in it. *)
Fixpoint run_no_brace (s : string) : string :=
  match s with
  | "" => ""
  | String c s' => if Ascii.eqb c "}"%char then "" else String c (run_no_brace s')
  end.

(** A match of [\[([^}]+)\]] at the start of [s]: the captured group and
    the length of the match. The group is greedy: it runs to the last ["]"]
    that no ["}"] separates from the opening bracket. *)
Definition match_group (s : string) : option (string * nat) :=
  match s with
  | String o (String c0 body) =>
      if Ascii.eqb o "["%char && negb (Ascii.eqb c0 "}"%char) then
        match cut_last_close (run_no_brace body) with
        | Some (a, _) => Some (String c0 a, String.length a + 3)
        | None => None
        end
      else None
  | _ => None
  end.

(** [item.split(re)]: the pieces between the matches, each match leaving its
    captured group in the list. [inside] counts the code units of the
    current match still to pass; [piece] is the piece being read. *)
Fixpoint split_groups (inside : nat) (piece : string) (s : string) : list string :=
  match s with
  | "" => [piece]
  | String c s' =>
      match inside with
      | S k => split_groups k piece s'
      | 0 =>
          match match_group s with
          | Some (group, len) => piece :: group :: split_groups (len - 1) "" s'
          | None => split_groups 0 (piece ++ chr c) s'
          end
      end
  end.

(** The keys that [get] pushes on [path]. *)
Definition keys (pathString : string) : list string :=
  flat_map
    (fun item => filter (fun key => 0 <? String.length key)%nat (split_groups 0 "" item))
    (split "."%char (trim pathString)).

(** A key that is an array index in canonical form ([0], [17]; not [007]). *)
Definition digit (c : ascii) : option nat :=
  let n := nat_of_ascii c in
  if ((48 <=? n) && (n <=? 57))%nat then Some (n - 48) else None.

Fixpoint digits_value (acc : nat) (s : string) : option nat :=
  match s with
  | "" => Some acc
  | String c s' =>
      match digit c with
      | Some d => digits_value (10 * acc + d) s'
      | None => None
      end
  end.

Definition array_index (key : string) : option nat :=
  match key with
  | "" => None
  | String c rest =>
      if Ascii.eqb c "0"%char
      then (if rest =? "" then Some 0 else None)
      else digits_value 0 key
  end.

End KeyPath.

(** ** Values, completions and the runtime *)

Inductive exn : Type := TypeError | SyntaxError.

(** How an evaluation ends: with a value or with a thrown error. *)
Inductive completion (A : Type) : Type :=
| Ret (a : A)
| Throw (e : exn).

Arguments Ret {A} a.
Arguments Throw {A} e.

(** Values of the script over the runtime's numbers (IEEE doubles in the
    script): decoded JSON documents, [undefined], and [VHost], an object of
    the runtime that is no part of a decoded document (a built-in method or
    prototype reached by inheritance), carried by its text form. *)
Inductive value (number : Type) : Type :=
| VUndef
| VNull
| VBool (b : bool)
| VNum (n : number)
| VStr (s : string)
| VArr (items : list (value number))
| VObj (props : list (string * value number))
| VHost (text : string).

Arguments VUndef {number}.
Arguments VNull {number}.
Arguments VBool {number} b.
Arguments VNum {number} n.
Arguments VStr {number} s.
Arguments VArr {number} items.
Arguments VObj {number} props.
Arguments VHost {number} text.

(** ** Records of the hook *)

(** [Model] of [utils/types]. *)
Module Model.
Record t : Type := {
  endpoint : string;
  authType : string;
  apiKey : string;
  inputSchema : string;
  outputKeyPath : string;
  outputTiming : string;
  lengthLimit : string;
  temperature : string;
  name : string;
  description : string;
  favorited : bool;
  id : string;
  icon : string;
  iconColor : string;
  notes : string;
  isDefault : bool
}.
End Model.

(** The fields of [ExtensionPreferences] that the hook reads. *)
Module Pref.
Record t : Type := {
  modelEndpoint : string;
  authType : string;
  apiKey : string;
  inputSchema : string;
  outputKeyPath : string;
  outputTiming : string;
  lengthLimit : string;
  includeTemperature : bool;
  promptPrefix : string;
  promptSuffix : string
}.
End Pref.

(** What [useModels()] returns, as far as the hook reads it. *)
Module Models.
Record t : Type := {
  models : list Model.t;
  isLoading : bool
}.
End Models.

(** The arguments of one call of [useModel]. *)
Module Args.
Record t : Type := {
  basePrompt : string;
  prompt : string;
  input : string;
  temperature : string;
  execute : bool;
  modelOverride : option Model.t
}.
End Args.

(** What a call reads from its surroundings: [getPreferenceValues()],
    [useModels()] and [environment.canAccess(AI)]. *)
Module Env.
Record t : Type := {
  preferences : Pref.t;
  models : Models.t;
  canAccessAI : bool
}.
End Env.

(** What the managed-service hook [useAI] hands back. *)
Module AI.
Record t : Type := {
  data : string;
  isLoading : bool;
  error : option string
}.
End AI.

(** The object a call returns ([revalidate] and [stopModel] are functions
    and are left out; [stopModel] is the event [StopModel] below). *)
Module Result.
Record t (number : Type) : Type := {
  data : value number;
  isLoading : bool;
  error : option string;
  dataTag : string
}.
End Result.

(** What the hook takes from its platform. *)
Class Runtime (number : Type) : Type := {
  (** [!!n]: false for zeros and NaN *)
  num_truthy : number -> bool;
  (** [n.toString()] *)
  num_text : number -> string;
  (** the literal [1.0] *)
  num_one : number;
  parseFloat : string -> number;
  (** what a read finds on a value beyond its decoded data ([length],
      methods, the prototype chain): [None] when there is nothing, so that
      the read gives [undefined]; [Some (Ret x)] for an inherited member
      [x]; [Some (Throw e)] for an inherited accessor that throws (as
      [caller] and [arguments] of a built-in function do) *)
  builtin_member : value number -> string -> option (completion (value number));
  (** [None] when [JSON.parse] throws *)
  JSON_parse : string -> option (value number);
  JSON_stringify : value number -> string;
  (** whether the bundle runs the module in strict mode: only then does an
      assignment to a property of a primitive throw *)
  strict_mode : bool;
  (** [useAI(prompt, {execute, creativity, model})] *)
  useAI : string -> bool -> number -> string -> AI.t
}.

Section Hook.

Variable number : Type.
Context {R : Runtime number}.

Local Abbreviation value := (value number).

(** *** The key-path extractor *)

(** [typeof v] *)
Definition typeof (v : value) : string :=
  match v with
  | VUndef => "undefined"
  | VNull => "object"
  | VBool _ => "boolean"
  | VNum _ => "number"
  | VStr _ => "string"
  | VArr _ => "object"
  | VObj _ => "object"
  | VHost _ => "function"
  end.

(** [!!v] *)
Definition truthy (v : value) : bool :=
  match v with
  | VUndef | VNull => false
  | VBool b => b
  | VNum n => num_truthy n
  | VStr s => negb (s =? "")
  | VArr _ | VObj _ | VHost _ => true
  end.

(** The property of a decoded object: the first binding of the key. *)
Fixpoint assoc (key : string) (props : list (string * value)) : option value :=
  match props with
  | [] => None
  | (k, v) :: rest => if k =? key then Some v else assoc key rest
  end.

(** The data a value holds under a key: a property of an object, an element
    of an array, a code unit of a string. *)
Definition own (v : value) (key : string) : option value :=
  match v with
  | VObj props => assoc key props
  | VArr items =>
      match KeyPath.array_index key with
      | Some i => nth_error items i
      | None => None
      end
  | VStr s =>
      match KeyPath.array_index key with
      | Some i =>
          match String.get i s with
          | Some c => Some (VStr (Str.chr c))
          | None => None
          end
      | None => None
      end
  | _ => None
  end.

(** [v[key]] on a value that is neither [null] nor [undefined]: the data
    first, then what the runtime adds, which may be an accessor that
    throws; [undefined] when neither has it. *)
Definition member (v : value) (key : string) : completion value :=
  match own v key with
  | Some x => Ret x
  | None =>
      match builtin_member v key with
      | Some found => found
      | None => Ret VUndef
      end
  end.

(** [v[key]] *)
Definition get_member (v : value) (key : string) : completion value :=
  match v with
  | VUndef | VNull => Throw TypeError
  | _ => member v key
  end.

(** The optional [def] argument as a value. *)
Definition of_default (def : option string) : value :=
  match def with
  | Some s => VStr s
  | None => VUndef
  end.

(** The loop of [get]: [if (!current[path[i]]) return def;
    current = current[path[i]]]. *)
Fixpoint walk (current : value) (path : list string) (def : option string)
  : completion value :=
  match path with
  | [] => Ret current
  | key :: rest =>
      match get_member current key with
      | Throw e => Throw e
      | Ret next => if truthy next then walk next rest def else Ret (of_default def)
      end
  end.

(** [get(obj, pathString, def)] *)
Definition get (obj : value) (pathString : string) (def : option string)
  : completion value :=
  let path := KeyPath.keys pathString in
  if typeof obj =? "object" then walk obj path def else Ret obj.

(** *** The merge of a streamed fragment *)

(** [v.toString()], which is also what [text + v] appends when the call
    returns. A decoded object that holds a member [toString] of its own has
    no text: the member is no function, so the call throws, and so does the
    [join] of an array that holds such an object. *)
Fixpoint to_text (v : value) : completion string :=
  match v with
  | VUndef | VNull => Throw TypeError
  | VBool true => Ret "true"
  | VBool false => Ret "false"
  | VNum n => Ret (num_text n)
  | VStr s => Ret s
  | VArr items =>
      (fix join (l : list value) : completion string :=
         match l with
         | [] => Ret ""
         | x :: rest =>
             match (match x with
                    | VUndef | VNull => Ret ""
                    | _ => to_text x
                    end) with
             | Throw e => Throw e
             | Ret first =>
                 match rest with
                 | [] => Ret first
                 | _ :: _ =>
                     match join rest with
                     | Throw e => Throw e
                     | Ret others => Ret (first ++ "," ++ others)
                     end
                 end
             end
         end) items
  | VObj props =>
      match assoc "toString" props with
      | Some _ => Throw TypeError
      | None => Ret "[object Object]"
      end
  | VHost text => Ret text
  end.

(** The two branches of the merge on the text of the fragment:
    [if (output.toString().includes(text)) text = output.toString();
     else text = text + output]. *)
Definition accumulate (text fragment : string) : string :=
  if Str.includes fragment text then fragment else text ++ fragment.

(** *** Model resolution *)

Definition validRaycastAIReps : list string :=
  ["raycast ai"; "raycastai"; "raycast"; "raycast-ai"; "raycast ai 3.5"].

Definition fallbackModel : Model.t := {|
  Model.endpoint := "Raycast AI";
  Model.authType := "";
  Model.apiKey := "";
  Model.inputSchema := "";
  Model.outputKeyPath := "";
  Model.outputTiming := "async";
  Model.lengthLimit := "2500";
  Model.temperature := "1.0";
  Model.name := "Text-Davinci-003 Via Raycast AI";
  Model.description := "";
  Model.favorited := false;
  Model.id := "";
  Model.icon := "";
  Model.iconColor := "";
  Model.notes := "";
  Model.isDefault := false
|}.

Definition preferenceModel (preferences : Pref.t) : Model.t := {|
  Model.endpoint := Pref.modelEndpoint preferences;
  Model.authType := Pref.authType preferences;
  Model.apiKey := Pref.apiKey preferences;
  Model.inputSchema := Pref.inputSchema preferences;
  Model.outputKeyPath := Pref.outputKeyPath preferences;
  Model.outputTiming := Pref.outputTiming preferences;
  Model.lengthLimit := Pref.lengthLimit preferences;
  Model.temperature := "1.0";
  Model.name := "";
  Model.description := "";
  Model.favorited := false;
  Model.id := "";
  Model.icon := "";
  Model.iconColor := "";
  Model.notes := "";
  Model.isDefault := false
|}.

(** [models.models.find((model) => model.isDefault)] *)
Definition defaultModel (models : Models.t) : option Model.t :=
  find Model.isDefault (Models.models models).

(** [modelOverride || defaultModel ||
     (preferenceModel.endpoint == "" ? fallbackModel : preferenceModel)] *)
Definition targetModel (modelOverride : option Model.t) (models : Models.t)
  (preferences : Pref.t) : Model.t :=
  match modelOverride with
  | Some m => m
  | None =>
      match defaultModel models with
      | Some m => m
      | None =>
          if Model.endpoint (preferenceModel preferences) =? ""
          then fallbackModel
          else preferenceModel preferences
      end
  end.

(** [validRaycastAIReps.includes(endpoint.toLowerCase())] *)
Definition namesRaycastAI (endpoint : string) : bool :=
  existsb (String.eqb (Str.toLowerCase endpoint)) validRaycastAIReps.

Section Call.

Variable e : Env.t.
Variable a : Args.t.

Let preferences := Env.preferences e.
Let models := Env.models e.

Definition target : Model.t :=
  targetModel (Args.modelOverride a) models preferences.

Definition raycastModel : bool :=
  namesRaycastAI (Model.endpoint target) ||
  (Model.endpoint target =? "") ||
  (Models.isLoading models &&
   (match Args.modelOverride a with Some _ => false | None => true end) &&
   (Model.endpoint (preferenceModel preferences) =? "")).

Definition temp : number :=
  match Args.modelOverride a with
  | Some _ => parseFloat (Model.temperature target)
  | None =>
      if Pref.includeTemperature preferences
      then (let t := parseFloat (Args.temperature a) in
            if num_truthy t then t else num_one)
      else num_one
  end.

(** The tag of the call: [basePrompt + prompt + input]. *)
Definition tag : string :=
  Args.basePrompt a ++ Args.prompt a ++ Args.input a.

End Call.

(** *** Outbound headers *)

(** The object [headers] built for the target model, as the list of its
    entries in the order they are set. *)
Definition headers (m : Model.t) : list (string * string) :=
  [("method", "POST"); ("Content-Type", "application/json")] ++
  (if Model.authType m =? "apiKey"
   then [("Authorization", "Api-Key " ++ Str.trim (Model.apiKey m))]
   else if Model.authType m =? "bearerToken"
   then [("Authorization", "Bearer " ++ Str.trim (Model.apiKey m))]
   else if Model.authType m =? "x-api-key"
   then [("X-API-Key", Str.trim (Model.apiKey m))]
   else []).

(** *** Template substitution *)

(** [s.replaceAll(/[\n\r\s]+/g, " ").replaceAll('"', '\\"')] *)
Definition sanitize (s : string) : string :=
  Str.escape_quotes (Str.collapse_spaces s).

Section Fill.

Variable preferences : Pref.t.
(** [targetModel.inputSchema], asked for ["{prompt"] *)
Variable schema : string.
Variables basePrompt prompt input : string.

Definition promptPart : string :=
  Pref.promptPrefix preferences ++ sanitize prompt ++ Pref.promptSuffix preferences.

Definition basePromptPart : string :=
  Pref.promptPrefix preferences ++ sanitize basePrompt.

Definition inputPart : string :=
  if Str.includes schema "{prompt" && (prompt =? input)
  then ""
  else sanitize input ++ Pref.promptSuffix preferences.

(** The chain of three [replace] calls, applied to the template (lines
    127-143) and once more to the serialised body (lines 158-174). *)
Definition fill (text : string) : string :=
  Str.replace
    (Str.replace
       (Str.replace text "{prompt}" promptPart)
       "{basePrompt}" basePromptPart)
    "{input}" inputPart.

End Fill.

(** [obj[key] = x] on the parsed template. An array or a runtime object
    takes the property beside its data; a primitive refuses it, by an error
    in strict mode and silently otherwise. *)
Fixpoint assoc_set (key : string) (x : value) (props : list (string * value))
  : list (string * value) :=
  match props with
  | [] => [(key, x)]
  | (k, v) :: rest =>
      if k =? key then (k, x) :: rest else (k, v) :: assoc_set key x rest
  end.

Definition set_member (v : value) (key : string) (x : value) : completion value :=
  match v with
  | VUndef | VNull => Throw TypeError
  | VObj props => Ret (VObj (assoc_set key x props))
  | VArr _ | VHost _ => Ret v
  | VBool _ | VNum _ | VStr _ => if strict_mode then Throw TypeError else Ret v
  end.

Section Render.

Variable e : Env.t.
Variable a : Args.t.

Let preferences := Env.preferences e.

(** The text handed to [JSON.parse]. *)
Definition filledSchema : string :=
  fill preferences (Model.inputSchema (target e a))
       (Args.basePrompt a) (Args.prompt a) (Args.input a)
       (Model.inputSchema (target e a)).

(** [modelSchema] once the temperature is set (lines 124-147). *)
Definition modelSchema : completion value :=
  let parsed :=
    if raycastModel e a then Ret (VObj [])
    else match JSON_parse filledSchema with
         | Some v => Ret v
         | None => Throw SyntaxError
         end in
  match parsed with
  | Throw x => Throw x
  | Ret v =>
      if Pref.includeTemperature preferences ||
         (match Args.modelOverride a with Some _ => true | None => false end)
      then set_member v "temperature" (VNum (temp e a))
      else Ret v
  end.

(** The body of the request (lines 158-174). *)
Definition requestBody (schema : value) : string :=
  fill preferences (Model.inputSchema (target e a))
       (Args.basePrompt a) (Args.prompt a) (Args.input a)
       (JSON_stringify schema).

End Render.

(** *** The state of a mounted hook *)

(** The promise returned by [fetch]. *)
Inductive status : Type :=
| Pending
| Responded (ok : bool)
| Rejected.

(** What the closures of one chain [fetch.then(...).finally(...)] captured
    when an effect run registered it: the tag of [me], the tag of the
    effect run's own arguments, and the target model's timing and key
    path. *)
Record chain : Type := {
  me_tag : string;
  own_tag : string;
  timing : string;
  keyPath : string
}.

(** A callback registered on the promise with [then]: a chain, or the
    [response.body?.emit("close")] of [stopModel] and [forceStop]. *)
Inductive reaction : Type :=
| Handle (c : chain)
| Close.

(** [response.json()] reads the body once: a second call is refused
    ("body used already"). [Reading] holds the key path of the reader. *)
Inductive body_read : Type :=
| Unread
| Reading (path : string)
| Read.

(** A listener of the body's [data] event, with its variable [text]. *)
Record listener : Type := {
  l_chain : chain;
  l_text : string
}.

(** One call of [fetch] and what has been hung on it. *)
Record request : Type := {
  q_endpoint : string;
  q_headers : list (string * string);
  q_body : string;
  q_tag : string;
  q_status : status;
  q_closed : bool;
  q_reactions : list reaction;
  q_listeners : list listener;
  q_reader : body_read
}.

(** A promise that ends rejected with no handler on it, which the runtime
    reports as an unhandled rejection: the chains end in [finally] and
    nothing in the hook calls [catch]. *)
Inductive rejection : Type :=
(** a promise derived from the [fetch] of request [id], rejected with the
    reason [fetch] gave *)
| FetchFailed (id : nat)
(** [response.json().then(...)] of request [id]: the body is no JSON or was
    read before, or the extractor threw *)
| BodyFailed (id : nat) (e : exn).

(** [AIRef.current] ([forceStop] closes the body of [fetch]). *)
Record ref : Type := {
  fetch : nat;
  ref_tag : string
}.

Record state : Type := {
  data : value;
  error : option string;
  dataTag : string;
  isLoading : bool;
  AIRef : option ref;
  (** the dependencies [execute, basePrompt, input, prompt] of the last
      effect run *)
  deps : option (bool * string * string * string);
  (** every call of [fetch] so far, oldest first *)
  requests : list request;
  (** the rejections left unhandled so far, oldest first *)
  unhandled : list rejection
}.

Definition initial : state := {|
  data := VStr "";
  error := None;
  dataTag := "";
  isLoading := false;
  AIRef := None;
  deps := None;
  requests := [];
  unhandled := []
|}.

Definition setData (v : value) (s : state) : state :=
  {| data := v; error := error s; dataTag := dataTag s; isLoading := isLoading s;
     AIRef := AIRef s; deps := deps s; requests := requests s;
     unhandled := unhandled s |}.

Definition setDataTag (t : string) (s : state) : state :=
  {| data := data s; error := error s; dataTag := t; isLoading := isLoading s;
     AIRef := AIRef s; deps := deps s; requests := requests s;
     unhandled := unhandled s |}.

Definition setIsLoading (b : bool) (s : state) : state :=
  {| data := data s; error := error s; dataTag := dataTag s; isLoading := b;
     AIRef := AIRef s; deps := deps s; requests := requests s;
     unhandled := unhandled s |}.

Definition setAIRef (r : option ref) (s : state) : state :=
  {| data := data s; error := error s; dataTag := dataTag s; isLoading := isLoading s;
     AIRef := r; deps := deps s; requests := requests s;
     unhandled := unhandled s |}.

Definition setDeps (d : bool * string * string * string) (s : state) : state :=
  {| data := data s; error := error s; dataTag := dataTag s; isLoading := isLoading s;
     AIRef := AIRef s; deps := Some d; requests := requests s;
     unhandled := unhandled s |}.

Definition setRequests (qs : list request) (s : state) : state :=
  {| data := data s; error := error s; dataTag := dataTag s; isLoading := isLoading s;
     AIRef := AIRef s; deps := deps s; requests := qs;
     unhandled := unhandled s |}.

(** One more rejection that nothing handles. *)
Definition report (r : rejection) (s : state) : state :=
  {| data := data s; error := error s; dataTag := dataTag s; isLoading := isLoading s;
     AIRef := AIRef s; deps := deps s; requests := requests s;
     unhandled := unhandled s ++ [r] |}.

(** The request at position [id] changed by [f]. *)
Fixpoint change (id : nat) (f : request -> request) (qs : list request)
  : list request :=
  match qs, id with
  | [], _ => []
  | q :: rest, 0 => f q :: rest
  | q :: rest, S k => q :: change k f rest
  end.

Definition onRequest (id : nat) (f : request -> request) (s : state) : state :=
  setRequests (change id f (requests s)) s.

Definition withStatus (st : status) (q : request) : request :=
  {| q_endpoint := q_endpoint q; q_headers := q_headers q; q_body := q_body q;
     q_tag := q_tag q; q_status := st; q_closed := q_closed q;
     q_reactions := q_reactions q; q_listeners := q_listeners q;
     q_reader := q_reader q |}.

Definition withClosed (q : request) : request :=
  {| q_endpoint := q_endpoint q; q_headers := q_headers q; q_body := q_body q;
     q_tag := q_tag q; q_status := q_status q; q_closed := true;
     q_reactions := q_reactions q; q_listeners := q_listeners q;
     q_reader := q_reader q |}.

Definition withReactions (rs : list reaction) (q : request) : request :=
  {| q_endpoint := q_endpoint q; q_headers := q_headers q; q_body := q_body q;
     q_tag := q_tag q; q_status := q_status q; q_closed := q_closed q;
     q_reactions := rs; q_listeners := q_listeners q;
     q_reader := q_reader q |}.

Definition withListeners (ls : list listener) (q : request) : request :=
  {| q_endpoint := q_endpoint q; q_headers := q_headers q; q_body := q_body q;
     q_tag := q_tag q; q_status := q_status q; q_closed := q_closed q;
     q_reactions := q_reactions q; q_listeners := ls;
     q_reader := q_reader q |}.

Definition withReader (r : body_read) (q : request) : request :=
  {| q_endpoint := q_endpoint q; q_headers := q_headers q; q_body := q_body q;
     q_tag := q_tag q; q_status := q_status q; q_closed := q_closed q;
     q_reactions := q_reactions q; q_listeners := q_listeners q;
     q_reader := r |}.

(** *** The value a call returns (lines 236-287) *)

Definition failed (message : string) : Result.t number := {|
  Result.data := VStr "";
  Result.isLoading := false;
  Result.error := Some message;
  Result.dataTag := ""
|}.

Definition useModel (s : state) (e : Env.t) (a : Args.t)
  : completion (Result.t number) :=
  match modelSchema e a with
  | Throw x => Throw x
  | Ret _ =>
      let preferences := Env.preferences e in
      let endpoint := Model.endpoint (target e a) in
      let res :=
        if Env.canAccessAI e then
          let ai :=
            useAI (Pref.promptPrefix preferences ++ Args.prompt a ++
                   Pref.promptSuffix preferences)
                  (Args.execute a) (temp e a)
                  (if endpoint =? "Raycast AI 3.5"
                   then "gpt-3.5-turbo" else "text-davinci-003") in
          {| Result.data := VStr (AI.data ai);
             Result.isLoading := AI.isLoading ai;
             Result.error := AI.error ai;
             Result.dataTag := tag a |}
        else
          {| Result.data := data s;
             Result.isLoading := true;
             Result.error := error s;
             Result.dataTag := dataTag s |} in
      Ret
        (if (String.length (Args.basePrompt a) =? 0)%nat &&
            (String.length (Args.prompt a) =? 0)%nat
         then failed "Prompt cannot be empty"
         else if namesRaycastAI endpoint || Models.isLoading (Env.models e) then
           if Models.isLoading (Env.models e) then
             {| Result.data := VStr "";
                Result.isLoading := true;
                Result.error := None;
                Result.dataTag := tag a |}
           else res
         else if Str.includes endpoint ":" then
           {| Result.data := data s;
              Result.isLoading := isLoading s;
              Result.error := error s;
              Result.dataTag := dataTag s |}
         else failed "Invalid Endpoint")
  end.

(** *** The stream (lines 193-219) *)

Definition newline : ascii := "010"%char.

(** One line of a chunk, for a listener of chain [c]: the listener's
    [text] and the hook's [data] before and after. What the [try] block
    throws ([JSON.parse], [get], [output.toString()]) is caught and the
    line is left. *)
Definition onLine (c : chain) (acc : string * value) (line : string)
  : string * value :=
  let (text, shown) := acc in
  if Str.startsWith line "data: [DONE]" then acc
  else if Str.startsWith line "data: " then
    match JSON_parse (Str.skip 5 line) with
    | None => acc
    | Some jsonData =>
        match get jsonData (keyPath c) None with
        | Throw _ => acc
        | Ret found =>
            let output := if truthy found then found else VStr "" in
            match to_text output with
            | Throw _ => acc
            | Ret fragment =>
                let text' := accumulate text fragment in
                (text', if me_tag c =? own_tag c then VStr text' else shown)
            end
        end
    end
  else acc.

(** The [data] event: every listener, in the order of registration, reads
    the lines of the chunk. *)
Fixpoint deliver (chunk : string) (ls : list listener) (shown : value)
  : list listener * value :=
  match ls with
  | [] => ([], shown)
  | l :: rest =>
      let (text', shown1) :=
        fold_left (onLine (l_chain l)) (Str.split newline chunk) (l_text l, shown) in
      let (rest', shown2) := deliver chunk rest shown1 in
      ({| l_chain := l_chain l; l_text := text' |} :: rest', shown2)
  end.

(** *** Callbacks on the promise *)

(** The [fetch] of request [id] has failed. *)
Definition fetch_failed (id : nat) (s : state) : bool :=
  match nth_error (requests s) id with
  | Some q => match q_status q with Rejected => true | _ => false end
  | None => false
  end.

(** [fetch.then((response) => response.body?.emit("close"))]: at once when
    the response is there, later when the promise is pending, never when it
    is rejected: the promise that [then] returns is then rejected too, with
    no handler. *)
Definition closeBody (id : nat) (s : state) : state :=
  let closed :=
    onRequest id
      (fun q =>
         match q_status q with
         | Pending => withReactions (q_reactions q ++ [Close]) q
         | Responded _ => withClosed q
         | Rejected => q
         end) s in
  if fetch_failed id s then report (FetchFailed id) closed else closed.

(** The body of request [id] has been read, or is being read. *)
Definition body_used (id : nat) (s : state) : bool :=
  match nth_error (requests s) id with
  | Some q => match q_reader q with Unread => false | _ => true end
  | None => false
  end.

(** The callback of [then] of a chain (lines 187-219). A body that was
    read before refuses [response.json()], and nothing handles that. *)
Definition onResponse (id : nat) (ok : bool) (c : chain) (s : state) : state :=
  if ok && (timing c =? "sync") then
    if body_used id s then report (BodyFailed id TypeError) s
    else onRequest id (withReader (Reading (keyPath c))) s
  else if ok && (timing c =? "async") then
    onRequest id
      (fun q => withListeners (q_listeners q ++ [{| l_chain := c; l_text := "" |}]) q)
      (setDataTag (own_tag c) s)
  else s.

(** The callback of [finally] of a chain (lines 220-226). *)
Definition onSettled (id : nat) (c : chain) (s : state) : state :=
  if negb (me_tag c =? own_tag c) then closeBody id s
  else setIsLoading false s.

Definition runThen (id : nat) (ok : bool) (s : state) (r : reaction) : state :=
  match r with
  | Handle c => onResponse id ok c s
  | Close => onRequest id withClosed s
  end.

Definition runFinally (id : nat) (s : state) (r : reaction) : state :=
  match r with
  | Handle c => onSettled id c s
  | Close => s
  end.

(** A callback registered with [then] on a promise that is rejected: the
    callback is passed over and the promise that [then] returned is
    rejected; a chain runs its [finally] and the promise that [finally]
    returned is rejected; nothing handles either. *)
Definition runRejected (id : nat) (s : state) (r : reaction) : state :=
  match r with
  | Handle c => report (FetchFailed id) (onSettled id c s)
  | Close => report (FetchFailed id) s
  end.

(** The promise of request [id] resolves: the callbacks of [then] run in
    the order of registration, then those of [finally]. *)
Definition respond (id : nat) (ok : bool) (s : state) : state :=
  match nth_error (requests s) id with
  | Some q =>
      match q_status q with
      | Pending =>
          let rs := q_reactions q in
          let s1 := onRequest id (fun q => withReactions [] (withStatus (Responded ok) q)) s in
          fold_left (runFinally id) rs (fold_left (runThen id ok) rs s1)
      | _ => s
      end
  | None => s
  end.

(** The promise of request [id] is rejected: only [finally] runs, and the
    rejection goes on to the end of every chain, where nothing catches
    it. *)
Definition reject (id : nat) (s : state) : state :=
  match nth_error (requests s) id with
  | Some q =>
      match q_status q with
      | Pending =>
          let rs := q_reactions q in
          let s1 := onRequest id (fun q => withReactions [] (withStatus Rejected q)) s in
          fold_left (runRejected id) rs s1
      | _ => s
      end
  | None => s
  end.

(** A chain registered on request [id]: queued while the promise is
    pending, run at once when it is settled. *)
Definition attach (id : nat) (c : chain) (s : state) : state :=
  match nth_error (requests s) id with
  | Some q =>
      match q_status q with
      | Pending => onRequest id (fun q => withReactions (q_reactions q ++ [Handle c]) q) s
      | Responded ok => onSettled id c (onResponse id ok c s)
      | Rejected => report (FetchFailed id) (onSettled id c s)
      end
  | None => s
  end.

(** *** The effect (lines 149-227) *)

Section Effect.

Variable e : Env.t.
Variable a : Args.t.
(** [modelSchema] of the render that scheduled the effect *)
Variable schema : value.

Definition dispatched : request := {|
  q_endpoint := Model.endpoint (target e a);
  q_headers := headers (target e a);
  q_body := requestBody e a schema;
  q_tag := tag a;
  q_status := Pending;
  q_closed := false;
  q_reactions := [];
  q_listeners := [];
  q_reader := Unread
|}.

(** [s] is the state the render saw: its [isLoading] is the one the
    closure holds. *)
Definition effect (s : state) : state :=
  if raycastModel e a || negb (Args.execute a) then s
  else
    let s1 :=
      match AIRef s with
      | None =>
          if Args.execute a && (0 <? String.length (Args.prompt a))%nat &&
             negb (isLoading s)
          then setAIRef (Some {| fetch := List.length (requests s); ref_tag := tag a |})
                 (setRequests (requests s ++ [dispatched]) s)
          else s
      | Some _ => s
      end in
    let s2 := setIsLoading true s1 in
    match AIRef s2 with
    | Some me =>
        attach (fetch me)
          {| me_tag := ref_tag me;
             own_tag := tag a;
             timing := Model.outputTiming (target e a);
             keyPath := Model.outputKeyPath (target e a) |} s2
    | None => s2
    end.

End Effect.

(** *** Events *)

Inductive event : Type :=
(** the component renders: the call, then its effect when a dependency
    changed *)
| Render (e : Env.t) (a : Args.t)
(** the caller invokes the returned [stopModel] *)
| StopModel
(** the response of request [id] arrives *)
| Respond (id : nat) (ok : bool)
(** the [fetch] of request [id] fails *)
| Reject (id : nat)
(** the body of request [id] emits a chunk *)
| Chunk (id : nat) (chunk : string)
(** the body of request [id] has been read to its end *)
| Body (id : nat) (text : string).

Definition same_deps (old : option (bool * string * string * string))
  (new : bool * string * string * string) : bool :=
  match old, new with
  | Some (x1, b1, i1, p1), (x2, b2, i2, p2) =>
      Bool.eqb x1 x2 && (b1 =? b2) && (i1 =? i2) && (p1 =? p2)
  | None, _ => false
  end.

(** A render that throws commits nothing. *)
Definition render (e : Env.t) (a : Args.t) (s : state) : state :=
  match modelSchema e a with
  | Throw _ => s
  | Ret schema =>
      let d := (Args.execute a, Args.basePrompt a, Args.input a, Args.prompt a) in
      if same_deps (deps s) d then s else effect e a schema (setDeps d s)
  end.

(** [stopModel] (lines 229-234) *)
Definition stopModel (s : state) : state :=
  match AIRef s with
  | Some me => setAIRef None (closeBody (fetch me) s)
  | None => s
  end.

(** A body on which [close] was emitted delivers nothing more: the reading
    of [emit("close")] most favourable to the hook. *)
Definition flowing (q : request) : bool :=
  match q_status q with
  | Responded true => negb (q_closed q)
  | _ => false
  end.

Definition chunk (id : nat) (text : string) (s : state) : state :=
  match nth_error (requests s) id with
  | Some q =>
      if flowing q then
        let (ls, shown) := deliver text (q_listeners q) (data s) in
        setData shown (onRequest id (withListeners ls) s)
      else s
  | None => s
  end.

(** The reader of [response.json()] gets the whole body (lines 189-192).
    When [response.json()] refuses the body, or the extractor throws, the
    promise that [then] returned is rejected, with no handler. *)
Definition body (id : nat) (text : string) (s : state) : state :=
  match nth_error (requests s) id with
  | Some q =>
      if flowing q then
        match q_reader q with
        | Reading path =>
            let s1 := onRequest id (withReader Read) s in
            match JSON_parse text with
            | Some json =>
                match get json path None with
                | Ret output => setData output s1
                | Throw x => report (BodyFailed id x) s1
                end
            | None => report (BodyFailed id SyntaxError) s1
            end
        | _ => s
        end
      else s
  | None => s
  end.

Definition step (s : state) (ev : event) : state :=
  match ev with
  | Render e a => render e a s
  | StopModel => stopModel s
  | Respond id ok => respond id ok s
  | Reject id => reject id s
  | Chunk id text => chunk id text s
  | Body id text => body id text s
  end.

Definition run (evs : list event) : state := fold_left step evs initial.

Inductive reachable : state -> Prop :=
| reachable_initial : reachable initial
| reachable_step s ev : reachable s -> reachable (step s ev).

End Hook.

Arguments initial {number}.
Arguments of_default {number} def.
Arguments failed {number} message.

(** ** A runtime to compute with

    Whole numbers stand for the runtime's numbers, [JSON.parse] and
    [JSON.stringify] cover the documents of the examples (objects, arrays,
    strings with the short escapes, whole numbers and the three literals;
    [decode] refuses a number with a fraction or an exponent), and a value
    carries its [length], where it has one, and its [constructor], a
    function of the runtime whose inherited accessors [caller] and
    [arguments] throw. The examples below are run on it; the theorems are
    not bound to it. *)

Module Sample.

Definition json : Type := value Z.

Definition is_json_space (c : ascii) : bool :=
  let n := nat_of_ascii c in
  ((n =? 32) || (n =? 9) || (n =? 10) || (n =? 13))%nat.

Fixpoint skip_ws (s : string) : string :=
  match s with
  | "" => ""
  | String c s' => if is_json_space c then skip_ws s' else s
  end.

(** The characters of a string literal after its opening quote, and the
    text after its closing quote. *)
Fixpoint decode_chars (s : string) : option (string * string) :=
  match s with
  | "" => None
  | String c s' =>
      if Ascii.eqb c Str.dquote then Some ("", s')
      else if Ascii.eqb c Str.backslash then
        match s' with
        | String d s'' =>
            let plain :=
              if Ascii.eqb d Str.dquote then Some Str.dquote
              else if Ascii.eqb d Str.backslash then Some Str.backslash
              else if Ascii.eqb d "/"%char then Some "/"%char
              else if Ascii.eqb d "b"%char then Some "008"%char
              else if Ascii.eqb d "f"%char then Some "012"%char
              else if Ascii.eqb d "n"%char then Some "010"%char
              else if Ascii.eqb d "r"%char then Some "013"%char
              else if Ascii.eqb d "t"%char then Some "009"%char
              else None in
            match plain, decode_chars s'' with
            | Some x, Some (body, rest) => Some (String x body, rest)
            | _, _ => None
            end
        | "" => None
        end
      else if (nat_of_ascii c <? 32)%nat then None
      else
        match decode_chars s' with
        | Some (body, rest) => Some (String c body, rest)
        | None => None
        end
  end.

(** The digits at the start of [s], and the text after them. *)
Fixpoint decode_digits (s : string) : string * string :=
  match s with
  | "" => ("", "")
  | String c s' =>
      match KeyPath.digit c with
      | Some _ => let (ds, rest) := decode_digits s' in (String c ds, rest)
      | None => ("", s)
      end
  end.

Definition starts_fraction (s : string) : bool :=
  match s with
  | String c _ =>
      Ascii.eqb c "."%char || Ascii.eqb c "e"%char || Ascii.eqb c "E"%char
  | "" => false
  end.

(** A whole number without a sign: no leading zero. *)
Definition decode_natural (s : string) : option (nat * string) :=
  let (ds, rest) := decode_digits s in
  if starts_fraction rest then None
  else
    match ds with
    | "" => None
    | String c more =>
        if Ascii.eqb c "0"%char && negb (more =? "") then None
        else
          match KeyPath.digits_value 0 ds with
          | Some n => Some (n, rest)
          | None => None
          end
    end.

Definition put (key : string) (x : json) (props : list (string * json))
  : list (string * json) :=
  assoc_set key x props.

Fixpoint decode_value (fuel : nat) (s : string) {struct fuel}
  : option (json * string) :=
  match fuel with
  | 0 => None
  | S f =>
      match skip_ws s with
      | "" => None
      | String c rest =>
          if Ascii.eqb c "{"%char then
            match skip_ws rest with
            | String d rest' =>
                if Ascii.eqb d "}"%char then Some (VObj [], rest')
                else decode_members f [] rest
            | "" => None
            end
          else if Ascii.eqb c "["%char then
            match skip_ws rest with
            | String d rest' =>
                if Ascii.eqb d "]"%char then Some (VArr [], rest')
                else decode_items f [] rest
            | "" => None
            end
          else if Ascii.eqb c Str.dquote then
            match decode_chars rest with
            | Some (body, rest') => Some (VStr body, rest')
            | None => None
            end
          else if Str.startsWith (String c rest) "true" then Some (VBool true, Str.skip 4 (String c rest))
          else if Str.startsWith (String c rest) "false" then Some (VBool false, Str.skip 5 (String c rest))
          else if Str.startsWith (String c rest) "null" then Some (VNull, Str.skip 4 (String c rest))
          else if Ascii.eqb c "-"%char then
            match decode_natural rest with
            | Some (n, rest') => Some (VNum (- Z.of_nat n)%Z, rest')
            | None => None
            end
          else
            match decode_natural (String c rest) with
            | Some (n, rest') => Some (VNum (Z.of_nat n), rest')
            | None => None
            end
      end
  end
with decode_items (fuel : nat) (done : list json) (s : string) {struct fuel}
  : option (json * string) :=
  match fuel with
  | 0 => None
  | S f =>
      match decode_value f s with
      | Some (v, rest) =>
          match skip_ws rest with
          | String c rest' =>
              if Ascii.eqb c ","%char then decode_items f (done ++ [v]) rest'
              else if Ascii.eqb c "]"%char then Some (VArr (done ++ [v]), rest')
              else None
          | "" => None
          end
      | None => None
      end
  end
with decode_members (fuel : nat) (done : list (string * json)) (s : string) {struct fuel}
  : option (json * string) :=
  match fuel with
  | 0 => None
  | S f =>
      match skip_ws s with
      | String q after_quote =>
          if Ascii.eqb q Str.dquote then
            match decode_chars after_quote with
            | Some (key, rest) =>
                match skip_ws rest with
                | String c rest' =>
                    if Ascii.eqb c ":"%char then
                      match decode_value f rest' with
                      | Some (v, rest'') =>
                          match skip_ws rest'' with
                          | String d rest3 =>
                              if Ascii.eqb d ","%char then decode_members f (put key v done) rest3
                              else if Ascii.eqb d "}"%char then Some (VObj (put key v done), rest3)
                              else None
                          | "" => None
                          end
                      | None => None
                      end
                    else None
                | "" => None
                end
            | None => None
            end
          else None
      | "" => None
      end
  end.

(** [JSON.parse] *)
Definition decode (s : string) : option json :=
  match decode_value (2 * String.length s + 2) s with
  | Some (v, rest) => if skip_ws rest =? "" then Some v else None
  | None => None
  end.

Definition Z_text (z : Z) : string := NilZero.string_of_int (Z.to_int z).

Definition hex_digit (n : nat) : ascii :=
  if (n <? 10)%nat then ascii_of_nat (48 + n) else ascii_of_nat (87 + n).

Fixpoint encode_chars (s : string) : string :=
  match s with
  | "" => ""
  | String c s' =>
      let n := nat_of_ascii c in
      (if Ascii.eqb c Str.dquote then String Str.backslash (Str.chr Str.dquote)
       else if Ascii.eqb c Str.backslash then String Str.backslash (Str.chr Str.backslash)
       else if (n =? 8)%nat then String Str.backslash "b"
       else if (n =? 12)%nat then String Str.backslash "f"
       else if (n =? 10)%nat then String Str.backslash "n"
       else if (n =? 13)%nat then String Str.backslash "r"
       else if (n =? 9)%nat then String Str.backslash "t"
       else if (n <? 32)%nat then
         String Str.backslash
           ("u00" ++ String (hex_digit (n / 16)) (Str.chr (hex_digit (n mod 16))))
       else Str.chr c) ++ encode_chars s'
  end.

Definition quoted (s : string) : string :=
  String Str.dquote (encode_chars s ++ Str.chr Str.dquote).

(** [JSON.stringify]: [undefined] and runtime objects are left out of an
    object and stand as [null] in an array. *)
Fixpoint encode (v : json) : string :=
  match v with
  | VUndef | VHost _ => "undefined"
  | VNull => "null"
  | VBool true => "true"
  | VBool false => "false"
  | VNum z => Z_text z
  | VStr s => quoted s
  | VArr items =>
      "[" ++
      (fix items_text (l : list json) : string :=
         match l with
         | [] => ""
         | x :: rest =>
             match x with
             | VUndef | VHost _ => "null"
             | _ => encode x
             end ++
             match rest with
             | [] => ""
             | _ :: _ => "," ++ items_text rest
             end
         end) items ++ "]"
  | VObj props =>
      "{" ++
      (fix props_text (first : bool) (l : list (string * json)) : string :=
         match l with
         | [] => ""
         | (k, x) :: rest =>
             match x with
             | VUndef | VHost _ => props_text first rest
             | _ =>
                 (if first then "" else ",") ++ quoted k ++ ":" ++ encode x ++
                 props_text false rest
             end
         end) true props ++ "}"
  end.

(** [parseFloat] on the text of a whole number; zero stands for NaN. *)
Definition whole (s : string) : Z :=
  match Str.trimStart s with
  | String c rest =>
      if Ascii.eqb c "-"%char then
        match KeyPath.digits_value 0 (fst (decode_digits rest)) with
        | Some n => (- Z.of_nat n)%Z
        | None => 0%Z
        end
      else
        match KeyPath.digits_value 0 (fst (decode_digits (String c rest))) with
        | Some n => Z.of_nat n
        | None => 0%Z
        end
  | "" => 0%Z
  end.

Definition lengths (v : json) (key : string) : option json :=
  if key =? "length" then
    match v with
    | VArr items => Some (VNum (Z.of_nat (List.length items)))
    | VStr s => Some (VNum (Z.of_nat (String.length s)))
    | _ => None
    end
  else None.

(** The functions of the runtime that the values of a document have as
    their [constructor]. *)
Definition native (name : string) : json :=
  VHost ("function " ++ name ++ "() { [native code] }").

(** What a read finds on a value beyond its data. *)
Definition inherited (v : json) (key : string) : option (completion json) :=
  match lengths v key with
  | Some n => Some (Ret n)
  | None =>
      match v with
      | VHost _ =>
          if (key =? "caller") || (key =? "arguments") then Some (Throw TypeError)
          else if key =? "constructor" then Some (Ret (native "Function"))
          else None
      | VObj _ => if key =? "constructor" then Some (Ret (native "Object")) else None
      | VArr _ => if key =? "constructor" then Some (Ret (native "Array")) else None
      | VStr _ => if key =? "constructor" then Some (Ret (native "String")) else None
      | VNum _ => if key =? "constructor" then Some (Ret (native "Number")) else None
      | VBool _ => if key =? "constructor" then Some (Ret (native "Boolean")) else None
      | VUndef | VNull => None
      end
  end.

(** The managed service of the examples has nothing to say yet. *)
Definition idle (prompt : string) (execute : bool) (creativity : Z) (model : string)
  : AI.t :=
  {| AI.data := ""; AI.isLoading := execute; AI.error := None |}.

#[global] Instance runtime : Runtime Z := {|
  num_truthy := fun z => negb (Z.eqb z 0);
  num_text := Z_text;
  num_one := 1%Z;
  parseFloat := whole;
  builtin_member := inherited;
  JSON_parse := decode;
  JSON_stringify := encode;
  strict_mode := true;
  useAI := idle
|}.

End Sample.


(** * PromptLab: the command controls

    A shallow embedding of the actions of
    [src/components/Commands/actions/CommandControlActions.tsx] that work on
    data of their own: the link of [CreateQuickLinkAction] with the constant
    of [lib/constants] it starts from, and the handlers of
    [DeleteCommandAction] and [DeleteAllCommandsAction] on the local storage
    and on the list of installed commands. *)

(** [encodeURIComponent] on code units below 256: a code unit outside the
    unreserved set gives way to the escapes of its UTF-8 form, one byte
    below 128 and two from there. *)
Module Uri.

Definition unreserved (c : ascii) : bool :=
  let n := nat_of_ascii c in
  (((48 <=? n) && (n <=? 57)) || ((65 <=? n) && (n <=? 90)) ||
   ((97 <=? n) && (n <=? 122)))%nat ||
  existsb (Ascii.eqb c) ["-"; "_"; "."; "!"; "~"; "*"; "'"; "("; ")"]%char.

Definition hex_digit (n : nat) : ascii :=
  if (n <? 10)%nat then ascii_of_nat (48 + n) else ascii_of_nat (55 + n).

(** [%XX] *)
Definition escape (byte : nat) : string :=
  String "%" (String (hex_digit (byte / 16)) (String (hex_digit (byte mod 16)) "")).

Definition encode_unit (c : ascii) : string :=
  let n := nat_of_ascii c in
  if unreserved c then Str.chr c
  else if (n <? 128)%nat then escape n
  else escape (192 + n / 64) ++ escape (128 + n mod 64).

Fixpoint encodeURIComponent (s : string) : string :=
  match s with
  | "" => ""
  | String c s' => encode_unit c ++ encodeURIComponent s'
  end.

End Uri.

(** [QUICKLINK_URL_BASE] of [lib/constants] *)
Definition QUICKLINK_URL_BASE : string :=
  "raycast://extensions/HelloImSteven/promptlab/search-commands?arguments=%7B%22commandName%22:%22".

(** The fields of [Command] that the actions read. *)
Module Command.
Record t : Type := {
  name : string;
  id : string;
  (** read with [?.]: it may be missing *)
  prompt : option string
}.
End Command.

(** The local storage of the extension: the items in the order they were
    set, one item to a key. *)
Module LocalStorage.

Definition t : Type := list (string * string).

(** [LocalStorage.getItem(key)] *)
Fixpoint getItem (key : string) (items : t) : option string :=
  match items with
  | [] => None
  | (k, v) :: rest => if k =? key then Some v else getItem key rest
  end.

(** [LocalStorage.removeItem(key)] *)
Definition removeItem (key : string) (items : t) : t :=
  filter (fun item => negb (fst item =? key)) items.

End LocalStorage.

(** What the handlers work on: the local storage, and the state that
    [setCommands] sets. *)
Record world : Type := {
  stored : LocalStorage.t;
  installed : list Command.t
}.

(** [CreateQuickLinkAction] (lines 105-118): the [quicklink] it hands to
    [Action.CreateQuicklink]. *)
Module CreateQuickLinkAction.

Record quicklink_t : Type := {
  link : string;
  name : string
}.

Definition quicklink (command : Command.t) : quicklink_t := {|
  link :=
    QUICKLINK_URL_BASE ++ Uri.encodeURIComponent (Command.id command) ++ "%22" ++
    (if match Command.prompt command with
        | Some prompt => Str.includes prompt "{{input}}"
        | None => false
        end
     then "%2C%22queryInput%22%3A%22{Input}%22"
     else "") ++
    "%7D";
  name := Command.name command
|}.

End CreateQuickLinkAction.

(** [DeleteCommandAction] (lines 149-177). [commands] is the list the
    action was rendered with, [confirmed] what [confirmAlert] resolves
    to. *)
Module DeleteCommandAction.

Definition onAction (command : Command.t) (commands : list Command.t)
  (confirmed : bool) (w : world) : world :=
  if confirmed then
    let newCommands :=
      filter (fun cmd => negb (Command.name cmd =? Command.name command)) commands in
    {| stored := LocalStorage.removeItem (Command.name command) (stored w);
       installed := newCommands |}
  else w.

End DeleteCommandAction.

(** [DeleteAllCommandsAction] (lines 185-211): the removals are started one
    after the other, none is waited for, and the list is emptied; the state
    is the one reached when they are all done. *)
Module DeleteAllCommandsAction.

Definition onAction (commands : list Command.t) (confirmed : bool) (w : world) : world :=
  if confirmed then
    {| stored :=
         fold_left (fun items cmd => LocalStorage.removeItem (Command.name cmd) items)
                   commands (stored w);
       installed := [] |}
  else w.

End DeleteAllCommandsAction.

Unset Implicit Arguments.

(** * Vocabulary of the properties *)

(** *** Model resolution *)

(** The model the registry marks as its default, when there is one. *)
Definition registry_default (models : Models.t) (d : Model.t) : Prop :=
  In d (Models.models models) /\ Model.isDefault d = true /\
  forall d', In d' (Models.models models) -> Model.isDefault d' = true -> d' = d.

Definition no_registry_default (models : Models.t) : Prop :=
  forall m, In m (Models.models models) -> Model.isDefault m = false.

(** *** Outbound headers *)

(** The value sent under a header name. *)
Fixpoint header (name : string) (hs : list (string * string)) : option string :=
  match hs with
  | [] => None
  | (n, v) :: rest => if n =? name then Some v else header name rest
  end.

(** The headers that carry a credential. *)
Definition is_authorization (entry : string * string) : bool :=
  (fst entry =? "Authorization") || (fst entry =? "X-API-Key").

(** *** Code units *)

Module Chars.
Import Str.

(** Every code unit of [s] passes [p]. *)
Fixpoint every (p : ascii -> bool) (s : string) : bool :=
  match s with
  | "" => true
  | String c s' => p c && every p s'
  end.

Definition not_dot (c : ascii) : bool := negb (Ascii.eqb c "."%char).

Definition not_space (c : ascii) : bool := negb (is_space c).

Definition not_dollar (c : ascii) : bool := negb (Ascii.eqb c dollar).

Definition not_quote (c : ascii) : bool := negb (Ascii.eqb c dquote).

(** The plain space, or no white space at all. *)
Definition space_or_not_space (c : ascii) : bool :=
  negb (is_space c) || Ascii.eqb c " "%char.

End Chars.

(** *** Key paths that follow the grammar *)

Module Grammar.
Import Str Chars.

(** A code unit of a name or of a bracketed sub-segment. *)
Definition plain_char (c : ascii) : bool :=
  negb (Ascii.eqb c "."%char || Ascii.eqb c "["%char || Ascii.eqb c "]"%char ||
        Ascii.eqb c "}"%char || is_space c).

(** A name or a sub-segment: not empty, plain code units only. *)
Definition plain (s : string) : bool :=
  negb (s =? "") && every plain_char s.

(** A segment: a name, with or without a bracketed sub-segment. *)
Definition segment : Type := (string * option string)%type.

Definition plain_segment (g : segment) : bool :=
  plain (fst g) && match snd g with Some i => plain i | None => true end.

Definition segment_text (g : segment) : string :=
  match snd g with
  | Some i => fst g ++ "[" ++ i ++ "]"
  | None => fst g
  end.

Definition segment_keys (g : segment) : list string :=
  match snd g with
  | Some i => [fst g; i]
  | None => [fst g]
  end.

(** The segments joined by dots. *)
Fixpoint path_text (gs : list segment) : string :=
  match gs with
  | [] => ""
  | g :: rest =>
      match rest with
      | [] => segment_text g
      | _ :: _ => segment_text g ++ "." ++ path_text rest
      end
  end.

End Grammar.

(** *** Walks through a document *)

Section Walks.

Variable number : Type.
Context {R : Runtime number}.

Local Abbreviation value := (value number).

(** What a read of a key finds on a value, by presence alone: the data of
    the value first, then the member that the runtime adds to it. *)
Definition present (v : value) (key : string) : option value :=
  match v with
  | VUndef | VNull => None
  | _ =>
      match own v key with
      | Some x => Some x
      | None =>
          match builtin_member v key with
          | Some (Ret x) => Some x
          | _ => None
          end
      end
  end.

(** A key that a value has neither in its data nor from the runtime: the
    read gives [undefined]. *)
Definition absent (v : value) (key : string) : Prop :=
  own v key = None /\ builtin_member v key = None.

(** [walks v path w]: every key of [path], taken in turn from [v], is
    present with a truthy value, and the last of these values is [w]. *)
Inductive walks : value -> list string -> value -> Prop :=
| walks_here (v : value) : walks v [] v
| walks_step (v x w : value) (key : string) (path : list string) :
    present v key = Some x -> truthy x = true -> walks x path w ->
    walks v (key :: path) w.

(** A key at which a walk stops: absent, or present with a falsy value. *)
Definition stops (v : value) (key : string) : Prop :=
  absent v key \/ exists x, present v key = Some x /\ truthy x = false.

Definition nullish (v : value) : bool :=
  match v with
  | VUndef | VNull => true
  | _ => false
  end.

End Walks.

Arguments present {number R} v key.
Arguments walks {number R} _ _ _.
Arguments walks_here {number R} v.
Arguments walks_step {number R} v x w key path _ _ _.
Arguments absent {number R} v key.
Arguments stops {number R} v key.
Arguments nullish {number} v.

(** *** Template substitution *)

Module Replaced.
Import Str.

(** [pat] occurs in [s] after [a], and nowhere earlier. *)
Definition first_at (pat s a b : string) : Prop :=
  s = a ++ pat ++ b /\
  forall a' b', s = a' ++ pat ++ b' -> String.length a <= String.length a'.

Definition occurs (pat s : string) : Prop := exists a b, s = a ++ pat ++ b.

(** What [s.replace(pat, repl)] makes of [s]: nothing when [pat] does not
    occur, and otherwise the first occurrence gives way to the expanded
    replacement. *)
Definition first_replaced (pat repl s s' : string) : Prop :=
  (~ occurs pat s /\ s' = s) \/
  (exists a b, first_at pat s a b /\ s' = a ++ expand repl a pat b ++ b).

Definition starts_word (s : string) : bool :=
  match s with
  | "" => true
  | String c _ => negb (is_space c)
  end.

(** No two white-space code units in a row. *)
Fixpoint single_spaced (after_space : bool) (s : string) : bool :=
  match s with
  | "" => true
  | String c s' =>
      if is_space c then negb after_space && single_spaced true s'
      else single_spaced false s'
  end.

(** Every double quote of the escaped text follows a backslash. *)
Fixpoint quotes_escaped (after_backslash : bool) (s : string) : bool :=
  match s with
  | "" => true
  | String c s' =>
      (negb (Ascii.eqb c dquote) || after_backslash) &&
      quotes_escaped (Ascii.eqb c backslash) s'
  end.

End Replaced.

(** The substitution as the specification words it: every occurrence of a
    placeholder gives way to its fragment, taken as it is. [inside] counts
    the code units of the current placeholder still to pass. *)
Fixpoint substituted (tokens : list (string * string)) (inside : nat) (s : string)
  : string :=
  match s with
  | "" => ""
  | String c s' =>
      match inside with
      | S k => substituted tokens k s'
      | 0 =>
          match find (fun t => Str.startsWith s (fst t)) tokens with
          | Some (token, fragment) =>
              fragment ++ substituted tokens (String.length token - 1) s'
          | None => String c (substituted tokens 0 s')
          end
      end
  end.

Definition fill_as_specified (preferences : Pref.t)
  (schema basePrompt prompt input text : string) : string :=
  substituted
    [("{prompt}", promptPart preferences prompt);
     ("{basePrompt}", basePromptPart preferences basePrompt);
     ("{input}", inputPart preferences schema prompt input)]
    0 text.

(** *** The life of a mounted hook *)

(** A request that has neither failed nor had [close] emitted on its
    body. *)
Definition live (q : request) : bool :=
  match q_status q with
  | Rejected => false
  | _ => negb (q_closed q)
  end.

(** A request that is no longer live, or will stop being so when its
    response arrives. *)
Definition doomed (q : request) : Prop :=
  live q = false \/ (q_status q = Pending /\ In Close (q_reactions q)).

(** What the callbacks may do to a request: all but its status and tag,
    and never undo a close. *)
Definition grows (q q' : request) : Prop :=
  q_status q' = q_status q /\ q_tag q' = q_tag q /\
  (q_closed q = true -> q_closed q' = true) /\
  (In Close (q_reactions q) -> In Close (q_reactions q')).

Section States.

Variable number : Type.

Local Abbreviation state := (state number).

(** What the callbacks may do to the state: the reference, the error and
    the list of requests stay, each request grows. *)
Definition keeps (s s' : state) : Prop :=
  AIRef s' = AIRef s /\ error s' = error s /\ deps s' = deps s /\
  List.length (requests s') = List.length (requests s) /\
  forall i q', nth_error (requests s') i = Some q' ->
    exists q, nth_error (requests s) i = Some q /\ grows q q'.

(** The request that [AIRef.current] holds. *)
Definition current (s : state) (i : nat) : bool :=
  match AIRef s with
  | Some me => (fetch me =? i)%nat
  | None => false
  end.

(** No promise is pending. *)
Definition no_pending (s : state) : Prop :=
  forall i q, nth_error (requests s) i = Some q -> q_status q <> Pending.

(** The invariant of single dispatch: the reference points at a request;
    a request it does not point at is doomed; a pending request keeps the
    hook loading, is the one the reference points at when there is one,
    and is the only one. *)
Record inv (s : state) : Prop := {
  inv_ref : forall me, AIRef s = Some me -> fetch me < List.length (requests s);
  inv_doomed : forall i q,
    nth_error (requests s) i = Some q -> current s i = false -> doomed q;
  inv_loading : isLoading s = false -> no_pending s;
  inv_current : forall me i q,
    AIRef s = Some me -> nth_error (requests s) i = Some q ->
    q_status q = Pending -> i = fetch me;
  inv_pending : forall i j qi qj,
    nth_error (requests s) i = Some qi -> nth_error (requests s) j = Some qj ->
    q_status qi = Pending -> q_status qj = Pending -> i = j
}.

(** The state after a call of [fetch]. *)
Definition fetched (t : string) (q : request) (s : state) : state :=
  setIsLoading true
    (setAIRef (Some {| fetch := List.length (requests s); ref_tag := t |})
       (setRequests (requests s ++ [q]) s)).

End States.

Arguments keeps {number} s s'.
Arguments current {number} s i.
Arguments no_pending {number} s.
Arguments inv {number} s.
Arguments inv_ref {number} s _.
Arguments inv_doomed {number} s _.
Arguments inv_loading {number} s _.
Arguments inv_current {number} s _.
Arguments inv_pending {number} s _.
Arguments fetched {number} t q s.

(** *** Links *)

(** What a link stands for: every escape [%XX] read as a byte, and the
    bytes as UTF-8, for code points below 256. *)
Module Percent.

Definition hex_value (c : ascii) : option nat :=
  let n := nat_of_ascii c in
  if ((48 <=? n) && (n <=? 57))%nat then Some (n - 48)
  else if ((65 <=? n) && (n <=? 70))%nat then Some (n - 55)
  else if ((97 <=? n) && (n <=? 102))%nat then Some (n - 87)
  else None.

Definition byte (h l : ascii) : option nat :=
  match hex_value h, hex_value l with
  | Some a, Some b => Some (16 * a + b)
  | _, _ => None
  end.

Fixpoint decode (s : string) : option string :=
  match s with
  | "" => Some ""
  | String c rest =>
      if Ascii.eqb c "%" then
        match rest with
        | String h (String l rest1) =>
            match byte h l with
            | Some n =>
                if (n <? 128)%nat
                then option_map (String (ascii_of_nat n)) (decode rest1)
                else
                  match rest1 with
                  | String c2 (String h2 (String l2 rest2)) =>
                      match (if Ascii.eqb c2 "%" then byte h2 l2 else None) with
                      | Some m =>
                          if ((194 <=? n) && (n <=? 195) && (128 <=? m) && (m <=? 191))%nat
                          then option_map
                                 (String (ascii_of_nat ((n - 192) * 64 + (m - 128))))
                                 (decode rest2)
                          else None
                      | None => None
                      end
                  | _ => None
                  end
            | None => None
            end
        | _ => None
        end
      else option_map (String c) (decode rest)
  end.

End Percent.

(** The text that a quicklink carries as its [arguments]: the command's id
    under [commandName] and, for a prompt that asks for input, the
    placeholder of the query under [queryInput]. *)
Definition arguments_text (id : string) (asks_input : bool) : string :=
  let q := Str.chr Str.dquote in
  "{" ++ q ++ "commandName" ++ q ++ ":" ++ q ++ id ++ q ++
  (if asks_input
   then "," ++ q ++ "queryInput" ++ q ++ ":" ++ q ++ "{Input}" ++ q
   else "") ++
  "}".

(** [prompt?.includes("{{input}}")] as a truth value *)
Definition asks_input (command : Command.t) : bool :=
  match Command.prompt command with
  | Some prompt => Str.includes prompt "{{input}}"
  | None => false
  end.

(** *** Commands and their items *)

(** Every command of the list has its item in the storage. *)
Definition backed (items : LocalStorage.t) (commands : list Command.t) : Prop :=
  forall c, In c commands -> LocalStorage.getItem (Command.name c) items <> None.

(** Some command of the list goes by the name. *)
Definition names (commands : list Command.t) (key : string) : bool :=
  existsb (fun c => Command.name c =? key) commands.

(** *** Histories of a mounted hook *)

(** An event of a hook that is rendered for the managed service only. *)
Definition managed_event (ev : event) : bool :=
  match ev with
  | Render e a => raycastModel e a
  | _ => true
  end.

(** An event that is no render with other dependencies than [d]. *)
Definition same_deps_event (d : bool * string * string * string) (ev : event) : bool :=
  match ev with
  | Render e a =>
      same_deps (Some d) (Args.execute a, Args.basePrompt a, Args.input a, Args.prompt a)
  | _ => true
  end.

(** A line that a listener passes over: the end marker, or no data line. *)
Definition passed_over (line : string) : bool :=
  Str.startsWith line "data: [DONE]" || negb (Str.startsWith line "data: ").

Section Untouched.

Variable number : Type.

(** A hook that no effect run and no callback has changed. *)
Definition untouched (s : state number) : Prop :=
  data s = VStr "" /\ error s = None /\ dataTag s = "" /\ isLoading s = false /\
  AIRef s = None /\ requests s = [].

End Untouched.

Arguments untouched {number} s.

(** *** The temperature of a request *)

(** [preferences.includeTemperature || modelOverride] as a truth value *)
Definition sets_temperature (e : Env.t) (a : Args.t) : bool :=
  Pref.includeTemperature (Env.preferences e) ||
  match Args.modelOverride a with Some _ => true | None => false end.

(** *** A hook with one request *)

Section OneRequest.

Variable number : Type.
Context {R : Runtime number}.

(** A call whose first effect run calls [fetch]: the target is not the
    managed service, execution is asked for, the prompt is not empty, and
    the template parses once filled in. *)
Definition issues (e : Env.t) (a : Args.t) (schema : value number) : Prop :=
  raycastModel e a = false /\ Args.execute a = true /\ Args.prompt a <> "" /\
  modelSchema e a = Ret schema.

(** The body of the request as the specification words it: every
    occurrence of a placeholder in the template gives way to its fragment,
    and the text so made, decoded and with the temperature set where it is
    asked for, is serialised. *)
Definition body_as_specified (e : Env.t) (a : Args.t) : option string :=
  match JSON_parse
          (fill_as_specified (Env.preferences e) (Model.inputSchema (target e a))
             (Args.basePrompt a) (Args.prompt a) (Args.input a)
             (Model.inputSchema (target e a))) with
  | Some parsed =>
      match (if sets_temperature e a
             then set_member parsed "temperature" (VNum (temp e a))
             else Ret parsed) with
      | Ret schema => Some (JSON_stringify schema)
      | Throw _ => None
      end
  | None => None
  end.

(** The chain that the effect run of a call hangs on the request it has
    issued itself. *)
Definition own_chain (e : Env.t) (a : Args.t) : chain := {|
  me_tag := tag a;
  own_tag := tag a;
  timing := Model.outputTiming (target e a);
  keyPath := Model.outputKeyPath (target e a)
|}.

(** The request of the call, with what has become of it. *)
Definition sent (e : Env.t) (a : Args.t) (schema : value number) (st : status)
  (rs : list reaction) (ls : list listener) (rd : body_read) : request := {|
  q_endpoint := Model.endpoint (target e a);
  q_headers := headers (target e a);
  q_body := requestBody e a schema;
  q_tag := tag a;
  q_status := st;
  q_closed := false;
  q_reactions := rs;
  q_listeners := ls;
  q_reader := rd
|}.

(** The hook after the call, with that request and no other, and no
    rejection left unhandled. *)
Definition mounted (a : Args.t) (shown : value number) (tagged : string)
  (loading : bool) (q : request) : state number := {|
  data := shown;
  error := None;
  dataTag := tagged;
  isLoading := loading;
  AIRef := Some {| fetch := 0; ref_tag := tag a |};
  deps := Some (Args.execute a, Args.basePrompt a, Args.input a, Args.prompt a);
  requests := [q];
  unhandled := []
|}.

(** The text of a listener of chain [c] that held [text] and showed it,
    after the lines. *)
Definition text_after (c : chain) (lines : list string) (text : string) : string :=
  fst (fold_left (onLine c) lines (text, VStr text)).

End OneRequest.

Arguments body_as_specified {number R} e a.
Arguments issues {number R} e a schema.
Arguments sent {number R} e a schema st rs ls rd.
Arguments mounted {number} a shown tagged loading q.
Arguments text_after {number R} c lines text.

(** *** A hook that waits for nothing *)

(** A callback that is only the close of a body. *)
Definition is_close (r : reaction) : bool :=
  match r with
  | Handle _ => false
  | Close => true
  end.

(** A request with no chain waiting for its response. *)
Definition chainless (q : request) : bool := forallb is_close (q_reactions q).

Section Wedged.

Variable number : Type.

(** A hook that is loading with nothing in [AIRef.current] and no chain
    waiting on any request. *)
Definition wedged (s : state number) : Prop :=
  AIRef s = None /\ isLoading s = true /\ forallb chainless (requests s) = true.

End Wedged.

Arguments wedged {number} s.

(** *** Key paths beside the grammar *)

(** A code unit that may stand between the first ["["] of an item and its
    last ["]"]: any but the dot, which ends the item, and the closing
    brace, which the pattern of the bracket leaves out. *)
Definition bracketed_char (c : ascii) : bool :=
  negb (Ascii.eqb c "."%char || Ascii.eqb c "}"%char).

(** *** Histories without [stopModel] *)

Definition not_stop (ev : event) : bool :=
  match ev with
  | StopModel => false
  | _ => true
  end.

(** * Examples to compute with *)

Module ResolutionExample.

Definition custom (endpoint : string) (isDefault : bool) : Model.t := {|
  Model.endpoint := endpoint;
  Model.authType := "none";
  Model.apiKey := "";
  Model.inputSchema := "{}";
  Model.outputKeyPath := "text";
  Model.outputTiming := "sync";
  Model.lengthLimit := "2500";
  Model.temperature := "1.0";
  Model.name := endpoint;
  Model.description := "";
  Model.favorited := false;
  Model.id := endpoint;
  Model.icon := "";
  Model.iconColor := "";
  Model.notes := "";
  Model.isDefault := isDefault
|}.

Definition preferences (endpoint : string) : Pref.t := {|
  Pref.modelEndpoint := endpoint;
  Pref.authType := "none";
  Pref.apiKey := "";
  Pref.inputSchema := "{}";
  Pref.outputKeyPath := "text";
  Pref.outputTiming := "sync";
  Pref.lengthLimit := "2500";
  Pref.includeTemperature := false;
  Pref.promptPrefix := "";
  Pref.promptSuffix := ""
|}.

Definition registry : Models.t := {|
  Models.models := [custom "https://a.example" false; custom "https://b.example" true];
  Models.isLoading := false
|}.

Definition empty_registry : Models.t := {|
  Models.models := [custom "https://a.example" false];
  Models.isLoading := false
|}.

End ResolutionExample.

Module HeadersExample.

Definition secured (authType apiKey : string) : Model.t := {|
  Model.endpoint := "https://api.example/v1";
  Model.authType := authType;
  Model.apiKey := apiKey;
  Model.inputSchema := "{}";
  Model.outputKeyPath := "text";
  Model.outputTiming := "sync";
  Model.lengthLimit := "2500";
  Model.temperature := "1.0";
  Model.name := "";
  Model.description := "";
  Model.favorited := false;
  Model.id := "";
  Model.icon := "";
  Model.iconColor := "";
  Model.notes := "";
  Model.isDefault := false
|}.

End HeadersExample.

Module ExtractorExample.

Definition json : Type := Sample.json.

(** [{"choices":[{"text":"hi"}]}] *)
Definition answered : json :=
  VObj [("choices", VArr [VObj [("text", VStr "hi")]])].

(** [{"choices":[]}] *)
Definition unanswered : json := VObj [("choices", VArr [])].

(** [{"usage":{"tokens":0,"model":"m"}}] *)
Definition counted : json :=
  VObj [("usage", VObj [("tokens", VNum 0%Z); ("model", VStr "m")])].

End ExtractorExample.

Module FillExample.

Definition bare : Pref.t := {|
  Pref.modelEndpoint := "https://api.example/v1";
  Pref.authType := "none";
  Pref.apiKey := "";
  Pref.inputSchema := "";
  Pref.outputKeyPath := "text";
  Pref.outputTiming := "sync";
  Pref.lengthLimit := "2500";
  Pref.includeTemperature := false;
  Pref.promptPrefix := "";
  Pref.promptSuffix := ""
|}.

Definition wrapped : Pref.t := {|
  Pref.modelEndpoint := "https://api.example/v1";
  Pref.authType := "none";
  Pref.apiKey := "";
  Pref.inputSchema := "";
  Pref.outputKeyPath := "text";
  Pref.outputTiming := "sync";
  Pref.lengthLimit := "2500";
  Pref.includeTemperature := false;
  Pref.promptPrefix := "<";
  Pref.promptSuffix := ">"
|}.

End FillExample.

Module HookExample.

Definition quote : string := Str.chr Str.dquote.

(** [{"prompt":"{prompt}"}] *)
Definition template : string :=
  "{" ++ quote ++ "prompt" ++ quote ++ ":" ++ quote ++ "{prompt}" ++ quote ++ "}".

(** [data: {"text":"Hello"}] *)
Definition line : string :=
  "data: {" ++ quote ++ "text" ++ quote ++ ":" ++ quote ++ "Hello" ++ quote ++ "}".

Definition preferences (endpoint inputSchema : string) : Pref.t := {|
  Pref.modelEndpoint := endpoint;
  Pref.authType := "none";
  Pref.apiKey := "";
  Pref.inputSchema := inputSchema;
  Pref.outputKeyPath := "text";
  Pref.outputTiming := "async";
  Pref.lengthLimit := "2500";
  Pref.includeTemperature := false;
  Pref.promptPrefix := "";
  Pref.promptSuffix := ""
|}.

Definition surroundings (endpoint inputSchema : string) (loading : bool) : Env.t := {|
  Env.preferences := preferences endpoint inputSchema;
  Env.models := {| Models.models := []; Models.isLoading := loading |};
  Env.canAccessAI := false
|}.

(** A streaming endpoint of the user's own. *)
Definition streaming : Env.t :=
  surroundings "http://localhost:8080/v1" template false.

(** The same with a template that is no JSON once filled in. *)
Definition broken : Env.t :=
  surroundings "http://localhost:8080/v1" "{prompt}" false.

(** An endpoint that is no URL, with the registry loaded and loading. *)
Definition invalid : Env.t := surroundings "localhost" template false.
Definition invalid_loading : Env.t := surroundings "localhost" template true.

(** No endpoint in the preferences: the managed service. *)
Definition managed : Env.t := surroundings "" "" false.

Definition call (prompt : string) (execute : bool) : Args.t := {|
  Args.basePrompt := "";
  Args.prompt := prompt;
  Args.input := "";
  Args.temperature := "1";
  Args.execute := execute;
  Args.modelOverride := None
|}.

End HookExample.

Module CommandExample.

Definition summarize : Command.t := {|
  Command.name := "Summarize";
  Command.id := "CM" ++ Str.chr Str.dquote ++ "1 " ++ Str.chr "233"%char;
  Command.prompt := Some "Summarize {{input}}"
|}.

Definition translate : Command.t := {|
  Command.name := "Translate";
  Command.id := "CM2";
  Command.prompt := None
|}.

Definition storage : LocalStorage.t :=
  [("Summarize", "{}"); ("--settings", "{}"); ("Translate", "{}")].

End CommandExample.

Module TemperatureExample.

(** A model of the user's own, handed to the hook as its override. *)
Definition model : Model.t := {|
  Model.endpoint := "http://localhost:8080/v1";
  Model.authType := "none";
  Model.apiKey := "";
  Model.inputSchema := HookExample.template;
  Model.outputKeyPath := "text";
  Model.outputTiming := "sync";
  Model.lengthLimit := "2500";
  Model.temperature := "2";
  Model.name := "Local";
  Model.description := "";
  Model.favorited := false;
  Model.id := "LM1";
  Model.icon := "";
  Model.iconColor := "";
  Model.notes := "";
  Model.isDefault := false
|}.

Definition call (prompt : string) : Args.t := {|
  Args.basePrompt := "";
  Args.prompt := prompt;
  Args.input := "";
  Args.temperature := "0";
  Args.execute := true;
  Args.modelOverride := Some model
|}.

End TemperatureExample.

Module StreamExample.

(** Two events of a stream and what stands between them. *)
Definition first : string :=
  "data: {" ++ HookExample.quote ++ "text" ++ HookExample.quote ++ ":" ++
  HookExample.quote ++ "Hel" ++ HookExample.quote ++ "}".

Definition second : string := HookExample.line.

Definition nothing : string :=
  ": ping" ++ Str.chr newline ++ Str.chr newline ++ "data: [DONE]".

(** An event whose fragment has no text:
    [data: {"text":{"toString":1}}] *)
Definition textless : string :=
  "data: {" ++ HookExample.quote ++ "text" ++ HookExample.quote ++ ":{" ++
  HookExample.quote ++ "toString" ++ HookExample.quote ++ ":1}}".

(** The body of an answer given at once: [{"text":"hi"}] *)
Definition answer : string :=
  "{" ++ HookExample.quote ++ "text" ++ HookExample.quote ++ ":" ++
  HookExample.quote ++ "hi" ++ HookExample.quote ++ "}".

End StreamExample.

Module BodyExample.

(** ["name":"text"] *)
Definition field (name text : string) : string :=
  HookExample.quote ++ name ++ HookExample.quote ++ ":" ++
  HookExample.quote ++ text ++ HookExample.quote.

(** [{"a":"x","b":"y","c":"z"}] *)
Definition object (x y z : string) : string :=
  "{" ++ field "a" x ++ "," ++ field "b" y ++ "," ++ field "c" z ++ "}".

(** A template that holds its placeholder three times. *)
Definition thrice : Env.t :=
  HookExample.surroundings "http://localhost:8080/v1"
    (object "{prompt}" "{prompt}" "{prompt}") false.

End BodyExample.

(** * Properties *)


(** ** Facts about strings *)

Module StrFacts.
Import Str.

Lemma startsWith_spec (s t : string) :
  startsWith s t = true <-> exists b, s = t ++ b.
Proof.
  revert s. induction t as [|c t IH]; intros s; simpl.
  - split; [intros _; now exists s | reflexivity].
  - destruct s as [|d s].
    + split; [discriminate | intros [b Hb]; discriminate].
    + rewrite andb_true_iff, Ascii.eqb_eq, IH. split.
      * intros [-> [b ->]]. now exists b.
      * intros [b Hb]. injection Hb as -> ->. split; [reflexivity | now exists b].
Qed.

Lemma startsWith_app (t b : string) : startsWith (t ++ b) t = true.
Proof. apply startsWith_spec. now exists b. Qed.

Lemma includes_spec (s t : string) :
  includes s t = true <-> exists a b, s = a ++ t ++ b.
Proof.
  induction s as [|c s IH].
  - simpl. rewrite orb_false_r, startsWith_spec. split.
    + intros [b Hb]. now exists "", b.
    + intros [a [b Hab]]. destruct a; [now exists b | discriminate].
  - cbn [includes]. rewrite orb_true_iff, startsWith_spec, IH. split.
    + intros [[b Hb] | [a [b Hab]]].
      * now exists "", b.
      * exists (String c a), b. simpl. now rewrite Hab.
    + intros [a [b Hab]]. destruct a as [|d a].
      * left. now exists b.
      * right. simpl in Hab. injection Hab as _ ->. now exists a, b.
Qed.

Lemma append_assoc (a b c : string) : (a ++ b) ++ c = a ++ b ++ c.
Proof. induction a as [|x a IH]; simpl; [reflexivity | now rewrite IH]. Qed.

Lemma append_nil_r (a : string) : a ++ "" = a.
Proof. induction a as [|x a IH]; simpl; [reflexivity | now rewrite IH]. Qed.

End StrFacts.

(** ** Model resolution *)

Section Resolution.

Variable models : Models.t.
Variable preferences : Pref.t.

Lemma defaultModel_unique (d : Model.t) :
  registry_default models d -> defaultModel models = Some d.
Proof.
  intros (Hin & Hd & Huniq). unfold defaultModel.
  destruct (find Model.isDefault (Models.models models)) as [x|] eqn:Hf.
  - apply find_some in Hf as [Hx Hxd]. f_equal. now apply Huniq.
  - exfalso. apply find_none with (x := d) in Hf; [congruence | assumption].
Qed.

Lemma defaultModel_none :
  no_registry_default models -> defaultModel models = None.
Proof.
  intros Hno. unfold defaultModel.
  destruct (find Model.isDefault (Models.models models)) as [x|] eqn:Hf;
    [|reflexivity].
  apply find_some in Hf as [Hx Hxd]. rewrite (Hno x Hx) in Hxd. discriminate.
Qed.

(** Without the registry's promise of a single default, the first model
    marked default is taken. *)
Lemma defaultModel_first (before after : list Model.t) (d : Model.t) :
  Models.models models = (before ++ d :: after)%list ->
  Forall (fun m => Model.isDefault m = false) before ->
  Model.isDefault d = true ->
  defaultModel models = Some d.
Proof.
  intros Hm Hb Hd. unfold defaultModel. rewrite Hm. clear Hm.
  induction Hb as [|m l Hm _ IH]; simpl.
  - now rewrite Hd.
  - now rewrite Hm.
Qed.

(** C3. Whatever override, registry, preferences there are: an override
    that is supplied is the target; without one, the registry's default
    model is, if the registry has one; without that, the model of the
    preferences is, if its endpoint is not empty; otherwise the built-in
    fallback of the managed service is. *)
Theorem resolution_order (modelOverride : option Model.t) :
  (forall m, modelOverride = Some m ->
     targetModel modelOverride models preferences = m) /\
  (forall d, modelOverride = None -> registry_default models d ->
     targetModel modelOverride models preferences = d) /\
  (modelOverride = None -> no_registry_default models ->
     Pref.modelEndpoint preferences <> "" ->
     targetModel modelOverride models preferences = preferenceModel preferences) /\
  (modelOverride = None -> no_registry_default models ->
     Pref.modelEndpoint preferences = "" ->
     targetModel modelOverride models preferences = fallbackModel /\
     Model.endpoint fallbackModel = "Raycast AI").
Proof.
  unfold targetModel. split; [|split; [|split]].
  - now intros m ->.
  - intros d -> Hd. now rewrite (defaultModel_unique d Hd).
  - intros -> Hno Hne. rewrite (defaultModel_none Hno). simpl.
    destruct (Pref.modelEndpoint preferences =? "") eqn:E; [|reflexivity].
    apply String.eqb_eq in E. contradiction.
  - intros -> Hno He. rewrite (defaultModel_none Hno). simpl. now rewrite He.
Qed.

End Resolution.


Lemma resolution_order_witness :
  targetModel (Some (ResolutionExample.custom "https://o.example" false))
    ResolutionExample.registry
    (ResolutionExample.preferences "https://p.example") =
    ResolutionExample.custom "https://o.example" false /\
  targetModel None ResolutionExample.registry
    (ResolutionExample.preferences "https://p.example") =
    ResolutionExample.custom "https://b.example" true /\
  targetModel None ResolutionExample.empty_registry
    (ResolutionExample.preferences "https://p.example") =
    preferenceModel (ResolutionExample.preferences "https://p.example") /\
  targetModel None ResolutionExample.empty_registry
    (ResolutionExample.preferences "") = fallbackModel.
Proof.
  assert (Hno : no_registry_default ResolutionExample.empty_registry).
  { intros m [<- | []]. reflexivity. }
  split; [|split; [|split]].
  - apply (proj1 (resolution_order ResolutionExample.registry
             (ResolutionExample.preferences "https://p.example")
             (Some (ResolutionExample.custom "https://o.example" false)))).
    reflexivity.
  - apply (proj1 (proj2 (resolution_order ResolutionExample.registry
             (ResolutionExample.preferences "https://p.example") None)));
      [reflexivity|].
    split; [|split].
    + simpl. right. now left.
    + reflexivity.
    + intros d' [<- | [<- | []]]; [discriminate | reflexivity].
  - apply (proj1 (proj2 (proj2 (resolution_order ResolutionExample.empty_registry
             (ResolutionExample.preferences "https://p.example") None))));
      [reflexivity | exact Hno | discriminate].
  - apply (proj2 (proj2 (proj2 (resolution_order ResolutionExample.empty_registry
             (ResolutionExample.preferences "") None))));
      [reflexivity | exact Hno | reflexivity].
Defined.

(** ** Outbound headers *)


(** C9, as the claim words it, fails: the type the code answers with the
    dedicated header is spelled [x-api-key], so a model of type [xApiKey]
    is sent without any credential; the key is sent trimmed, not as it is
    stored; and the object of headers holds a third entry, [method]. *)
Lemma headers_counterexample :
  header "X-API-Key" (headers (HeadersExample.secured "xApiKey" "k")) = None /\
  filter is_authorization (headers (HeadersExample.secured "xApiKey" "k")) = [] /\
  header "Authorization" (headers (HeadersExample.secured "apiKey" " k ")) =
    Some "Api-Key k" /\
  "Api-Key k" <> "Api-Key " ++ Model.apiKey (HeadersExample.secured "apiKey" " k ") /\
  map fst (headers (HeadersExample.secured "none" "")) = ["method"; "Content-Type"].
Proof. repeat split; try reflexivity. discriminate. Qed.

(** C9, amended. For every model, and apart from the entry named [method]:
    the headers are [Content-Type: application/json] and at most one
    credential, fixed by the model's [authType] and its trimmed [apiKey]
    alone: [Authorization: Api-Key key] for [apiKey],
    [Authorization: Bearer key] for [bearerToken], [X-API-Key: key] for
    [x-api-key], and none for any other type. *)
Theorem headers_amended (m : Model.t) :
  (forall name, name <> "method" ->
     header name (headers m) =
       if name =? "Content-Type" then Some "application/json"
       else if name =? "Authorization" then
         if Model.authType m =? "apiKey"
         then Some ("Api-Key " ++ Str.trim (Model.apiKey m))
         else if Model.authType m =? "bearerToken"
         then Some ("Bearer " ++ Str.trim (Model.apiKey m))
         else None
       else if name =? "X-API-Key" then
         if Model.authType m =? "x-api-key"
         then Some (Str.trim (Model.apiKey m))
         else None
       else None) /\
  (List.length (filter is_authorization (headers m)) <= 1)%nat /\
  NoDup (map fst (headers m)).
Proof.
  unfold headers. split; [|split].
  - intros name Hname.
    assert (Hm : ("method" =? name) = false).
    { apply String.eqb_neq. congruence. }
    rewrite (String.eqb_sym name "Content-Type"),
            (String.eqb_sym name "Authorization"),
            (String.eqb_sym name "X-API-Key").
    destruct (String.eqb_spec (Model.authType m) "apiKey") as [E1 | E1];
      [rewrite E1
      |destruct (String.eqb_spec (Model.authType m) "bearerToken") as [E2 | E2];
        [rewrite E2
        |destruct (String.eqb_spec (Model.authType m) "x-api-key") as [E3 | E3]]];
      cbn [app header]; rewrite Hm;
      destruct ("Content-Type" =? name) eqn:Hc; try reflexivity;
      destruct ("Authorization" =? name) eqn:Ha; try reflexivity;
      destruct ("X-API-Key" =? name) eqn:Hx; try reflexivity.
    all: apply String.eqb_eq in Ha; apply String.eqb_eq in Hx; congruence.
  - destruct (Model.authType m =? "apiKey"); [simpl; lia|].
    destruct (Model.authType m =? "bearerToken"); [simpl; lia|].
    destruct (Model.authType m =? "x-api-key"); simpl; lia.
  - assert (H2 : NoDup ["method"; "Content-Type"]).
    { repeat constructor; simpl; intuition discriminate. }
    destruct (Model.authType m =? "apiKey");
      [|destruct (Model.authType m =? "bearerToken");
        [|destruct (Model.authType m =? "x-api-key")]];
      simpl; try exact H2;
      repeat constructor; simpl; intuition discriminate.
Qed.

Lemma headers_amended_witness :
  header "X-API-Key" (headers (HeadersExample.secured "x-api-key" " k ")) = Some "k".
Proof.
  apply (proj1 (headers_amended (HeadersExample.secured "x-api-key" " k "))).
  discriminate.
Defined.

(** ** Key paths that follow the grammar *)

Module KeyPathFacts.
Import Str KeyPath Chars Grammar.

Lemma every_app (p : ascii -> bool) (a b : string) :
  every p (a ++ b) = every p a && every p b.
Proof.
  induction a as [|c a IH]; simpl; [reflexivity|]. now rewrite IH, andb_assoc.
Qed.

Lemma every_weaken (p q : ascii -> bool) (s : string) :
  (forall c, p c = true -> q c = true) -> every p s = true -> every q s = true.
Proof.
  intros Hpq. induction s as [|c s IH]; simpl; [reflexivity|].
  rewrite !andb_true_iff. intros [Hc Hs]. auto.
Qed.

Lemma plain_char_facts (c : ascii) :
  plain_char c = true ->
  Ascii.eqb c "."%char = false /\ Ascii.eqb c "["%char = false /\
  Ascii.eqb c "]"%char = false /\ Ascii.eqb c "}"%char = false /\
  is_space c = false.
Proof.
  unfold plain_char. rewrite negb_true_iff, !orb_false_iff. tauto.
Qed.

Lemma cut_last_close_plain (s : string) :
  every plain_char s = true -> cut_last_close (s ++ "]") = Some (s, "").
Proof.
  induction s as [|c s IH]; simpl; [reflexivity|].
  rewrite andb_true_iff. intros [Hc Hs]. now rewrite (IH Hs).
Qed.

Lemma run_no_brace_plain (s : string) :
  every plain_char s = true -> run_no_brace (s ++ "]") = s ++ "]".
Proof.
  induction s as [|c s IH]; simpl; [reflexivity|].
  rewrite andb_true_iff. intros [Hc Hs].
  destruct (plain_char_facts c Hc) as (_ & _ & _ & -> & _). now rewrite (IH Hs).
Qed.

Lemma match_group_plain (i : string) :
  plain i = true ->
  match_group ("[" ++ i ++ "]") = Some (i, String.length i + 2).
Proof.
  unfold plain. rewrite andb_true_iff. intros [Hne Hi].
  destruct i as [|c i]; [discriminate|].
  simpl in Hi. apply andb_true_iff in Hi as [Hc Hi].
  destruct (plain_char_facts c Hc) as (_ & _ & _ & Hb & _).
  cbn [append match_group]. rewrite Hb. simpl.
  rewrite (run_no_brace_plain _ Hi), (cut_last_close_plain _ Hi).
  simpl. do 2 f_equal. lia.
Qed.

Lemma match_group_not_bracket (c : ascii) (s : string) :
  Ascii.eqb c "["%char = false -> match_group (String c s) = None.
Proof. intros H. unfold match_group. destruct s; [reflexivity|]. now rewrite H. Qed.

Lemma split_groups_inside (s piece : string) :
  split_groups (String.length s) piece s = [piece].
Proof. induction s as [|c s IH]; simpl; [reflexivity | apply IH]. Qed.

Lemma split_groups_plain (name piece rest : string) :
  every plain_char name = true ->
  split_groups 0 piece (name ++ rest) = split_groups 0 (piece ++ name) rest.
Proof.
  revert piece. induction name as [|c name IH]; intros piece; cbn [append every split_groups].
  - now rewrite StrFacts.append_nil_r.
  - rewrite andb_true_iff. intros [Hc Hn].
    destruct (plain_char_facts c Hc) as (_ & Hb & _).
    rewrite (match_group_not_bracket _ _ Hb), (IH _ Hn).
    now rewrite StrFacts.append_assoc.
Qed.

Lemma length_append (a b : string) :
  String.length (a ++ b) = String.length a + String.length b.
Proof. induction a as [|c a IH]; simpl; [reflexivity | now rewrite IH]. Qed.

Lemma item_keys (g : segment) :
  plain_segment g = true ->
  filter (fun key => (0 <? String.length key)%nat) (split_groups 0 "" (segment_text g)) =
  segment_keys g.
Proof.
  destruct g as [name [i|]]; unfold plain_segment, segment_text, segment_keys;
    simpl fst; simpl snd.
  - rewrite andb_true_iff. intros [Hn Hi].
    pose proof Hn as Hn'. unfold plain in Hn'. apply andb_true_iff in Hn' as [Hne Hp].
    rewrite (split_groups_plain _ _ _ Hp). simpl append at 1.
    pose proof (match_group_plain _ Hi) as Hm.
    change ("[" ++ i ++ "]") with (String "["%char (i ++ "]")) in *.
    cbn [split_groups]. rewrite Hm.
    replace (String.length i + 2 - 1) with (String.length (i ++ "]"))
      by (rewrite length_append; simpl; lia).
    rewrite split_groups_inside. simpl.
    destruct name; [discriminate|]. simpl.
    unfold plain in Hi. destruct i; [discriminate|]. reflexivity.
  - rewrite andb_true_r. intros Hn. unfold plain in Hn.
    apply andb_true_iff in Hn as [Hne Hp].
    rewrite <- (StrFacts.append_nil_r name) at 1.
    rewrite (split_groups_plain _ _ _ Hp). simpl.
    destruct name; [discriminate | reflexivity].
Qed.

Lemma plain_not_dot (c : ascii) : plain_char c = true -> not_dot c = true.
Proof.
  intros Hc. destruct (plain_char_facts c Hc) as (Hd & _). unfold not_dot. now rewrite Hd.
Qed.

Lemma plain_not_space (c : ascii) : plain_char c = true -> not_space c = true.
Proof.
  intros Hc. destruct (plain_char_facts c Hc) as (_ & _ & _ & _ & Hw).
  unfold not_space. now rewrite Hw.
Qed.

Lemma segment_text_every (p : ascii -> bool) (g : segment) :
  (forall c, plain_char c = true -> p c = true) ->
  p "["%char = true -> p "]"%char = true ->
  plain_segment g = true -> every p (segment_text g) = true.
Proof.
  intros Hp Ho Hc. destruct g as [name oi]. unfold plain_segment, segment_text, plain.
  simpl. rewrite !andb_true_iff. intros [[_ Hn] Hi].
  destruct oi as [i|]; [|now apply (every_weaken plain_char)].
  apply andb_true_iff in Hi as [_ Hi].
  rewrite every_app. cbn [append every]. rewrite every_app. cbn [every].
  rewrite Ho, Hc, (every_weaken plain_char p name Hp Hn),
    (every_weaken plain_char p i Hp Hi).
  reflexivity.
Qed.

Lemma split_not_dot (s : string) :
  every not_dot s = true -> split "."%char s = [s].
Proof.
  induction s as [|c s IH]; simpl; [reflexivity|].
  rewrite andb_true_iff. intros [Hc Hs]. unfold not_dot in Hc.
  apply negb_true_iff in Hc. now rewrite Hc, (IH Hs).
Qed.

Lemma split_dot_app (a b : string) :
  every not_dot a = true ->
  split "."%char (a ++ "." ++ b) = a :: split "."%char b.
Proof.
  change ("." ++ b) with (String "."%char b).
  induction a as [|c a IH]; simpl; [reflexivity|].
  rewrite andb_true_iff. intros [Hc Ha]. unfold not_dot in Hc.
  apply negb_true_iff in Hc. now rewrite Hc, (IH Ha).
Qed.

Lemma split_path_text (gs : list segment) :
  gs <> [] -> forallb plain_segment gs = true ->
  split "."%char (path_text gs) = map segment_text gs.
Proof.
  induction gs as [|g rest IH]; [congruence|]. intros _ Hall.
  simpl in Hall. apply andb_true_iff in Hall as [Hg Hrest].
  assert (Hd : every not_dot (segment_text g) = true).
  { apply segment_text_every; auto using plain_not_dot. }
  destruct rest as [|g' rest].
  - simpl. now apply split_not_dot.
  - change (path_text (g :: g' :: rest))
      with (segment_text g ++ "." ++ path_text (g' :: rest)).
    rewrite (split_dot_app _ _ Hd), IH; [reflexivity | congruence | assumption].
Qed.

Lemma path_text_not_space (gs : list segment) :
  forallb plain_segment gs = true -> every not_space (path_text gs) = true.
Proof.
  induction gs as [|g rest IH]; [reflexivity|]. intros Hall.
  simpl in Hall. apply andb_true_iff in Hall as [Hg Hrest].
  assert (Hs : every not_space (segment_text g) = true).
  { apply segment_text_every; auto using plain_not_space. }
  destruct rest as [|g' rest]; [exact Hs|].
  change (path_text (g :: g' :: rest))
    with (segment_text g ++ "." ++ path_text (g' :: rest)).
  rewrite !every_app, Hs, (IH Hrest). reflexivity.
Qed.

Lemma trim_not_space (s : string) : every not_space s = true -> trim s = s.
Proof.
  intros H. unfold trim.
  assert (Hstart : trimStart s = s).
  { destruct s as [|c s]; [reflexivity|]. simpl in *.
    apply andb_true_iff in H as [Hc _]. unfold not_space in Hc.
    apply negb_true_iff in Hc. now rewrite Hc. }
  rewrite Hstart. induction s as [|c s IH]; simpl; [reflexivity|].
  simpl in H. apply andb_true_iff in H as [Hc Hs]. unfold not_space in Hc.
  apply negb_true_iff in Hc. rewrite Hc. simpl. f_equal. apply IH; [assumption|].
  destruct s as [|d s]; [reflexivity|]. simpl in *.
  apply andb_true_iff in Hs as [Hd _]. unfold not_space in Hd.
  apply negb_true_iff in Hd. now rewrite Hd.
Qed.

(** A path written by the grammar (plain names joined by dots, each with at
    most one bracketed plain sub-segment) splits into its names and
    sub-segments, in order. *)
Lemma keys_path_text (gs : list segment) :
  gs <> [] -> forallb plain_segment gs = true ->
  keys (path_text gs) = flat_map segment_keys gs.
Proof.
  intros Hne Hall. unfold keys.
  rewrite (trim_not_space _ (path_text_not_space _ Hall)).
  rewrite (split_path_text _ Hne Hall). clear Hne.
  induction gs as [|g rest IH]; [reflexivity|].
  simpl in Hall. apply andb_true_iff in Hall as [Hg Hrest].
  simpl. now rewrite (item_keys _ Hg), (IH Hrest).
Qed.

End KeyPathFacts.

(** ** The key-path extractor *)

Section Extractor.

Variable number : Type.
Context {R : Runtime number}.

Local Abbreviation value := (value number).

Lemma truthy_not_nullish (v : value) : truthy v = true -> nullish v = false.
Proof. destruct v; simpl; congruence. Qed.

Lemma present_not_nullish (v x : value) (key : string) :
  present v key = Some x -> nullish v = false.
Proof. destruct v; simpl; congruence. Qed.

Lemma get_member_present (v x : value) (key : string) :
  present v key = Some x -> get_member v key = Ret x.
Proof.
  unfold get_member, member, present.
  destruct v; try discriminate; destruct (own _ key) as [y|];
    try (now intros [= ->]);
    destruct (builtin_member _ key) as [[y|e]|]; try discriminate;
    now intros [= ->].
Qed.

Lemma get_member_absent (v : value) (key : string) :
  nullish v = false -> absent v key -> get_member v key = Ret VUndef.
Proof.
  intros Hv [Ho Hb]. unfold get_member, member.
  destruct v; try discriminate; now rewrite Ho, Hb.
Qed.

Lemma get_member_throws (v : value) (key : string) (e : exn) :
  nullish v = false -> own v key = None -> builtin_member v key = Some (Throw e) ->
  get_member v key = Throw e.
Proof.
  intros Hv Ho Hb. unfold get_member, member.
  destruct v; try discriminate; now rewrite Ho, Hb.
Qed.

Lemma walks_not_nullish (v w : value) (path : list string) :
  walks v path w -> nullish v = false -> nullish w = false.
Proof.
  induction 1 as [v | v x w key path Hp Ht _ IH]; intros Hv; [assumption|].
  apply IH. now apply truthy_not_nullish.
Qed.

(** The loop follows a walk. *)
Lemma walk_along (v w : value) (path rest : list string) (def : option string) :
  walks v path w -> walk v (path ++ rest)%list def = walk w rest def.
Proof.
  induction 1 as [v | v x w key path Hp Ht _ IH]; [reflexivity|].
  cbn [app walk]. rewrite (get_member_present v x key Hp), Ht.
  exact IH.
Qed.

(** The loop gives up where a walk stops. *)
Lemma walk_stops (v : value) (key : string) (rest : list string) (def : option string) :
  nullish v = false -> stops v key ->
  walk v (key :: rest) def = Ret (of_default def).
Proof.
  intros Hv Hs. cbn [walk].
  destruct Hs as [Ha | (x & Hp & Hx)].
  - now rewrite (get_member_absent v key Hv Ha).
  - now rewrite (get_member_present v x key Hp), Hx.
Qed.

Lemma typeof_object_not_undefined (v : value) :
  typeof v = "object" -> v <> VNull -> nullish v = false.
Proof. destruct v; simpl; congruence. Qed.

Lemma get_on_object (obj : value) (pathString : string) (def : option string) :
  typeof obj = "object" ->
  get obj pathString def = walk obj (KeyPath.keys pathString) def.
Proof. intros H. unfold get. now rewrite H. Qed.

(** C4, amended. For every value, path and default:
    - a root whose type is not [object] is returned as it is;
    - on a root of type [object] the extractor returns the value reached
      when every key of the path, read in turn, is present with a truthy
      value, where a key is present on a value that holds it as data or
      has it from the runtime (an inherited member);
    - on an object or array (not [null]) it returns the default at the
      first key that is absent, being neither in the data of the value nor
      had from the runtime, or that is present with a falsy value;
    - a path written as plain names joined by dots, each with at most one
      bracketed plain sub-segment, has these names and sub-segments as its
      keys;
    - [choices[0].text] on an object whose [choices] is the empty array
      gives the default, when arrays carry no built-in member [0]. *)
Theorem get_amended (obj : value) (pathString : string) (def : option string) :
  (typeof obj <> "object" -> get obj pathString def = Ret obj) /\
  (typeof obj = "object" ->
     forall w, walks obj (KeyPath.keys pathString) w ->
     get obj pathString def = Ret w) /\
  (typeof obj = "object" -> obj <> VNull ->
     forall before key after c,
     KeyPath.keys pathString = (before ++ key :: after)%list ->
     walks obj before c -> stops c key ->
     get obj pathString def = Ret (of_default def)) /\
  (forall gs, gs <> [] -> forallb Grammar.plain_segment gs = true ->
     KeyPath.keys (Grammar.path_text gs) =
     flat_map Grammar.segment_keys gs) /\
  (builtin_member (VArr []) "0" = None ->
     get (VObj [("choices", VArr [])]) "choices[0].text" def = Ret (of_default def)).
Proof.
  split; [|split; [|split; [|split]]].
  - intros Ht. unfold get.
    destruct (String.eqb_spec (typeof obj) "object"); [contradiction | reflexivity].
  - intros Ht w Hw. rewrite (get_on_object _ _ _ Ht).
    rewrite <- (app_nil_r (KeyPath.keys pathString)).
    now rewrite (walk_along _ _ _ [] def Hw).
  - intros Ht Hn before key after c Hk Hw Hs.
    rewrite (get_on_object _ _ _ Ht), Hk, (walk_along _ _ _ (key :: after) def Hw).
    apply walk_stops; [|assumption].
    apply (walks_not_nullish _ _ _ Hw). now apply typeof_object_not_undefined.
  - apply KeyPathFacts.keys_path_text.
  - intros Hb. unfold get. simpl typeof. cbn [String.eqb Ascii.eqb Bool.eqb].
    change (KeyPath.keys "choices[0].text") with ["choices"; "0"; "text"].
    cbn [walk get_member member own assoc String.eqb Ascii.eqb Bool.eqb truthy].
    assert (Hm : member (VArr []) "0" = Ret VUndef :> completion value).
    { unfold member, own. change (KeyPath.array_index "0") with (Some 0).
      cbn [nth_error]. now rewrite Hb. }
    now rewrite Hm.
Qed.

(** C10. For every root of type [object] and every path: when the walk
    arrives at a key that the document does hold, and the value held is
    falsy (the empty string, a zero, [false] or [null]), the extractor
    returns the default, as it does for a key that is missing: each step
    tests the value, not the presence of the key. *)
Theorem get_falsy_is_missing (obj : value) (pathString : string) (def : option string)
  (before after : list string) (key : string) (c x : value) :
  typeof obj = "object" ->
  KeyPath.keys pathString = (before ++ key :: after)%list ->
  walks obj before c ->
  own c key = Some x ->
  truthy x = false ->
  get obj pathString def = Ret (of_default def) /\
  (forall missing, own c missing = None -> builtin_member c missing = None ->
     walk c (missing :: after) def = walk c (key :: after) def) /\
  truthy (VStr "" : value) = false /\
  truthy (VBool false : value) = false /\
  truthy (VNull : value) = false /\
  (forall n, num_truthy n = false -> truthy (VNum n) = false).
Proof.
  intros Ht Hk Hw Ho Hx.
  assert (Hc : nullish c = false) by (destruct c; simpl in *; congruence).
  assert (Hp : present c key = Some x).
  { unfold present. destruct c; try discriminate; now rewrite Ho. }
  assert (Hs : walk c (key :: after) def = Ret (of_default def)).
  { apply walk_stops; [assumption|]. right. now exists x. }
  split; [|split; [|repeat split]].
  - now rewrite (get_on_object _ _ _ Ht), Hk, (walk_along _ _ _ (key :: after) def Hw).
  - intros missing Hm Hb. rewrite Hs. apply walk_stops; [assumption|].
    left. now split.
  - intros n Hn. exact Hn.
Qed.

(** X3. On the root [null] the first step of the loop throws:
    [typeof null] is [object] too. *)
Lemma get_null_root_throws (pathString : string) (def : option string) :
  KeyPath.keys pathString <> [] ->
  get (VNull : value) pathString def = Throw TypeError.
Proof.
  intros Hk. unfold get. cbn [typeof]. change ("object" =? "object") with true.
  destruct (KeyPath.keys pathString) as [|key rest]; [congruence | reflexivity].
Qed.

(** X24. The extractor throws what a read throws: when the walk has come
    to a value that does not hold the next key as data and has it from the
    runtime as an accessor that throws (as a function of the runtime has
    [caller] and [arguments]), the extractor throws the accessor's error
    and no default is returned. *)
Theorem get_accessor_throws (obj : value) (pathString : string) (def : option string)
  (before after : list string) (key : string) (c : value) (e : exn) :
  typeof obj = "object" ->
  KeyPath.keys pathString = (before ++ key :: after)%list ->
  walks obj before c ->
  nullish c = false ->
  own c key = None ->
  builtin_member c key = Some (Throw e) ->
  get obj pathString def = Throw e.
Proof.
  intros Ht Hk Hw Hc Ho Hb.
  rewrite (get_on_object _ _ _ Ht), Hk, (walk_along _ _ _ (key :: after) def Hw).
  cbn [walk]. now rewrite (get_member_throws c key e Hc Ho Hb).
Qed.

End Extractor.

(** C4, as the claim words it, fails: a root that is not an object is
    handed back as it is, whatever the path, and not replaced by the
    default. *)
Lemma get_counterexample :
  get (R := Sample.runtime) (VStr "hello") "a.b" (Some "none") = Ret (VStr "hello") /\
  get (R := Sample.runtime) (VStr "hello") "a.b" (Some "none") <> Ret (VStr "none").
Proof. split; [reflexivity | discriminate]. Qed.


Lemma get_amended_witness :
  get (R := Sample.runtime) (VNum 5%Z) "a" (Some "none") = Ret (VNum 5%Z) /\
  get (R := Sample.runtime) ExtractorExample.answered "choices[0].text" (Some "none") =
    Ret (VStr "hi") /\
  get (R := Sample.runtime) ExtractorExample.unanswered "choices[0].text" (Some "none") =
    Ret (VStr "none") /\
  get (R := Sample.runtime) ExtractorExample.unanswered "choices.length" (Some "none") =
    Ret (VStr "none") /\
  get (R := Sample.runtime) ExtractorExample.unanswered "choices.constructor" (Some "none") =
    Ret (Sample.native "Array").
Proof.
  split; [|split; [|split; [|split]]].
  - apply (proj1 (@get_amended Z Sample.runtime (VNum 5%Z) "a" (Some "none"))).
    discriminate.
  - apply (proj1 (proj2
      (@get_amended Z Sample.runtime ExtractorExample.answered "choices[0].text"
         (Some "none"))));
      [reflexivity|].
    apply walks_step with (x := VArr [VObj [("text", VStr "hi")]]);
      [reflexivity | reflexivity |].
    apply walks_step with (x := VObj [("text", VStr "hi")]);
      [reflexivity | reflexivity |].
    apply walks_step with (x := VStr "hi"); [reflexivity | reflexivity |].
    apply walks_here.
  - apply (proj1 (proj2 (proj2
      (@get_amended Z Sample.runtime ExtractorExample.unanswered "choices[0].text"
         (Some "none")))))
      with (before := ["choices"]) (key := "0") (after := ["text"]) (c := VArr []);
      [reflexivity | discriminate | reflexivity | | left; split; reflexivity].
    apply walks_step with (x := VArr []); [reflexivity | reflexivity |].
    apply walks_here.
  - apply (proj1 (proj2 (proj2
      (@get_amended Z Sample.runtime ExtractorExample.unanswered "choices.length"
         (Some "none")))))
      with (before := ["choices"]) (key := "length") (after := []) (c := VArr []);
      [reflexivity | discriminate | reflexivity | |
       right; exists (VNum 0%Z); split; reflexivity].
    apply walks_step with (x := VArr []); [reflexivity | reflexivity |].
    apply walks_here.
  - apply (proj1 (proj2
      (@get_amended Z Sample.runtime ExtractorExample.unanswered "choices.constructor"
         (Some "none"))));
      [reflexivity|].
    apply walks_step with (x := VArr []); [reflexivity | reflexivity |].
    apply walks_step with (x := Sample.native "Array"); [reflexivity | reflexivity |].
    apply walks_here.
Defined.

Lemma get_falsy_is_missing_witness :
  get (R := Sample.runtime) ExtractorExample.counted "usage.tokens" (Some "none") =
    Ret (VStr "none").
Proof.
  apply (proj1
    (@get_falsy_is_missing Z Sample.runtime ExtractorExample.counted "usage.tokens"
       (Some "none") ["usage"] [] "tokens"
       (VObj [("tokens", VNum 0%Z); ("model", VStr "m")]) (VNum 0%Z)
       eq_refl eq_refl
       (@walks_step Z Sample.runtime ExtractorExample.counted
          (VObj [("tokens", VNum 0%Z); ("model", VStr "m")])
          (VObj [("tokens", VNum 0%Z); ("model", VStr "m")]) "usage" []
          eq_refl eq_refl (@walks_here Z Sample.runtime _))
       eq_refl eq_refl)).
Defined.

Lemma get_null_root_throws_witness :
  get (R := Sample.runtime) VNull "choices[0].text" (Some "none") = Throw TypeError.
Proof.
  apply (@get_null_root_throws Z Sample.runtime "choices[0].text" (Some "none")).
  discriminate.
Defined.

Lemma get_accessor_throws_witness :
  get (R := Sample.runtime) (VObj []) "constructor.caller" (Some "none") =
  Throw TypeError.
Proof.
  apply (@get_accessor_throws Z Sample.runtime (VObj []) "constructor.caller"
           (Some "none") ["constructor"] [] "caller" (Sample.native "Object") TypeError
           eq_refl eq_refl
           (@walks_step Z Sample.runtime (VObj []) (Sample.native "Object")
              (Sample.native "Object") "constructor" [] eq_refl eq_refl
              (@walks_here Z Sample.runtime _))
           eq_refl eq_refl eq_refl).
Defined.

(** ** Template substitution *)

Module ReplaceFacts.
Import Str Chars Replaced.

Lemma skip_app (p b : string) : skip (String.length p) (p ++ b) = b.
Proof. induction p as [|c p IH]; simpl; [now destruct b | exact IH]. Qed.

Lemma cut_some (pat s a b : string) :
  cut pat s = Some (a, b) -> first_at pat s a b.
Proof.
  revert a b. induction s as [|c s IH]; intros a b.
  - cbn [cut]. destruct (startsWith "" pat) eqn:Hs; [|discriminate].
    intros [= <- <-]. apply StrFacts.startsWith_spec in Hs as [b Hb].
    destruct pat; [|discriminate]. split; [reflexivity | intros; simpl; lia].
  - cbn [cut]. destruct (startsWith (String c s) pat) eqn:Hs.
    + intros [= <- <-]. apply StrFacts.startsWith_spec in Hs as [b Hb].
      split; [|intros; simpl; lia].
      rewrite Hb at 2. now rewrite skip_app.
    + destruct (cut pat s) as [[a0 b0]|] eqn:Hc; [|discriminate].
      intros [= <- <-]. destruct (IH a0 b0 eq_refl) as [Heq Hmin]. split.
      * simpl. now rewrite <- Heq.
      * intros a' b' H'. destruct a' as [|d a'].
        -- simpl in H'. rewrite H', StrFacts.startsWith_app in Hs. discriminate.
        -- simpl in H'. injection H' as _ H'. simpl. apply le_n_S. eauto.
Qed.

Lemma cut_none (pat s : string) : cut pat s = None -> ~ occurs pat s.
Proof.
  induction s as [|c s IH]; cbn [cut].
  - destruct (startsWith "" pat) eqn:Hs; [discriminate|]. intros _ (a & b & H).
    destruct a; [|discriminate]. simpl in H.
    rewrite H, StrFacts.startsWith_app in Hs. discriminate.
  - destruct (startsWith (String c s) pat) eqn:Hs; [discriminate|].
    destruct (cut pat s) as [[a0 b0]|]; [discriminate|]. intros _ (a & b & H).
    destruct a as [|d a].
    + simpl in H. rewrite H, StrFacts.startsWith_app in Hs. discriminate.
    + simpl in H. injection H as _ H. apply IH; [reflexivity | now exists a, b].
Qed.

Lemma replace_first (s pat repl : string) :
  first_replaced pat repl s (replace s pat repl).
Proof.
  unfold replace. destruct (cut pat s) as [[a b]|] eqn:Hc.
  - right. exists a, b. split; [now apply cut_some | reflexivity].
  - left. split; [now apply cut_none | reflexivity].
Qed.

(** A replacement without a dollar sign is inserted as it is. *)
Lemma expand_plain (repl a pat b : string) :
  Chars.every not_dollar repl = true -> expand repl a pat b = repl.
Proof.
  induction repl as [|c r IH]; cbn [expand Chars.every]; [reflexivity|].
  rewrite andb_true_iff. intros [Hc Hr]. unfold not_dollar in Hc.
  apply negb_true_iff in Hc. now rewrite Hc, (IH Hr).
Qed.

(** *** Sanitizing *)

Lemma collapse_word (w rest : string) (in_run : bool) :
  Chars.every Chars.not_space w = true -> w <> "" ->
  collapse_from in_run (w ++ rest) = w ++ collapse_from false rest.
Proof.
  revert in_run. induction w as [|c w IH]; intros in_run Hw Hne; [congruence|].
  cbn [Chars.every] in Hw. apply andb_true_iff in Hw as [Hc Hw].
  unfold Chars.not_space in Hc. apply negb_true_iff in Hc.
  cbn [append collapse_from]. rewrite Hc. f_equal.
  destruct w as [|d w]; [reflexivity|]. now apply IH.
Qed.

Lemma collapse_run (r rest : string) :
  Chars.every is_space r = true -> starts_word rest = true ->
  collapse_from true (r ++ rest) = collapse_from false rest.
Proof.
  intros Hr Hrest. induction r as [|c r IH].
  - destruct rest as [|d rest]; [reflexivity|]. simpl in *.
    apply negb_true_iff in Hrest. now rewrite Hrest.
  - cbn [Chars.every] in Hr. apply andb_true_iff in Hr as [Hc Hr].
    cbn [append collapse_from]. rewrite Hc. now apply IH.
Qed.

(** A run of white space between a word and what follows it becomes one
    space. *)
Lemma collapse_spaces_run (w r rest : string) :
  Chars.every Chars.not_space w = true ->
  Chars.every is_space r = true -> r <> "" ->
  starts_word rest = true ->
  collapse_spaces (w ++ r ++ rest) = w ++ " " ++ collapse_spaces rest.
Proof.
  intros Hw Hr Hne Hrest. unfold collapse_spaces.
  assert (Hrun : collapse_from false (r ++ rest) = " " ++ collapse_from false rest).
  { destruct r as [|c r]; [congruence|].
    cbn [Chars.every] in Hr. apply andb_true_iff in Hr as [Hc Hr].
    cbn [append collapse_from]. rewrite Hc. f_equal. now apply collapse_run. }
  destruct w as [|c w]; [exact Hrun|].
  rewrite collapse_word by (assumption || discriminate). now rewrite Hrun.
Qed.

Lemma collapse_spaces_word (w : string) :
  Chars.every Chars.not_space w = true -> collapse_spaces w = w.
Proof.
  intros Hw. unfold collapse_spaces. destruct w as [|c w]; [reflexivity|].
  rewrite <- (StrFacts.append_nil_r (String c w)) at 1.
  rewrite collapse_word by (assumption || discriminate).
  simpl. now rewrite StrFacts.append_nil_r.
Qed.

(** After collapsing, the only white space left is the plain space, and
    never two in a row. *)
Lemma collapse_from_only_spaces (s : string) (in_run : bool) :
  Chars.every space_or_not_space (collapse_from in_run s) = true.
Proof.
  revert in_run. induction s as [|c s IH]; intros in_run; [reflexivity|].
  cbn [collapse_from]. destruct (is_space c) eqn:Hc.
  - destruct in_run; [apply IH|]. cbn [Chars.every]. now rewrite IH.
  - cbn [Chars.every]. unfold space_or_not_space at 1. now rewrite Hc, IH.
Qed.

Lemma collapse_from_single_spaced (s : string) (in_run : bool) :
  single_spaced in_run (collapse_from in_run s) = true.
Proof.
  revert in_run. induction s as [|c s IH]; intros in_run; [reflexivity|].
  cbn [collapse_from]. destruct (is_space c) eqn:Hc.
  - destruct in_run; [apply IH|]. cbn [single_spaced].
    change (is_space " "%char) with true. cbn. apply IH.
  - cbn [single_spaced]. rewrite Hc. apply IH.
Qed.

Lemma escape_quotes_app (a b : string) :
  escape_quotes (a ++ b) = escape_quotes a ++ escape_quotes b.
Proof.
  induction a as [|c a IH]; [reflexivity|]. cbn [append escape_quotes].
  rewrite IH. now destruct (Ascii.eqb c dquote).
Qed.

Lemma escape_quotes_plain (s : string) :
  Chars.every not_quote s = true -> escape_quotes s = s.
Proof.
  induction s as [|c s IH]; cbn [escape_quotes Chars.every]; [reflexivity|].
  rewrite andb_true_iff. intros [Hc Hs]. unfold not_quote in Hc.
  apply negb_true_iff in Hc. now rewrite Hc, (IH Hs).
Qed.

Lemma escape_quotes_escaped (s : string) (after_backslash : bool) :
  quotes_escaped after_backslash (escape_quotes s) = true.
Proof.
  revert after_backslash. induction s as [|c s IH]; intros ab; [reflexivity|].
  cbn [escape_quotes]. destruct (Ascii.eqb c dquote) eqn:Hc.
  - cbn [quotes_escaped]. change (Ascii.eqb backslash dquote) with false.
    change (Ascii.eqb backslash backslash) with true.
    change (Ascii.eqb dquote backslash) with false. cbn. apply IH.
  - cbn [quotes_escaped]. rewrite Hc. cbn. apply IH.
Qed.

End ReplaceFacts.


Section FillFacts.

Import Chars Replaced ReplaceFacts.

Variable number : Type.
Context {R : Runtime number}.

Variable preferences : Pref.t.
Variables schema basePrompt prompt input : string.

Lemma every_collapse_from (p : ascii -> bool) (s : string) (in_run : bool) :
  p " "%char = true -> Chars.every p s = true ->
  Chars.every p (Str.collapse_from in_run s) = true.
Proof.
  intros Hsp. revert in_run.
  induction s as [|c s IH]; intros in_run; cbn [Str.collapse_from Chars.every];
    [reflexivity|].
  rewrite andb_true_iff. intros [Hc Hs].
  destruct (Str.is_space c); [destruct in_run|]; cbn [Chars.every];
    rewrite ?Hsp, ?Hc, IH; auto.
Qed.

Lemma every_escape_quotes (p : ascii -> bool) (s : string) :
  p Str.backslash = true -> Chars.every p s = true ->
  Chars.every p (Str.escape_quotes s) = true.
Proof.
  intros Hb. induction s as [|c s IH]; cbn [Str.escape_quotes Chars.every];
    [reflexivity|].
  rewrite andb_true_iff. intros [Hc Hs].
  destruct (Ascii.eqb c Str.dquote) eqn:E; cbn [Chars.every].
  - apply Ascii.eqb_eq in E. subst c. now rewrite Hb, Hc, IH.
  - now rewrite Hc, IH.
Qed.

Lemma sanitize_no_dollar (s : string) :
  Chars.every not_dollar s = true ->
  Chars.every not_dollar (sanitize s) = true.
Proof.
  intros H. unfold sanitize, Str.collapse_spaces.
  apply every_escape_quotes; [reflexivity|].
  now apply every_collapse_from.
Qed.

(** X26. The chain of three [replace] calls, for every text it is applied
    to, preferences and fragments: the first occurrence of [{prompt}] gives
    way to prefix, sanitized prompt and suffix; then, in the text so made,
    the first occurrence of [{basePrompt}] to prefix and sanitized base
    prompt; then the first occurrence of [{input}] to sanitized input and
    suffix, or to the empty string when the model's template contains
    [{prompt] and the prompt equals the input. A replacement without a
    dollar sign is inserted as it is, and the fragments have none when
    prefix, suffix, prompts and input have none. Sanitizing turns every run
    of white space into a single space and puts a backslash before every
    double quote. The chain is applied to the template before it is parsed,
    and once more to the parsed template, serialised, to give the body of
    the request. *)
Theorem fill_replace_chain (text : string) :
  (exists s1 s2,
     first_replaced "{prompt}" (promptPart preferences prompt) text s1 /\
     first_replaced "{basePrompt}" (basePromptPart preferences basePrompt) s1 s2 /\
     first_replaced "{input}" (inputPart preferences schema prompt input) s2
       (fill preferences schema basePrompt prompt input text)) /\
  (forall repl a pat b,
     Chars.every not_dollar repl = true -> Str.expand repl a pat b = repl) /\
  (Chars.every not_dollar (Pref.promptPrefix preferences) = true ->
   Chars.every not_dollar (Pref.promptSuffix preferences) = true ->
   Chars.every not_dollar basePrompt = true ->
   Chars.every not_dollar prompt = true ->
   Chars.every not_dollar input = true ->
   Chars.every not_dollar (promptPart preferences prompt) = true /\
   Chars.every not_dollar (basePromptPart preferences basePrompt) = true /\
   Chars.every not_dollar (inputPart preferences schema prompt input) = true) /\
  promptPart preferences prompt =
    Pref.promptPrefix preferences ++ sanitize prompt ++ Pref.promptSuffix preferences /\
  basePromptPart preferences basePrompt =
    Pref.promptPrefix preferences ++ sanitize basePrompt /\
  ((exists a b, schema = a ++ "{prompt" ++ b) -> prompt = input ->
     inputPart preferences schema prompt input = "") /\
  ((~ (exists a b, schema = a ++ "{prompt" ++ b) \/ prompt <> input) ->
     inputPart preferences schema prompt input =
       sanitize input ++ Pref.promptSuffix preferences) /\
  (forall s, sanitize s = Str.escape_quotes (Str.collapse_spaces s)) /\
  (forall w r rest,
     Chars.every Chars.not_space w = true ->
     Chars.every Str.is_space r = true -> r <> "" ->
     starts_word rest = true ->
     Str.collapse_spaces (w ++ r ++ rest) = w ++ " " ++ Str.collapse_spaces rest) /\
  (forall w, Chars.every Chars.not_space w = true ->
     Str.collapse_spaces w = w) /\
  (forall s, single_spaced false (Str.collapse_spaces s) = true /\
     Chars.every space_or_not_space (Str.collapse_spaces s) = true) /\
  (forall a b, Str.escape_quotes (a ++ b) = Str.escape_quotes a ++ Str.escape_quotes b) /\
  Str.escape_quotes (Str.chr Str.dquote) = String Str.backslash (Str.chr Str.dquote) /\
  (forall s, Chars.every not_quote s = true -> Str.escape_quotes s = s) /\
  (forall s, quotes_escaped false (Str.escape_quotes s) = true) /\
  (forall (e : Env.t) (a : Args.t),
     filledSchema e a =
       fill (Env.preferences e) (Model.inputSchema (target e a))
         (Args.basePrompt a) (Args.prompt a) (Args.input a)
         (Model.inputSchema (target e a))) /\
  (forall (e : Env.t) (a : Args.t) (parsed : value number),
     requestBody e a parsed =
       fill (Env.preferences e) (Model.inputSchema (target e a))
         (Args.basePrompt a) (Args.prompt a) (Args.input a)
         (JSON_stringify parsed)).
Proof.
  split.
  { eexists _, _. unfold fill. repeat split; apply replace_first. }
  split; [exact expand_plain|].
  split.
  { intros Hp Hs Hb Hpr Hi. unfold promptPart, basePromptPart, inputPart.
    repeat split.
    - rewrite !KeyPathFacts.every_app, Hp, Hs, (sanitize_no_dollar _ Hpr). reflexivity.
    - rewrite !KeyPathFacts.every_app, Hp, (sanitize_no_dollar _ Hb). reflexivity.
    - destruct (_ && _); [reflexivity|].
      rewrite !KeyPathFacts.every_app, Hs, (sanitize_no_dollar _ Hi). reflexivity. }
  split; [reflexivity|]. split; [reflexivity|].
  split.
  { intros Hin ->. unfold inputPart.
    apply StrFacts.includes_spec in Hin. now rewrite Hin, String.eqb_refl. }
  split.
  { intros H. unfold inputPart.
    destruct (Str.includes schema "{prompt") eqn:Hin; [|reflexivity].
    destruct (String.eqb_spec prompt input) as [He | Hne]; [|reflexivity].
    destruct H as [H | H]; [|contradiction].
    exfalso. apply H. now apply StrFacts.includes_spec. }
  split; [reflexivity|].
  split; [exact collapse_spaces_run|].
  split; [exact collapse_spaces_word|].
  split.
  { intros s. split; [apply collapse_from_single_spaced | apply collapse_from_only_spaces]. }
  split; [exact escape_quotes_app|].
  split; [reflexivity|].
  split; [exact escape_quotes_plain|].
  split; [intros s; apply escape_quotes_escaped|].
  split; reflexivity.
Qed.

End FillFacts.

Lemma fill_replace_chain_witness :
  inputPart FillExample.wrapped "{prompt}" "same text" "same text" = "" /\
  inputPart FillExample.wrapped "{input}" "same text" "same text" = "same text>" /\
  Str.collapse_spaces ("two" ++ "   " ++ "words") = "two words" /\
  Str.expand "plain" "a" "{prompt}" "b" = "plain".
Proof.
  pose proof (@fill_replace_chain Z Sample.runtime FillExample.wrapped "{prompt}" ""
                "same text" "same text" "")
    as (_ & Hx & _ & _ & _ & Hsame & _ & _ & Hrun & _).
  pose proof (@fill_replace_chain Z Sample.runtime FillExample.wrapped "{input}" ""
                "same text" "same text" "")
    as (_ & _ & _ & _ & _ & _ & Hother & _).
  split; [|split; [|split]].
  - apply Hsame; [now exists "", "}" | reflexivity].
  - apply Hother. left. intros (a & b & H).
    assert (Hi : Str.includes "{input}" "{prompt" = true)
      by (apply StrFacts.includes_spec; now exists a, b).
    discriminate Hi.
  - apply Hrun; [reflexivity | reflexivity | discriminate | reflexivity].
  - apply Hx. reflexivity.
Defined.

(** ** The life of a mounted hook *)

Section Machine.

Variable number : Type.
Context {R : Runtime number}.

Local Abbreviation state := (state number).

Lemma grows_refl (q : request) : grows q q.
Proof. unfold grows. tauto. Qed.

Lemma grows_trans (q1 q2 q3 : request) : grows q1 q2 -> grows q2 q3 -> grows q1 q3.
Proof.
  unfold grows. intros (S1 & T1 & C1 & R1) (S2 & T2 & C2 & R2).
  repeat split; try congruence; auto.
Qed.

Lemma grows_doomed (q q' : request) : grows q q' -> doomed q -> doomed q'.
Proof.
  unfold grows, doomed, live. intros (Hs & _ & Hc & Hr) [Hd | [Hp Hin]].
  - left. rewrite Hs. destruct (q_status q); [| |reflexivity];
      apply negb_false_iff in Hd; now rewrite (Hc Hd).
  - right. split; [congruence | auto].
Qed.

Lemma keeps_refl (s : state) : keeps s s.
Proof.
  unfold keeps. repeat split; try reflexivity.
  intros i q' H. exists q'. split; [assumption | apply grows_refl].
Qed.

Lemma keeps_trans (s1 s2 s3 : state) : keeps s1 s2 -> keeps s2 s3 -> keeps s1 s3.
Proof.
  unfold keeps. intros (A1 & E1 & D1 & L1 & Q1) (A2 & E2 & D2 & L2 & Q2).
  repeat split; try congruence.
  intros i q3 H3. destruct (Q2 i q3 H3) as (q2 & H2 & G2).
  destruct (Q1 i q2 H2) as (q1 & H1 & G1).
  exists q1. split; [assumption | now apply grows_trans with q2].
Qed.

Lemma change_length (id : nat) (f : request -> request) (qs : list request) :
  List.length (change id f qs) = List.length qs.
Proof.
  revert id. induction qs as [|q qs IH]; intros [|id]; simpl; auto.
Qed.

Lemma nth_error_change (id i : nat) (f : request -> request) (qs : list request) :
  nth_error (change id f qs) i =
  if (i =? id)%nat then option_map f (nth_error qs i) else nth_error qs i.
Proof.
  revert id i. induction qs as [|q qs IH]; intros [|id] [|i]; simpl;
    try reflexivity; try apply IH; now destruct (_ =? _)%nat.
Qed.

Lemma keeps_same_requests (s s' : state) :
  AIRef s' = AIRef s -> error s' = error s -> deps s' = deps s ->
  requests s' = requests s -> keeps s s'.
Proof.
  intros A E D Q. unfold keeps. rewrite A, E, D, Q. repeat split.
  intros i q' H. exists q'. split; [assumption | apply grows_refl].
Qed.

Lemma keeps_setData (v : value number) (s : state) : keeps s (setData v s).
Proof. now apply keeps_same_requests. Qed.

Lemma keeps_setDataTag (t : string) (s : state) : keeps s (setDataTag t s).
Proof. now apply keeps_same_requests. Qed.

Lemma keeps_setIsLoading (b : bool) (s : state) : keeps s (setIsLoading b s).
Proof. now apply keeps_same_requests. Qed.

Lemma keeps_report (r : rejection) (s : state) : keeps s (report r s).
Proof. now apply keeps_same_requests. Qed.

Lemma keeps_onRequest (id : nat) (f : request -> request) (s : state) :
  (forall q, grows q (f q)) -> keeps s (onRequest id f s).
Proof.
  intros Hf. unfold keeps, onRequest. cbn [AIRef error deps requests setRequests].
  repeat split; [apply change_length|].
  intros i q'. rewrite nth_error_change.
  destruct (i =? id)%nat.
  - destruct (nth_error (requests s) i) as [q|]; [|discriminate].
    intros [= <-]. exists q. split; [reflexivity | apply Hf].
  - intros H. exists q'. split; [assumption | apply grows_refl].
Qed.

Lemma grows_withClosed (q : request) : grows q (withClosed q).
Proof. unfold grows. simpl. tauto. Qed.

Lemma grows_withListeners (ls : list listener) (q : request) :
  grows q (withListeners ls q).
Proof. unfold grows. simpl. tauto. Qed.

Lemma grows_withReader (r : body_read) (q : request) : grows q (withReader r q).
Proof. unfold grows. simpl. tauto. Qed.

Lemma grows_more_reactions (more : list reaction) (q : request) :
  grows q (withReactions (q_reactions q ++ more) q).
Proof.
  unfold grows. simpl. repeat split; auto. intros H. apply in_or_app. now left.
Qed.

Lemma keeps_closeBody (id : nat) (s : state) : keeps s (closeBody id s).
Proof.
  unfold closeBody.
  match goal with
  | |- keeps s (if _ then report ?r ?s1 else _) =>
      assert (H1 : keeps s s1);
      [|destruct (fetch_failed id s);
        [apply keeps_trans with s1; [exact H1 | apply keeps_report] | exact H1]]
  end.
  apply keeps_onRequest. intros q. destruct (q_status q);
    [apply grows_more_reactions | apply grows_withClosed | apply grows_refl].
Qed.

Lemma keeps_onResponse (id : nat) (ok : bool) (c : chain) (s : state) :
  keeps s (onResponse id ok c s).
Proof.
  unfold onResponse. destruct (ok && (timing c =? "sync")).
  - destruct (body_used id s); [apply keeps_report|].
    apply keeps_onRequest. intros q. apply grows_withReader.
  - destruct (ok && (timing c =? "async")); [|apply keeps_refl].
    apply keeps_trans with (setDataTag (own_tag c) s); [apply keeps_setDataTag|].
    apply keeps_onRequest. intros q. apply grows_withListeners.
Qed.

Lemma keeps_onSettled (id : nat) (c : chain) (s : state) : keeps s (onSettled id c s).
Proof.
  unfold onSettled. destruct (negb _);
    [apply keeps_closeBody | apply keeps_setIsLoading].
Qed.

Lemma keeps_runThen (id : nat) (ok : bool) (s : state) (r : reaction) :
  keeps s (runThen id ok s r).
Proof.
  destruct r as [c|]; [apply keeps_onResponse|].
  apply keeps_onRequest. exact grows_withClosed.
Qed.

Lemma keeps_runFinally (id : nat) (s : state) (r : reaction) :
  keeps s (runFinally id s r).
Proof. destruct r as [c|]; [apply keeps_onSettled | apply keeps_refl]. Qed.

Lemma keeps_runRejected (id : nat) (s : state) (r : reaction) :
  keeps s (runRejected id s r).
Proof.
  destruct r as [c|]; cbn [runRejected]; [|apply keeps_report].
  apply keeps_trans with (onSettled id c s); [apply keeps_onSettled | apply keeps_report].
Qed.

Lemma keeps_fold_left (f : state -> reaction -> state) (rs : list reaction) (s : state) :
  (forall s r, keeps s (f s r)) -> keeps s (fold_left f rs s).
Proof.
  intros Hf. revert s. induction rs as [|r rs IH]; intros s; [apply keeps_refl|].
  simpl. apply keeps_trans with (f s r); [apply Hf | apply IH].
Qed.

Lemma keeps_attach (id : nat) (c : chain) (s : state) : keeps s (attach id c s).
Proof.
  unfold attach. destruct (nth_error (requests s) id) as [q|]; [|apply keeps_refl].
  destruct (q_status q) as [|ok|].
  - apply keeps_onRequest. intros q0. apply grows_more_reactions.
  - apply keeps_trans with (onResponse id ok c s);
      [apply keeps_onResponse | apply keeps_onSettled].
  - apply keeps_trans with (onSettled id c s); [apply keeps_onSettled | apply keeps_report].
Qed.

Lemma keeps_chunk (id : nat) (text : string) (s : state) : keeps s (chunk id text s).
Proof.
  unfold chunk. destruct (nth_error (requests s) id) as [q|]; [|apply keeps_refl].
  destruct (flowing q); [|apply keeps_refl].
  destruct (deliver text (q_listeners q) (data s)) as [ls shown].
  apply keeps_trans with (onRequest id (withListeners ls) s);
    [|apply keeps_setData].
  apply keeps_onRequest. intros q0. apply grows_withListeners.
Qed.

Lemma keeps_body (id : nat) (text : string) (s : state) : keeps s (body id text s).
Proof.
  unfold body. destruct (nth_error (requests s) id) as [q|]; [|apply keeps_refl].
  destruct (flowing q); [|apply keeps_refl].
  destruct (q_reader q) as [|path|]; try apply keeps_refl.
  assert (H1 : keeps s (onRequest id (withReader Read) s)).
  { apply keeps_onRequest. intros q0. apply grows_withReader. }
  destruct (JSON_parse text) as [json|];
    [|apply keeps_trans with (onRequest id (withReader Read) s);
      [exact H1 | apply keeps_report]].
  destruct (get json path None) as [output|];
    apply keeps_trans with (onRequest id (withReader Read) s);
    [exact H1 | apply keeps_setData | exact H1 | apply keeps_report].
Qed.


(** *** The invariant of single dispatch *)

Lemma inv_initial : inv (initial : state).
Proof.
  split; simpl; try discriminate.
  - intros [|i] q; discriminate.
  - intros _ [|i] q; discriminate.
  - intros [|i] j qi qj; discriminate.
Qed.

Lemma no_pending_keeps (s s' : state) : keeps s s' -> no_pending s -> no_pending s'.
Proof.
  intros (_ & _ & _ & _ & Hq) Hn i q' H'.
  destruct (Hq i q' H') as (q & H & (Hs & _)). rewrite Hs. now apply (Hn i).
Qed.

Lemma current_keeps (s s' : state) (i : nat) : keeps s s' -> current s' i = current s i.
Proof. intros (Ha & _). unfold current. now rewrite Ha. Qed.

Lemma inv_keeps (s s' : state) :
  keeps s s' -> (isLoading s' = false -> no_pending s') -> inv s -> inv s'.
Proof.
  intros Hk Hload Hinv. pose proof Hk as (Ha & _ & _ & Hlen & Hq). split.
  - intros me Hme. rewrite Hlen. apply (inv_ref _ Hinv). congruence.
  - intros i q' H' Hc. destruct (Hq i q' H') as (q & H & Hg).
    apply (grows_doomed _ _ Hg). apply (inv_doomed _ Hinv i q H).
    now rewrite <- (current_keeps _ _ i Hk).
  - exact Hload.
  - intros me i q' Hme H' Hp. destruct (Hq i q' H') as (q & H & (Hs & _)).
    apply (inv_current _ Hinv me i q); congruence.
  - intros i j qi' qj' Hi' Hj' Hpi Hpj.
    destruct (Hq i qi' Hi') as (qi & Hi & (Hsi & _)).
    destruct (Hq j qj' Hj') as (qj & Hj & (Hsj & _)).
    apply (inv_pending _ Hinv i j qi qj); congruence.
Qed.

Lemma inv_keeps_loading (s s' : state) :
  keeps s s' -> isLoading s' = isLoading s -> inv s -> inv s'.
Proof.
  intros Hk Hl Hinv. apply (inv_keeps _ _ Hk); [|assumption].
  rewrite Hl. intros H. apply (no_pending_keeps _ _ Hk). now apply (inv_loading _ Hinv).
Qed.

Lemma inv_setDeps (d : bool * string * string * string) (s : state) :
  inv s -> inv (setDeps d s).
Proof. intros [H1 H2 H3 H4 H5]. split; assumption. Qed.

Lemma isLoading_onRequest (id : nat) (f : request -> request) (s : state) :
  isLoading (onRequest id f s) = isLoading s.
Proof. reflexivity. Qed.

Lemma isLoading_closeBody (id : nat) (s : state) :
  isLoading (closeBody id s) = isLoading s.
Proof. unfold closeBody. now destruct (fetch_failed id s). Qed.

Lemma isLoading_chunk (id : nat) (text : string) (s : state) :
  isLoading (chunk id text s) = isLoading s.
Proof.
  unfold chunk. destruct (nth_error (requests s) id) as [q|]; [|reflexivity].
  destruct (flowing q); [|reflexivity].
  now destruct (deliver text (q_listeners q) (data s)).
Qed.

Lemma isLoading_body (id : nat) (text : string) (s : state) :
  isLoading (body id text s) = isLoading s.
Proof.
  unfold body. destruct (nth_error (requests s) id) as [q|]; [|reflexivity].
  destruct (flowing q); [|reflexivity].
  destruct (q_reader q); try reflexivity.
  destruct (JSON_parse text); [|reflexivity].
  now destruct (get _ _ _).
Qed.

(** [closeBody] dooms the request it is called on. *)
Lemma closeBody_dooms (id : nat) (s : state) (q' : request) :
  nth_error (requests (closeBody id s)) id = Some q' -> doomed q'.
Proof.
  unfold closeBody.
  match goal with
  | |- nth_error (requests (if ?b then report ?r ?s1 else _)) _ = _ -> _ =>
      replace (requests (if b then report r s1 else s1)) with (requests s1)
        by (now destruct b)
  end.
  unfold onRequest. cbn [requests setRequests].
  rewrite nth_error_change, Nat.eqb_refl.
  destruct (nth_error (requests s) id) as [q|]; [|discriminate].
  intros [= <-]. unfold doomed, live. destruct (q_status q) eqn:Hs.
  - right. cbn. split; [assumption | apply in_or_app; right; now left].
  - left. cbn. now rewrite Hs.
  - left. now rewrite Hs.
Qed.

Lemma inv_stopModel (s : state) : inv s -> inv (stopModel s).
Proof.
  intros Hinv. unfold stopModel. destruct (AIRef s) as [me|] eqn:Hme; [|assumption].
  pose proof (keeps_closeBody (fetch me) s) as Hk.
  pose proof Hk as (Ha & _ & _ & Hlen & Hq). split;
    cbn [AIRef isLoading requests setAIRef]; try discriminate.
  - intros i q' H' _. destruct (Nat.eq_dec i (fetch me)) as [-> | Hne].
    + now apply (closeBody_dooms (fetch me) s).
    + destruct (Hq i q' H') as (q & H & Hg). apply (grows_doomed _ _ Hg).
      apply (inv_doomed _ Hinv i q H). unfold current. rewrite Hme.
      apply Nat.eqb_neq. congruence.
  - intros Hl. rewrite isLoading_closeBody in Hl.
    apply (no_pending_keeps _ _ Hk). now apply (inv_loading _ Hinv).
  - intros i j qi' qj' Hi' Hj' Hpi Hpj.
    destruct (Hq i qi' Hi') as (qi & Hi & (Hsi & _)).
    destruct (Hq j qj' Hj') as (qj & Hj & (Hsj & _)).
    apply (inv_pending _ Hinv i j qi qj); congruence.
Qed.

(** A queued [Close] closes the body when the response arrives. *)
Lemma runThen_closes (id : nat) (ok : bool) (rs : list reaction) (s : state) :
  In Close rs -> id < List.length (requests s) ->
  exists q, nth_error (requests (fold_left (runThen id ok) rs s)) id = Some q /\
            q_closed q = true.
Proof.
  revert s. induction rs as [|r rs IH]; intros s Hin Hid; [contradiction|].
  cbn [fold_left].
  assert (Hid' : id < List.length (requests (runThen id ok s r))).
  { destruct (keeps_runThen id ok s r) as (_ & _ & _ & -> & _). exact Hid. }
  destruct Hin as [-> | Hin]; [|now apply IH].
  pose proof (keeps_fold_left (runThen id ok) rs (runThen id ok s Close)
                (keeps_runThen id ok)) as (_ & _ & _ & Hlen & Hq).
  destruct (nth_error (requests (fold_left (runThen id ok) rs (runThen id ok s Close))) id)
    as [q2|] eqn:H2.
  - exists q2. split; [reflexivity|].
    destruct (Hq id q2 H2) as (q1 & H1 & (_ & _ & Hc & _)). apply Hc.
    revert H1. cbn [runThen onRequest requests setRequests].
    rewrite nth_error_change, Nat.eqb_refl.
    destruct (nth_error (requests s) id); [|discriminate]. now intros [= <-].
  - apply nth_error_None in H2. lia.
Qed.

Lemma inv_settle (id : nat) (st : status) (q : request) (s s' : state) :
  inv s ->
  nth_error (requests s) id = Some q -> q_status q = Pending ->
  st <> Pending ->
  keeps (onRequest id (fun q => withReactions [] (withStatus st q)) s) s' ->
  (forall q', nth_error (requests s') id = Some q' ->
     In Close (q_reactions q) -> st <> Rejected -> q_closed q' = true) ->
  inv s'.
Proof.
  intros Hinv Hid Hp Hst Hk Hclose.
  set (s1 := onRequest id (fun q => withReactions [] (withStatus st q)) s) in *.
  pose proof Hk as (Ha & _ & _ & Hlen & Hq).
  assert (Hback : forall i q', nth_error (requests s') i = Some q' ->
            exists q0, nth_error (requests s) i = Some q0 /\
              ((i = id /\ q_status q' = st /\ (q_closed q0 = true -> q_closed q' = true)) \/
               (i <> id /\ grows q0 q'))).
  { intros i q' H'. destruct (Hq i q' H') as (q1 & H1 & Hg).
    revert H1. unfold s1, onRequest. cbn [requests setRequests].
    rewrite nth_error_change. destruct (Nat.eqb_spec i id) as [-> | Hne].
    - rewrite Hid. intros [= <-]. exists q. split; [reflexivity|]. left.
      destruct Hg as (Hs & _ & Hc & _). cbn in Hs, Hc. auto.
    - intros H1. exists q1. split; [assumption|]. now right. }
  assert (Hnone : no_pending s').
  { intros i q' H' Hp'. destruct (Hback i q' H') as (q0 & H0 & [(_ & Hs & _) | (Hne & Hg)]).
    - congruence.
    - destruct Hg as (Hs & _). apply Hne.
      apply (inv_pending _ Hinv i id q0 q); congruence. }
  split.
  - intros me Hme. rewrite Hlen. unfold s1, onRequest. cbn [requests setRequests].
    rewrite change_length. apply (inv_ref _ Hinv). rewrite <- Hme, Ha. reflexivity.
  - intros i q' H' Hc.
    assert (Hc0 : current s i = false).
    { unfold current in *. rewrite Ha in Hc. exact Hc. }
    destruct (Hback i q' H') as (q0 & H0 & [(-> & Hs & Hcl) | (Hne & Hg)]).
    + assert (q0 = q) by congruence. subst q0.
      left. unfold live. rewrite Hs. destruct st as [|ok|]; [congruence| |reflexivity].
      apply negb_false_iff.
      destruct (inv_doomed _ Hinv id q Hid Hc0) as [Hd | [_ Hin]].
      * apply Hcl. unfold live in Hd. rewrite Hp in Hd. now apply negb_false_iff in Hd.
      * apply Hclose; [assumption | assumption | discriminate].
    + apply (grows_doomed _ _ Hg). now apply (inv_doomed _ Hinv i q0 H0).
  - intros _. exact Hnone.
  - intros me i q' _ H' Hp'. now destruct (Hnone i q' H').
  - intros i j qi qj Hi _ Hpi _. now destruct (Hnone i qi Hi).
Qed.

Lemma inv_respond (id : nat) (ok : bool) (s : state) : inv s -> inv (respond id ok s).
Proof.
  intros Hinv. unfold respond.
  destruct (nth_error (requests s) id) as [q|] eqn:Hid; [|assumption].
  destruct (q_status q) eqn:Hp; try assumption.
  set (s1 := onRequest id (fun q => withReactions [] (withStatus (Responded ok) q)) s).
  set (s2 := fold_left (runThen id ok) (q_reactions q) s1).
  assert (H12 : keeps s1 s2) by (apply keeps_fold_left, keeps_runThen).
  assert (H23 : keeps s2 (fold_left (runFinally id) (q_reactions q) s2))
    by (apply keeps_fold_left, keeps_runFinally).
  apply (inv_settle id (Responded ok) q s _ Hinv Hid Hp); [discriminate| |].
  - now apply keeps_trans with s2.
  - intros q3 H3 Hin _.
    destruct H23 as (_ & _ & _ & _ & Hq). destruct (Hq id q3 H3) as (q2 & H2 & Hg).
    destruct Hg as (_ & _ & Hc & _). apply Hc.
    destruct (runThen_closes id ok (q_reactions q) s1 Hin) as (q2' & H2' & Hcl).
    + unfold s1, onRequest. cbn [requests setRequests]. rewrite change_length.
      apply nth_error_Some. congruence.
    + fold s2 in H2'. congruence.
Qed.

Lemma inv_reject (id : nat) (s : state) : inv s -> inv (reject id s).
Proof.
  intros Hinv. unfold reject.
  destruct (nth_error (requests s) id) as [q|] eqn:Hid; [|assumption].
  destruct (q_status q) eqn:Hp; try assumption.
  apply (inv_settle id Rejected q s _ Hinv Hid Hp); [discriminate| |].
  - apply keeps_fold_left, keeps_runRejected.
  - intros q' _ _ H. congruence.
Qed.

Lemma attach_pending (id : nat) (c : chain) (s : state) (q : request) :
  nth_error (requests s) id = Some q -> q_status q = Pending ->
  attach id c s =
  onRequest id (fun q => withReactions (q_reactions q ++ [Handle c]) q) s.
Proof. intros H Hp. unfold attach. now rewrite H, Hp. Qed.

Lemma inv_attach (me : ref) (c : chain) (s : state) :
  inv s -> AIRef s = Some me -> isLoading s = true ->
  inv (attach (fetch me) c s).
Proof.
  intros Hinv Hme Hl. apply (inv_keeps s); [apply keeps_attach | | assumption].
  destruct (nth_error (requests s) (fetch me)) as [q|] eqn:Hq.
  - destruct (q_status q) eqn:Hp.
    + rewrite (attach_pending _ c s q Hq Hp), isLoading_onRequest. congruence.
    + intros _. apply (no_pending_keeps s); [apply keeps_attach|].
      intros i q' H' Hp'.
      assert (i = fetch me) by (apply (inv_current _ Hinv me i q'); assumption).
      subst i. congruence.
    + intros _. apply (no_pending_keeps s); [apply keeps_attach|].
      intros i q' H' Hp'.
      assert (i = fetch me) by (apply (inv_current _ Hinv me i q'); assumption).
      subst i. congruence.
  - apply nth_error_None in Hq. pose proof (inv_ref _ Hinv me Hme). lia.
Qed.

Lemma nth_error_snoc (qs : list request) (q q' : request) (i : nat) :
  nth_error (qs ++ [q]) i = Some q' ->
  (i < List.length qs /\ nth_error qs i = Some q') \/ (i = List.length qs /\ q' = q).
Proof.
  intros H. destruct (Nat.lt_ge_cases i (List.length qs)) as [Hlt | Hge].
  - left. split; [assumption|]. now rewrite nth_error_app1 in H.
  - right. rewrite nth_error_app2 in H by assumption.
    destruct (i - List.length qs) as [|k] eqn:Hk.
    + simpl in H. injection H as <-. split; [lia | reflexivity].
    + simpl in H. now destruct k.
Qed.

Lemma inv_fetched (t : string) (q : request) (s : state) :
  inv s -> AIRef s = None -> isLoading s = false -> q_status q = Pending ->
  inv (fetched t q s).
Proof.
  intros Hinv Hnone Hl Hp. pose proof (inv_loading _ Hinv Hl) as Hnp.
  unfold fetched. split;
    cbn [AIRef isLoading requests setIsLoading setAIRef setRequests current fetch].
  - intros me [= <-]. cbn. rewrite length_app. simpl. lia.
  - intros i q' H' Hc. apply Nat.eqb_neq in Hc.
    destruct (nth_error_snoc _ _ _ _ H') as [[_ H] | [-> _]]; [|congruence].
    apply (inv_doomed _ Hinv i q' H). unfold current. now rewrite Hnone.
  - discriminate.
  - intros me i q' [= <-] H' Hp'. cbn.
    destruct (nth_error_snoc _ _ _ _ H') as [[_ H] | [-> _]]; [|reflexivity].
    now destruct (Hnp i q' H).
  - intros i j qi qj Hi Hj Hpi Hpj.
    destruct (nth_error_snoc _ _ _ _ Hi) as [[_ H] | [-> _]];
      [now destruct (Hnp i qi H)|].
    destruct (nth_error_snoc _ _ _ _ Hj) as [[_ H] | [-> _]];
      [now destruct (Hnp j qj H) | reflexivity].
Qed.

Lemma inv_setIsLoading_true (s : state) : inv s -> inv (setIsLoading true s).
Proof. intros [H1 H2 H3 H4 H5]. split; try assumption. discriminate. Qed.

Lemma inv_effect (e : Env.t) (a : Args.t) (schema : value number) (s : state) :
  inv s -> inv (effect e a schema s).
Proof.
  intros Hinv. unfold effect.
  destruct (raycastModel e a || negb (Args.execute a)); [assumption|].
  destruct (AIRef s) as [me|] eqn:Hme.
  - cbn [AIRef setIsLoading]. rewrite Hme.
    apply inv_attach; [now apply inv_setIsLoading_true | assumption | reflexivity].
  - destruct (Args.execute a && (0 <? String.length (Args.prompt a))%nat &&
              negb (isLoading s)) eqn:Hgo.
    + apply andb_true_iff in Hgo as [_ Hl]. apply negb_true_iff in Hl.
      change (setIsLoading true
                (setAIRef (Some {| fetch := List.length (requests s); ref_tag := tag a |})
                   (setRequests (requests s ++ [dispatched e a schema]) s)))
        with (fetched (tag a) (dispatched e a schema) s).
      cbn [AIRef fetched setIsLoading setAIRef].
      apply inv_attach; [now apply inv_fetched | reflexivity | reflexivity].
    + cbn [AIRef setIsLoading]. rewrite Hme. now apply inv_setIsLoading_true.
Qed.

Lemma inv_render (e : Env.t) (a : Args.t) (s : state) : inv s -> inv (render e a s).
Proof.
  intros Hinv. unfold render. destruct (modelSchema e a) as [schema|]; [|assumption].
  destruct (same_deps _ _); [assumption|].
  now apply inv_effect, inv_setDeps.
Qed.

Lemma inv_step (s : state) (ev : event) : inv s -> inv (step s ev).
Proof.
  intros Hinv. destruct ev as [e a| |id ok|id|id text|id text]; cbn [step].
  - now apply inv_render.
  - now apply inv_stopModel.
  - now apply inv_respond.
  - now apply inv_reject.
  - apply (inv_keeps_loading s); [apply keeps_chunk | apply isLoading_chunk | assumption].
  - apply (inv_keeps_loading s); [apply keeps_body | apply isLoading_body | assumption].
Qed.

Lemma reachable_inv (s : state) : reachable s -> inv s.
Proof.
  induction 1 as [|s ev _ IH]; [apply inv_initial | now apply inv_step].
Qed.

(** Under the invariant no two requests are live. *)
Lemma inv_one_live (s : state) (i j : nat) (qi qj : request) :
  inv s ->
  nth_error (requests s) i = Some qi -> nth_error (requests s) j = Some qj ->
  live qi = true -> live qj = true -> i = j.
Proof.
  intros Hinv Hi Hj Hli Hlj.
  assert (Hcur : forall k q, nth_error (requests s) k = Some q -> live q = true ->
            current s k = false -> q_status q = Pending).
  { intros k q Hk Hl Hc. destruct (inv_doomed _ Hinv k q Hk Hc) as [Hd | [Hp _]];
      congruence. }
  destruct (AIRef s) as [me|] eqn:Hme.
  - assert (Hone : forall k q, nth_error (requests s) k = Some q -> live q = true ->
              k = fetch me).
    { intros k q Hk Hl. destruct (Nat.eq_dec k (fetch me)) as [|Hne]; [assumption|].
      apply (inv_current _ Hinv me k q Hme Hk). apply (Hcur k q Hk Hl).
      unfold current. rewrite Hme. apply Nat.eqb_neq. congruence. }
    rewrite (Hone i qi Hi Hli), (Hone j qj Hj Hlj). reflexivity.
  - apply (inv_pending _ Hinv i j qi qj Hi Hj).
    + apply (Hcur i qi Hi Hli). unfold current. now rewrite Hme.
    + apply (Hcur j qj Hj Hlj). unfold current. now rewrite Hme.
Qed.

(** *** When a request is issued *)

Lemma keeps_length (s s' : state) :
  keeps s s' -> List.length (requests s') = List.length (requests s).
Proof. now intros (_ & _ & _ & H & _). Qed.

Lemma respond_length (id : nat) (ok : bool) (s : state) :
  List.length (requests (respond id ok s)) = List.length (requests s).
Proof.
  unfold respond. destruct (nth_error (requests s) id) as [q|]; [|reflexivity].
  destruct (q_status q); try reflexivity.
  rewrite (keeps_length _ _ (keeps_fold_left (runFinally id) _ _ (keeps_runFinally id))).
  rewrite (keeps_length _ _ (keeps_fold_left (runThen id ok) _ _ (keeps_runThen id ok))).
  apply change_length.
Qed.

Lemma reject_length (id : nat) (s : state) :
  List.length (requests (reject id s)) = List.length (requests s).
Proof.
  unfold reject. destruct (nth_error (requests s) id) as [q|]; [|reflexivity].
  destruct (q_status q); try reflexivity.
  rewrite (keeps_length _ _ (keeps_fold_left (runRejected id) _ _ (keeps_runRejected id))).
  apply change_length.
Qed.

Lemma stopModel_length (s : state) :
  List.length (requests (stopModel s)) = List.length (requests s).
Proof.
  unfold stopModel. destruct (AIRef s) as [me|]; [|reflexivity].
  apply (keeps_length _ _ (keeps_closeBody (fetch me) s)).
Qed.

(** The effect calls [fetch] at most once, and only when nothing is in
    [AIRef.current], the hook is not loading, execution is asked for, the
    target is not the managed service and the prompt is not empty. *)
Lemma effect_length (e : Env.t) (a : Args.t) (schema : value number) (s : state) :
  List.length (requests (effect e a schema s)) = List.length (requests s) \/
  (List.length (requests (effect e a schema s)) = S (List.length (requests s)) /\
   AIRef s = None /\ isLoading s = false /\
   Args.execute a = true /\ raycastModel e a = false /\ Args.prompt a <> "").
Proof.
  unfold effect. destruct (raycastModel e a) eqn:Hr; [now left|].
  destruct (Args.execute a) eqn:Hx; [|now left]. cbn [orb negb andb].
  destruct (AIRef s) as [me|] eqn:Hme.
  - left. cbn [AIRef setIsLoading]. rewrite Hme.
    apply (keeps_length (setIsLoading true s)), keeps_attach.
  - destruct ((0 <? String.length (Args.prompt a))%nat && negb (isLoading s)) eqn:Hgo.
    + right. apply andb_true_iff in Hgo as [Hp Hl].
      apply negb_true_iff in Hl. cbn [AIRef setIsLoading setAIRef].
      rewrite (keeps_length _ _ (keeps_attach _ _ _)).
      cbn [requests setIsLoading setAIRef setRequests]. rewrite length_app. simpl.
      repeat split; try reflexivity; try assumption; [lia|].
      intros He. rewrite He in Hp. discriminate.
    + left. cbn [AIRef setIsLoading]. now rewrite Hme.
Qed.

Lemma step_length (s : state) (ev : event) :
  List.length (requests (step s ev)) = List.length (requests s) \/
  exists e a,
    ev = Render e a /\
    List.length (requests (step s ev)) = S (List.length (requests s)) /\
    AIRef s = None /\ isLoading s = false /\
    Args.execute a = true /\ raycastModel e a = false /\ Args.prompt a <> "".
Proof.
  destruct ev as [e a| |id ok|id|id text|id text]; cbn [step].
  - unfold render. destruct (modelSchema e a) as [schema|] eqn:Hm; [|now left].
    destruct (same_deps _ _); [now left|].
    destruct (effect_length e a schema (setDeps (Args.execute a, Args.basePrompt a,
                Args.input a, Args.prompt a) s)) as [H | H]; [now left|].
    right. exists e, a. split; [reflexivity | exact H].
  - left. apply stopModel_length.
  - left. apply respond_length.
  - left. apply reject_length.
  - left. apply (keeps_length _ _ (keeps_chunk id text s)).
  - left. apply (keeps_length _ _ (keeps_body id text s)).
Qed.

(** *** The state variable [error] *)

Lemma error_effect (e : Env.t) (a : Args.t) (schema : value number) (s : state) :
  error (effect e a schema s) = error s.
Proof.
  unfold effect. destruct (raycastModel e a || negb (Args.execute a)); [reflexivity|].
  match goal with
  | |- error (match AIRef (setIsLoading true ?s1) with _ => _ end) = _ =>
      assert (H1 : error s1 = error s) by
        (destruct (AIRef s); [reflexivity|]; destruct (_ && _); reflexivity);
      destruct (AIRef (setIsLoading true s1)) as [me|]; [|exact H1];
      destruct (keeps_attach (fetch me)
                  {| me_tag := ref_tag me; own_tag := tag a;
                     timing := Model.outputTiming (target e a);
                     keyPath := Model.outputKeyPath (target e a) |}
                  (setIsLoading true s1)) as (_ & -> & _); exact H1
  end.
Qed.

Lemma error_step (s : state) (ev : event) : error (step s ev) = error s.
Proof.
  destruct ev as [e a| |id ok|id|id text|id text]; cbn [step].
  - unfold render. destruct (modelSchema e a) as [schema|]; [|reflexivity].
    destruct (same_deps _ _); [reflexivity|]. now rewrite error_effect.
  - unfold stopModel. destruct (AIRef s) as [me|]; [|reflexivity].
    cbn [error setAIRef].
    now destruct (keeps_closeBody (fetch me) s) as (_ & -> & _).
  - unfold respond. destruct (nth_error (requests s) id) as [q|]; [|reflexivity].
    destruct (q_status q); try reflexivity.
    destruct (keeps_fold_left (runFinally id) (q_reactions q)
                (fold_left (runThen id ok) (q_reactions q)
                   (onRequest id (fun q => withReactions [] (withStatus (Responded ok) q)) s))
                (keeps_runFinally id)) as (_ & -> & _).
    now destruct (keeps_fold_left (runThen id ok) (q_reactions q)
                (onRequest id (fun q => withReactions [] (withStatus (Responded ok) q)) s)
                (keeps_runThen id ok)) as (_ & -> & _).
  - unfold reject. destruct (nth_error (requests s) id) as [q|]; [|reflexivity].
    destruct (q_status q); try reflexivity.
    now destruct (keeps_fold_left (runRejected id) (q_reactions q)
                (onRequest id (fun q => withReactions [] (withStatus Rejected q)) s)
                (keeps_runRejected id)) as (_ & -> & _).
  - now destruct (keeps_chunk id text s) as (_ & -> & _).
  - now destruct (keeps_body id text s) as (_ & -> & _).
Qed.

(** [setError] is never called: the state variable [error] stays
    [undefined]. *)
Lemma reachable_error (s : state) : reachable s -> error s = None.
Proof.
  induction 1 as [|s ev _ IH]; [reflexivity | now rewrite error_step].
Qed.

Lemma reachable_fold (evs : list event) (s : state) :
  reachable s -> reachable (fold_left (@step number R) evs s).
Proof.
  revert s. induction evs as [|ev evs IH]; intros s Hs; [assumption|].
  simpl. apply IH. now constructor.
Qed.

Lemma reachable_run (evs : list event) : reachable (run evs).
Proof. apply reachable_fold. constructor. Qed.

(** No render issues a request while a request is live. *)
Lemma render_no_reissue (e : Env.t) (a : Args.t) (s : state) (i : nat) (q : request) :
  inv s -> nth_error (requests s) i = Some q -> live q = true ->
  List.length (requests (render e a s)) = List.length (requests s).
Proof.
  intros Hinv Hi Hl.
  destruct (step_length s (Render e a)) as [H | (e' & a' & _ & _ & Hnone & Hload & _)];
    [exact H|].
  exfalso.
  assert (Hc : current s i = false) by (unfold current; now rewrite Hnone).
  destruct (inv_doomed _ Hinv i q Hi Hc) as [Hd | [Hp _]]; [congruence|].
  now apply (inv_loading _ Hinv Hload i q Hi).
Qed.

(** With a request in [AIRef.current], an effect run that gets past its
    guard does nothing but hang a chain on that request. *)
Lemma render_reuses (e : Env.t) (a : Args.t) (s : state) (me : ref)
  (schema : value number) :
  AIRef s = Some me ->
  modelSchema e a = Ret schema ->
  same_deps (deps s)
    (Args.execute a, Args.basePrompt a, Args.input a, Args.prompt a) = false ->
  raycastModel e a = false -> Args.execute a = true ->
  render e a s =
  attach (fetch me)
    {| me_tag := ref_tag me; own_tag := tag a;
       timing := Model.outputTiming (target e a);
       keyPath := Model.outputKeyPath (target e a) |}
    (setIsLoading true
       (setDeps (Args.execute a, Args.basePrompt a, Args.input a, Args.prompt a) s)).
Proof.
  intros Hme Hm Hd Hr Hx. unfold render. rewrite Hm, Hd. unfold effect.
  rewrite Hr, Hx. destruct s as [d er dt il ar dp rq]. cbn [AIRef] in Hme.
  subst ar. reflexivity.
Qed.

(** C8. In every state the hook can reach:
    - of the requests issued under one tag at most one is live (it has
      neither failed nor had its body closed);
    - while a request is live no render issues another, and with a request
      in [AIRef.current] an effect run only hangs its chain on it;
    - a request is issued by a render only, and only when execution is
      enabled, the target model is not the managed service and the prompt
      is not empty. *)
Theorem single_dispatch (s : state) :
  reachable s ->
  (forall t i j qi qj,
     nth_error (requests s) i = Some qi -> nth_error (requests s) j = Some qj ->
     q_tag qi = t -> q_tag qj = t ->
     live qi = true -> live qj = true -> i = j) /\
  (forall e a i q,
     nth_error (requests s) i = Some q -> live q = true ->
     List.length (requests (render e a s)) = List.length (requests s)) /\
  (forall e a me schema,
     AIRef s = Some me ->
     modelSchema e a = Ret schema ->
     same_deps (deps s)
       (Args.execute a, Args.basePrompt a, Args.input a, Args.prompt a) = false ->
     raycastModel e a = false -> Args.execute a = true ->
     render e a s =
     attach (fetch me)
       {| me_tag := ref_tag me; own_tag := tag a;
          timing := Model.outputTiming (target e a);
          keyPath := Model.outputKeyPath (target e a) |}
       (setIsLoading true
          (setDeps (Args.execute a, Args.basePrompt a, Args.input a, Args.prompt a) s))) /\
  (forall ev,
     List.length (requests (step s ev)) <> List.length (requests s) ->
     exists e a,
       ev = Render e a /\
       List.length (requests (step s ev)) = S (List.length (requests s)) /\
       Args.execute a = true /\ raycastModel e a = false /\ Args.prompt a <> "").
Proof.
  intros Hs. pose proof (reachable_inv s Hs) as Hinv.
  split; [|split; [|split]].
  - intros t i j qi qj Hi Hj _ _ Hli Hlj. now apply (inv_one_live s i j qi qj).
  - intros e a i q Hi Hl. now apply (render_no_reissue e a s i q).
  - intros e a me schema. apply render_reuses.
  - intros ev Hne.
    destruct (step_length s ev) as [H | (e & a & Hev & Hlen & _ & _ & Hx & Hr & Hp)];
      [contradiction|].
    now exists e, a.
Qed.

(** C6, template error handling, does not hold of the code. For every
    call: when the target model is not classed as the managed service and
    [JSON.parse] refuses the substituted template, the call throws the
    parser's error, returns no result and commits nothing; when the model
    is classed as the managed service the template is not parsed and the
    call returns a result. The state variable [error], which the result
    reports for a custom endpoint, is never set. *)
Theorem template_error_thrown (e : Env.t) (a : Args.t) :
  (raycastModel e a = false -> JSON_parse (filledSchema e a) = None ->
     forall s, useModel s e a = Throw SyntaxError /\ render e a s = s) /\
  (raycastModel e a = true -> forall s, exists r, useModel s e a = Ret r) /\
  (forall s, reachable s -> error s = None).
Proof.
  split; [|split].
  - intros Hr Hp s. unfold useModel, render, modelSchema. now rewrite Hr, Hp.
  - intros Hr s. unfold useModel, modelSchema. rewrite Hr.
    destruct (_ || _); cbn [set_member]; eauto.
  - exact reachable_error.
Qed.

Lemma length_zero (x : string) : (String.length x =? 0)%nat = true <-> x = "".
Proof. destruct x; simpl; split; congruence. Qed.

(** X27. The guards of the result, for every call whose template parses:
    - when both the base prompt and the prompt are empty the result is the
      error "Prompt cannot be empty" with [isLoading] false, and the render
      issues no request;
    - when they are not both empty and the registry is loading, the result
      is the loading state: no data, no error, [isLoading] true;
    - when they are not both empty, the registry is not loading, and the
      target's endpoint neither names the managed service nor contains a
      colon, the result is the error "Invalid Endpoint" with [isLoading]
      false. *)
Theorem configuration_guard (e : Env.t) (a : Args.t) (s : state)
  (schema : value number) :
  modelSchema e a = Ret schema ->
  (Args.basePrompt a = "" -> Args.prompt a = "" ->
     useModel s e a = Ret (failed "Prompt cannot be empty") /\
     List.length (requests (render e a s)) = List.length (requests s)) /\
  (~ (Args.basePrompt a = "" /\ Args.prompt a = "") ->
   Models.isLoading (Env.models e) = true ->
     useModel s e a =
     Ret {| Result.data := VStr ""; Result.isLoading := true;
            Result.error := None; Result.dataTag := tag a |}) /\
  (~ (Args.basePrompt a = "" /\ Args.prompt a = "") ->
   Models.isLoading (Env.models e) = false ->
   namesRaycastAI (Model.endpoint (target e a)) = false ->
   Str.includes (Model.endpoint (target e a)) ":" = false ->
     useModel s e a = Ret (failed "Invalid Endpoint")) /\
  (forall message : string,
     Result.error (failed (number := number) message) = Some message /\
     Result.isLoading (failed (number := number) message) = false /\
     Result.data (failed (number := number) message) = VStr "").
Proof.
  intros Hm.
  assert (Hz : ~ (Args.basePrompt a = "" /\ Args.prompt a = "") ->
            (String.length (Args.basePrompt a) =? 0)%nat &&
            (String.length (Args.prompt a) =? 0)%nat = false).
  { intros Hne.
    destruct ((String.length (Args.basePrompt a) =? 0)%nat &&
              (String.length (Args.prompt a) =? 0)%nat) eqn:Hz; [|reflexivity].
    apply andb_true_iff in Hz as [Hb Hp].
    apply length_zero in Hb, Hp. tauto. }
  split; [|split; [|split]].
  - intros Hb Hp. split.
    + unfold useModel. now rewrite Hm, Hb, Hp.
    + destruct (step_length s (Render e a)) as [H | (e' & a' & [= <- <-] & _ & _ & _ & _ & _ & Hne)];
        [exact H | contradiction].
  - intros Hne Hl. unfold useModel. rewrite Hm, Hl, (Hz Hne), orb_true_r. reflexivity.
  - intros Hne Hl Hn Hc. unfold useModel. now rewrite Hm, Hl, Hn, Hc, (Hz Hne).
  - intros message. repeat split.
Qed.

(** X1. A chain whose effect run had another tag than the request it
    hangs on never shows its text, and on completion closes the body and
    leaves [isLoading] as it is. *)
Lemma stale_chain_suppressed (c : chain) :
  (me_tag c =? own_tag c) = false ->
  (forall text shown line, snd (onLine c (text, shown) line) = shown) /\
  (forall id (s : state), onSettled id c s = closeBody id s /\
                            isLoading (onSettled id c s) = isLoading s).
Proof.
  intros Hc. split.
  - intros text shown line. unfold onLine.
    destruct (Str.startsWith line "data: [DONE]"); [reflexivity|].
    destruct (Str.startsWith line "data: "); [|reflexivity].
    destruct (JSON_parse _); [|reflexivity].
    destruct (get _ _ _); [|reflexivity].
    destruct (to_text _); [|reflexivity].
    now rewrite Hc.
  - intros id s. unfold onSettled. rewrite Hc. split; [reflexivity|].
    apply isLoading_closeBody.
Qed.

Lemma change_snoc (f : request -> request) (qs : list request) (q : request) :
  change (List.length qs) f (qs ++ [q]) = (qs ++ [f q])%list.
Proof. induction qs as [|x qs IH]; simpl; [reflexivity | now rewrite IH]. Qed.

(** X2. Whether the endpoint is a URL is not asked before [fetch] is
    called: with execution on, a prompt that is not empty, a target that is
    not the managed service, nothing in [AIRef.current] and the hook not
    loading, the effect issues a request to the target's endpoint, whatever
    it is. *)
Lemma fetch_ignores_endpoint (e : Env.t) (a : Args.t) (s : state)
  (schema : value number) :
  modelSchema e a = Ret schema ->
  same_deps (deps s)
    (Args.execute a, Args.basePrompt a, Args.input a, Args.prompt a) = false ->
  raycastModel e a = false -> Args.execute a = true -> Args.prompt a <> "" ->
  AIRef s = None -> isLoading s = false ->
  exists q, requests (render e a s) = (requests s ++ [q])%list /\
            q_endpoint q = Model.endpoint (target e a).
Proof.
  intros Hm Hd Hr Hx Hp Hnone Hl. unfold render. rewrite Hm, Hd. unfold effect.
  rewrite Hr, Hx. destruct s as [d er dt il ar dp rq]. cbn in Hnone, Hl. subst ar il.
  cbn [orb negb andb AIRef isLoading requests setDeps].
  assert (Hpos : (0 <? String.length (Args.prompt a))%nat = true).
  { destruct (Args.prompt a); [congruence | reflexivity]. }
  rewrite Hpos. cbn -[attach dispatched tag target List.length app].
  erewrite attach_pending.
  - eexists. split.
    + cbn [requests onRequest setRequests setIsLoading setAIRef].
      apply change_snoc.
    + reflexivity.
  - cbn [requests setIsLoading setAIRef setRequests]. rewrite nth_error_app2 by lia.
    rewrite Nat.sub_diag. reflexivity.
  - reflexivity.
Qed.

End Machine.

(** ** The hook at work *)


(** C1, staleness suppression, does not hold of the code. A request is
    dispatched under tag [A]; before its response arrives the caller moves
    on to tag [B].
    - With execution left on for [B], the chain of the first effect run
      still compares the tag of the request with the tag its own closure
      holds, which is the same: when the response arrives [isLoading] is
      set to false for the request that is stale, beside the close that the
      chain of the second effect run asks for, and the hook reports
      [isLoading] false under tag [B].
    - With execution switched off for [B], the effect returns before it
      looks at the request: when the response and a chunk of [A] arrive,
      the chunk is shown as [data], [isLoading] is set to false and nothing
      closes the body. *)
Theorem stale_request_not_suppressed :
  (map q_tag (requests (run (R := Sample.runtime)
            [Render HookExample.streaming (HookExample.call "A" true)])) = ["A"] /\
   tag (HookExample.call "B" false) = "B" /\
   tag (HookExample.call "B" true) = "B") /\
  (data (run (R := Sample.runtime)
           [Render HookExample.streaming (HookExample.call "A" true);
            Render HookExample.streaming (HookExample.call "B" false);
            Respond 0 true]) = VStr "" /\
   data (run (R := Sample.runtime)
           [Render HookExample.streaming (HookExample.call "A" true);
            Render HookExample.streaming (HookExample.call "B" false);
            Respond 0 true;
            Chunk 0 HookExample.line]) = VStr "Hello" /\
   isLoading (run (R := Sample.runtime)
           [Render HookExample.streaming (HookExample.call "A" true);
            Render HookExample.streaming (HookExample.call "B" false);
            Respond 0 true;
            Chunk 0 HookExample.line]) = false /\
   map q_closed (requests (run (R := Sample.runtime)
           [Render HookExample.streaming (HookExample.call "A" true);
            Render HookExample.streaming (HookExample.call "B" false);
            Respond 0 true;
            Chunk 0 HookExample.line])) = [false]) /\
  (isLoading (run (R := Sample.runtime)
           [Render HookExample.streaming (HookExample.call "A" true);
            Render HookExample.streaming (HookExample.call "B" true)]) = true /\
   isLoading (run (R := Sample.runtime)
           [Render HookExample.streaming (HookExample.call "A" true);
            Render HookExample.streaming (HookExample.call "B" true);
            Respond 0 true]) = false /\
   map q_closed (requests (run (R := Sample.runtime)
           [Render HookExample.streaming (HookExample.call "A" true);
            Render HookExample.streaming (HookExample.call "B" true);
            Respond 0 true])) = [true] /\
   useModel (R := Sample.runtime)
     (run (R := Sample.runtime)
           [Render HookExample.streaming (HookExample.call "A" true);
            Render HookExample.streaming (HookExample.call "B" true);
            Respond 0 true])
     HookExample.streaming (HookExample.call "B" true) =
   Ret {| Result.data := VStr ""; Result.isLoading := false;
          Result.error := None; Result.dataTag := "B" |}).
Proof. vm_compute. repeat split. Qed.

Lemma template_error_thrown_witness :
  useModel (R := Sample.runtime) initial HookExample.broken (HookExample.call "hi" true) =
    Throw SyntaxError /\
  render (R := Sample.runtime) HookExample.broken (HookExample.call "hi" true) initial =
    initial /\
  exists r, useModel (R := Sample.runtime) initial HookExample.managed
              (HookExample.call "hi" true) = Ret r.
Proof.
  pose proof (@template_error_thrown Z Sample.runtime HookExample.broken
                (HookExample.call "hi" true)) as (Hthrow & _ & _).
  pose proof (@template_error_thrown Z Sample.runtime HookExample.managed
                (HookExample.call "hi" true)) as (_ & Hmanaged & _).
  split; [|split].
  - apply (Hthrow eq_refl eq_refl initial).
  - apply (Hthrow eq_refl eq_refl initial).
  - apply (Hmanaged eq_refl initial).
Defined.

Lemma configuration_guard_witness :
  useModel (R := Sample.runtime) initial HookExample.streaming (HookExample.call "" true) =
    Ret (failed "Prompt cannot be empty") /\
  List.length (requests (render (R := Sample.runtime) HookExample.streaming
                           (HookExample.call "" true) initial)) = 0 /\
  useModel (R := Sample.runtime) initial HookExample.invalid_loading
    (HookExample.call "hi" true) =
    Ret {| Result.data := VStr ""; Result.isLoading := true;
           Result.error := None; Result.dataTag := "hi" |} /\
  useModel (R := Sample.runtime) initial HookExample.invalid (HookExample.call "hi" true) =
    Ret (failed "Invalid Endpoint").
Proof.
  pose proof (@configuration_guard Z Sample.runtime HookExample.streaming
                (HookExample.call "" true) initial _ eq_refl) as (Hempty & _ & _ & _).
  pose proof (@configuration_guard Z Sample.runtime HookExample.invalid_loading
                (HookExample.call "hi" true) initial _ eq_refl) as (_ & Hloading & _ & _).
  pose proof (@configuration_guard Z Sample.runtime HookExample.invalid
                (HookExample.call "hi" true) initial _ eq_refl) as (_ & _ & Hinvalid & _).
  split; [|split; [|split]].
  - apply (Hempty eq_refl eq_refl).
  - apply (Hempty eq_refl eq_refl).
  - apply Hloading; [intros [_ H]; discriminate H | reflexivity].
  - apply Hinvalid; [intros [_ H]; discriminate H | reflexivity | reflexivity | reflexivity].
Defined.

Lemma single_dispatch_witness :
  List.length (requests (render (R := Sample.runtime) HookExample.streaming
                           (HookExample.call "B" true)
                           (run (R := Sample.runtime)
                              [Render HookExample.streaming (HookExample.call "A" true)]))) =
  List.length (requests (run (R := Sample.runtime)
                           [Render HookExample.streaming (HookExample.call "A" true)])).
Proof.
  pose proof (@single_dispatch Z Sample.runtime
                (run (R := Sample.runtime)
                   [Render HookExample.streaming (HookExample.call "A" true)])
                (@reachable_step Z Sample.runtime initial
                   (Render HookExample.streaming (HookExample.call "A" true))
                   (@reachable_initial Z Sample.runtime))) as (_ & Hreuse & _).
  eapply Hreuse with (i := 0); reflexivity.
Defined.

Lemma stale_chain_suppressed_witness :
  snd (onLine (R := Sample.runtime)
         {| me_tag := "A"; own_tag := "B"; timing := "async"; keyPath := "text" |}
         ("", VStr "shown") HookExample.line) = VStr "shown".
Proof.
  apply (proj1 (@stale_chain_suppressed Z Sample.runtime
                  {| me_tag := "A"; own_tag := "B"; timing := "async"; keyPath := "text" |}
                  eq_refl)).
Defined.

Lemma fetch_ignores_endpoint_witness :
  exists q,
    requests (render (R := Sample.runtime) HookExample.invalid
                (HookExample.call "hi" true) initial) = [q] /\
    q_endpoint q = "localhost".
Proof.
  apply (@fetch_ignores_endpoint Z Sample.runtime HookExample.invalid
           (HookExample.call "hi" true) initial _ eq_refl eq_refl eq_refl eq_refl);
    [discriminate | reflexivity | reflexivity].
Defined.

(** ** The merge rule of the stream *)

Section Stream.

Variable number : Type.
Context {R : Runtime number}.

(** C2. Whatever text a listener has gathered and whatever fragment comes
    next: when the fragment contains the gathered text as a substring the
    fragment replaces it, otherwise the fragment is appended to it; so
    "Hello" merged with "Hello world" gives "Hello world", and "Hello"
    merged with " world" gives "Hello world" too. This is what a listener
    does with its text on every data line whose payload parses and whose
    extracted value has a text: the fragment is the text of the value found
    at the key path, or the empty string when that value is falsy. A value
    with no text (its [toString] throws) leaves the line without effect,
    as does every other error of the line. *)
Theorem accumulate_merge_rule (text fragment : string) :
  (Str.includes fragment text = true <-> exists a b, fragment = a ++ text ++ b) /\
  (Str.includes fragment text = true -> accumulate text fragment = fragment) /\
  (Str.includes fragment text = false -> accumulate text fragment = text ++ fragment) /\
  accumulate "Hello" "Hello world" = "Hello world" /\
  accumulate "Hello" " world" = "Hello world" /\
  (forall (c : chain) (shown : value number) (line : string)
          (jsonData found : value number),
     Str.startsWith line "data: [DONE]" = false ->
     Str.startsWith line "data: " = true ->
     JSON_parse (Str.skip 5 line) = Some jsonData ->
     get jsonData (keyPath c) None = Ret found ->
     (to_text (if truthy found then found else VStr "") = Ret fragment ->
      onLine c (text, shown) line =
      (accumulate text fragment,
       if me_tag c =? own_tag c then VStr (accumulate text fragment) else shown)) /\
     (forall e, to_text (if truthy found then found else VStr "") = Throw e ->
      onLine c (text, shown) line = (text, shown))) /\
  (forall s : string, to_text (VStr s : value number) = Ret s).
Proof.
  split; [apply StrFacts.includes_spec|].
  unfold accumulate.
  split; [now intros ->|]. split; [now intros ->|].
  split; [reflexivity|]. split; [reflexivity|].
  split; [|reflexivity].
  intros c shown line jsonData found Hdone Hdata Hparse Hget.
  unfold onLine, accumulate. rewrite Hdone, Hdata, Hparse, Hget.
  split; [intros -> | intros e ->]; reflexivity.
Qed.

End Stream.

Lemma accumulate_merge_rule_witness :
  accumulate "ab" "xaby" = "xaby" /\ accumulate "ab" "ba" = "abba" /\
  onLine (R := Sample.runtime)
    {| me_tag := "A"; own_tag := "A"; timing := "async"; keyPath := "text" |}
    ("Hel", VStr "Hel") HookExample.line = ("Hello", VStr "Hello") /\
  onLine (R := Sample.runtime)
    {| me_tag := "A"; own_tag := "A"; timing := "async"; keyPath := "text" |}
    ("Hel", VStr "Hel") StreamExample.textless = ("Hel", VStr "Hel").
Proof.
  split; [|split; [|split]].
  - apply (proj1 (proj2 (@accumulate_merge_rule Z Sample.runtime "ab" "xaby"))).
    reflexivity.
  - apply (proj1 (proj2 (proj2 (@accumulate_merge_rule Z Sample.runtime "ab" "ba")))).
    reflexivity.
  - etransitivity.
    + apply (proj1 (proj1 (proj2 (proj2 (proj2 (proj2 (proj2
        (@accumulate_merge_rule Z Sample.runtime "Hel" "Hello"))))))
        {| me_tag := "A"; own_tag := "A"; timing := "async"; keyPath := "text" |}
        (VStr "Hel") HookExample.line
        (VObj [("text", VStr "Hello")]) (VStr "Hello")
        eq_refl eq_refl eq_refl eq_refl)).
      reflexivity.
    + reflexivity.
  - apply (proj2 (proj1 (proj2 (proj2 (proj2 (proj2 (proj2
        (@accumulate_merge_rule Z Sample.runtime "Hel" ""))))))
        {| me_tag := "A"; own_tag := "A"; timing := "async"; keyPath := "text" |}
        (VStr "Hel") StreamExample.textless
        (VObj [("text", VObj [("toString", VNum 1%Z)])])
        (VObj [("toString", VNum 1%Z)])
        eq_refl eq_refl eq_refl eq_refl) TypeError).
    reflexivity.
Defined.

(** ** The command controls *)

Module UriFacts.
Import Uri Percent.

Lemma decode_encode_unit (c : ascii) (rest : string) :
  decode (encode_unit c ++ rest) = option_map (String c) (decode rest).
Proof.
  destruct c as [[] [] [] [] [] [] [] []]; reflexivity.
Qed.

Lemma decode_encodeURIComponent (s rest : string) :
  decode (encodeURIComponent s ++ rest) = option_map (append s) (decode rest).
Proof.
  induction s as [|c s IH]; simpl.
  - now destruct (decode rest).
  - rewrite StrFacts.append_assoc, decode_encode_unit, IH.
    now destruct (decode rest).
Qed.

End UriFacts.

(** X5. The link of a quicklink, with its escapes read back, is the base
    address followed by the arguments as text: the command's id under
    [commandName], as it is, and the placeholder of the query exactly when
    the prompt holds [{{input}}]. *)
Theorem quicklink_decodes (command : Command.t) :
  Percent.decode (CreateQuickLinkAction.link (CreateQuickLinkAction.quicklink command)) =
  Some ("raycast://extensions/HelloImSteven/promptlab/search-commands?arguments=" ++
        arguments_text (Command.id command) (asks_input command)) /\
  CreateQuickLinkAction.name (CreateQuickLinkAction.quicklink command) =
  Command.name command.
Proof.
  split; [|reflexivity].
  unfold CreateQuickLinkAction.quicklink, QUICKLINK_URL_BASE, arguments_text.
  cbn [CreateQuickLinkAction.link].
  fold (asks_input command).
  cbn -[Uri.encodeURIComponent].
  rewrite UriFacts.decode_encodeURIComponent.
  destruct (asks_input command); cbn; reflexivity.
Qed.

Lemma quicklink_decodes_example :
  CreateQuickLinkAction.link (CreateQuickLinkAction.quicklink CommandExample.summarize) =
  QUICKLINK_URL_BASE ++ "CM%221%20%C3%A9%22%2C%22queryInput%22%3A%22{Input}%22%7D".
Proof. reflexivity. Qed.

Module StorageFacts.
Import LocalStorage.

Lemma getItem_removeItem (key removed : string) (items : t) :
  getItem key (removeItem removed items) =
  if key =? removed then None else getItem key items.
Proof.
  induction items as [|[k v] items IH]; simpl.
  - now destruct (key =? removed).
  - destruct (String.eqb_spec k removed) as [-> | Hk]; simpl.
    + rewrite IH. destruct (String.eqb_spec key removed) as [-> | Hkey].
      * reflexivity.
      * destruct (String.eqb_spec removed key); congruence.
    + rewrite IH. destruct (String.eqb_spec k key) as [-> | Hkk].
      * destruct (String.eqb_spec key removed); congruence.
      * reflexivity.
Qed.

Lemma getItem_remove_all (key : string) (commands : list Command.t) (items : t) :
  getItem key
    (fold_left (fun items cmd => removeItem (Command.name cmd) items) commands items) =
  if names commands key then None else getItem key items.
Proof.
  revert items. induction commands as [|c commands IH]; intros items; simpl.
  - reflexivity.
  - rewrite IH, getItem_removeItem.
    rewrite (String.eqb_sym (Command.name c) key).
    destruct (key =? Command.name c); simpl; [|reflexivity].
    now destruct (names commands key).
Qed.

End StorageFacts.

(** X6. A confirmed [Delete Command] leaves in the list exactly the
    commands of the list it was rendered with that go by another name,
    removes the item kept under the command's name and no other item, and
    so keeps every listed command backed by its item when the commands it
    was rendered with were; a declined one changes nothing. *)
Theorem delete_command_effect (command : Command.t) (commands : list Command.t)
  (w : world) :
  (forall c, In c (installed (DeleteCommandAction.onAction command commands true w)) <->
             In c commands /\ Command.name c <> Command.name command) /\
  (forall key,
     LocalStorage.getItem key
       (stored (DeleteCommandAction.onAction command commands true w)) =
     if key =? Command.name command then None
     else LocalStorage.getItem key (stored w)) /\
  (backed (stored w) commands ->
   backed (stored (DeleteCommandAction.onAction command commands true w))
          (installed (DeleteCommandAction.onAction command commands true w))) /\
  DeleteCommandAction.onAction command commands false w = w.
Proof.
  assert (Hin : forall c,
            In c (installed (DeleteCommandAction.onAction command commands true w)) <->
            In c commands /\ Command.name c <> Command.name command).
  { intros c. cbn [DeleteCommandAction.onAction installed]. rewrite filter_In.
    destruct (String.eqb_spec (Command.name c) (Command.name command)); simpl;
      intuition congruence. }
  assert (Hget : forall key,
            LocalStorage.getItem key
              (stored (DeleteCommandAction.onAction command commands true w)) =
            if key =? Command.name command then None
            else LocalStorage.getItem key (stored w)).
  { intros key. apply StorageFacts.getItem_removeItem. }
  split; [exact Hin|]. split; [exact Hget|]. split; [|reflexivity].
  intros Hb c Hc. apply Hin in Hc as [Hc Hne]. rewrite Hget.
  destruct (String.eqb_spec (Command.name c) (Command.name command)); [contradiction|].
  now apply Hb.
Qed.

Lemma delete_command_effect_witness :
  backed (stored (DeleteCommandAction.onAction CommandExample.summarize
                    [CommandExample.summarize; CommandExample.translate] true
                    {| stored := CommandExample.storage;
                       installed := [CommandExample.summarize; CommandExample.translate] |}))
         [CommandExample.translate].
Proof.
  apply (proj1 (proj2 (proj2
    (delete_command_effect CommandExample.summarize
       [CommandExample.summarize; CommandExample.translate]
       {| stored := CommandExample.storage;
          installed := [CommandExample.summarize; CommandExample.translate] |})))).
  intros c [<- | [<- | []]]; discriminate.
Defined.

(** X7. A confirmed [Delete All Commands] empties the list and removes
    from the storage the items kept under the names of the commands it was
    rendered with, and no other item; a declined one changes nothing. *)
Theorem delete_all_commands_effect (commands : list Command.t) (w : world) :
  installed (DeleteAllCommandsAction.onAction commands true w) = [] /\
  (forall key,
     LocalStorage.getItem key
       (stored (DeleteAllCommandsAction.onAction commands true w)) =
     if names commands key then None else LocalStorage.getItem key (stored w)) /\
  DeleteAllCommandsAction.onAction commands false w = w.
Proof.
  split; [reflexivity|]. split; [|reflexivity].
  intros key. apply StorageFacts.getItem_remove_all.
Qed.

(** ** The hook on the managed service *)

Section Managed.

Variable number : Type.
Context {R : Runtime number}.

Local Abbreviation state := (state number).

Lemma modelSchema_managed (e : Env.t) (a : Args.t) :
  raycastModel e a = true -> exists schema, modelSchema e a = Ret schema.
Proof.
  intros Hr. unfold modelSchema. rewrite Hr.
  destruct (_ || _); cbn [set_member]; eauto.
Qed.

Lemma render_managed (e : Env.t) (a : Args.t) (s : state) :
  raycastModel e a = true ->
  render e a s = s \/
  render e a s =
  setDeps (Args.execute a, Args.basePrompt a, Args.input a, Args.prompt a) s.
Proof.
  intros Hr. unfold render.
  destruct (modelSchema_managed e a Hr) as [schema ->].
  destruct (same_deps _ _); [now left | right].
  unfold effect. now rewrite Hr.
Qed.

Lemma untouched_step (s : state) (ev : event) :
  managed_event ev = true -> untouched s -> untouched (step s ev).
Proof.
  intros Hev (Hd & He & Ht & Hl & Ha & Hq).
  destruct ev as [e a| |id ok|id|id text|id text]; cbn [step].
  - destruct (render_managed e a s Hev) as [-> | ->]; repeat split; assumption.
  - unfold stopModel. rewrite Ha. repeat split; assumption.
  - unfold respond. rewrite Hq. destruct id; repeat split; assumption.
  - unfold reject. rewrite Hq. destruct id; repeat split; assumption.
  - unfold chunk. rewrite Hq. destruct id; repeat split; assumption.
  - unfold body. rewrite Hq. destruct id; repeat split; assumption.
Qed.

Lemma untouched_fold (evs : list event) (s : state) :
  forallb managed_event evs = true -> untouched s ->
  untouched (fold_left (@step number R) evs s).
Proof.
  revert s. induction evs as [|ev evs IH]; intros s Hevs Hs; [assumption|].
  simpl in Hevs. apply andb_true_iff in Hevs as [Hev Hevs].
  simpl. apply IH; [assumption|]. now apply untouched_step.
Qed.

(** X8. A hook that is rendered for the managed service only never calls
    [fetch]: whatever the events, no request is issued, nothing is put in
    [AIRef.current], and [data], [error], [dataTag] and [isLoading] stay as
    they were set at the start. *)
Theorem managed_never_fetches (evs : list event) :
  forallb managed_event evs = true ->
  requests (run evs) = [] /\ AIRef (run evs) = None /\
  data (run evs) = VStr "" /\ error (run evs) = None /\
  dataTag (run evs) = "" /\ isLoading (run evs) = false.
Proof.
  intros Hevs.
  destruct (untouched_fold evs initial Hevs) as (Hd & He & Ht & Hl & Ha & Hq).
  - repeat split.
  - repeat split; assumption.
Qed.

(** X9. The result for a model that names the managed service, with the
    registry loaded and a prompt or a base prompt given, on a hook that is
    rendered for the managed service only: with access to the service it is
    what [useAI] hands back for the prefixed prompt, with the variant
    [gpt-3.5-turbo] for the endpoint spelled [Raycast AI 3.5] and
    [text-davinci-003] for every other spelling, under the tag of the call;
    without access it is loading, with no data, no error and no tag,
    whatever has happened. *)
Theorem managed_result (evs : list event) (e : Env.t) (a : Args.t) :
  forallb managed_event evs = true ->
  namesRaycastAI (Model.endpoint (target e a)) = true ->
  Models.isLoading (Env.models e) = false ->
  ~ (Args.basePrompt a = "" /\ Args.prompt a = "") ->
  useModel (run evs) e a =
  Ret (if Env.canAccessAI e then
         let ai :=
           useAI (Pref.promptPrefix (Env.preferences e) ++ Args.prompt a ++
                  Pref.promptSuffix (Env.preferences e))
                 (Args.execute a) (temp e a)
                 (if Model.endpoint (target e a) =? "Raycast AI 3.5"
                  then "gpt-3.5-turbo" else "text-davinci-003") in
         {| Result.data := VStr (AI.data ai);
            Result.isLoading := AI.isLoading ai;
            Result.error := AI.error ai;
            Result.dataTag := tag a |}
       else
         {| Result.data := VStr "";
            Result.isLoading := true;
            Result.error := None;
            Result.dataTag := "" |}).
Proof.
  intros Hevs Hn Hl Hne.
  destruct (untouched_fold evs initial Hevs) as (Hd & He & Ht & _);
    [repeat split|].
  assert (Hr : raycastModel e a = true) by (unfold raycastModel; now rewrite Hn).
  unfold useModel, run. destruct (modelSchema_managed e a Hr) as [schema ->].
  rewrite Hn, Hl, Hd, He, Ht.
  destruct ((String.length (Args.basePrompt a) =? 0)%nat &&
            (String.length (Args.prompt a) =? 0)%nat) eqn:Hz.
  - apply andb_true_iff in Hz as [Hb Hp]. apply length_zero in Hb, Hp. tauto.
  - reflexivity.
Qed.

End Managed.

Lemma managed_never_fetches_witness :
  requests (run (R := Sample.runtime)
              [Render HookExample.managed (HookExample.call "hi" true);
               StopModel; Respond 0 true; Chunk 0 HookExample.line;
               Render HookExample.managed (HookExample.call "more" true)]) = [].
Proof.
  apply (@managed_never_fetches Z Sample.runtime
           [Render HookExample.managed (HookExample.call "hi" true);
            StopModel; Respond 0 true; Chunk 0 HookExample.line;
            Render HookExample.managed (HookExample.call "more" true)] eq_refl).
Defined.

Lemma managed_result_witness :
  useModel (R := Sample.runtime)
    (run (R := Sample.runtime) [Render HookExample.managed (HookExample.call "hi" true)])
    HookExample.managed (HookExample.call "hi" true) =
  Ret {| Result.data := VStr ""; Result.isLoading := true;
         Result.error := None; Result.dataTag := "" |}.
Proof.
  apply (@managed_result Z Sample.runtime
           [Render HookExample.managed (HookExample.call "hi" true)]
           HookExample.managed (HookExample.call "hi" true) eq_refl eq_refl eq_refl).
  intros [_ H]. discriminate H.
Defined.

(** ** The temperature of a request *)

Section Temperature.

Variable number : Type.
Context {R : Runtime number}.

Local Abbreviation value := (value number).

Lemma assoc_assoc_set (key : string) (x : value) (props : list (string * value)) :
  assoc key (assoc_set key x props) = Some x.
Proof.
  induction props as [|[k v] props IH]; simpl.
  - now rewrite String.eqb_refl.
  - destruct (k =? key) eqn:Hk; simpl; now rewrite Hk.
Qed.

Lemma assoc_assoc_set_other (key other : string) (x : value)
  (props : list (string * value)) :
  other <> key -> assoc other (assoc_set key x props) = assoc other props.
Proof.
  intros Hne. induction props as [|[k v] props IH]; simpl.
  - destruct (String.eqb_spec key other); congruence.
  - destruct (String.eqb_spec k key) as [-> | Hk]; simpl.
    + destruct (String.eqb_spec key other); congruence.
    + now rewrite IH.
Qed.

(** X10. For a model that is not the managed service and a template that
    parses, once filled in, to [parsed]:
    - with the temperature neither included by the preferences nor an
      override given, the schema of the request is [parsed], as it is;
    - otherwise, when [parsed] is an object, the schema is that object with
      its member [temperature] set to the temperature of the call, whatever
      the template gave it, and every other member as the template gave it;
    - otherwise, when [parsed] is [null], the call throws a TypeError and
      the render commits nothing.
    The temperature of the call is, with an override, what [parseFloat]
    makes of the override's own temperature; without one it is 1.0 unless
    the preferences include it and the argument parses to a truthy
    number, which it then is. *)
Theorem temperature_member (e : Env.t) (a : Args.t) (parsed : value) :
  raycastModel e a = false ->
  JSON_parse (filledSchema e a) = Some parsed ->
  (sets_temperature e a = false -> modelSchema e a = Ret parsed) /\
  (sets_temperature e a = true -> forall props, parsed = VObj props ->
     exists props',
       modelSchema e a = Ret (VObj props') /\
       assoc "temperature" props' = Some (VNum (temp e a)) /\
       forall key, key <> "temperature" -> assoc key props' = assoc key props) /\
  (sets_temperature e a = true -> parsed = VNull ->
     forall s, useModel s e a = Throw TypeError /\ render e a s = s) /\
  (forall m, Args.modelOverride a = Some m ->
     temp e a = parseFloat (Model.temperature m)) /\
  (Args.modelOverride a = None ->
     temp e a = num_one \/
     (Pref.includeTemperature (Env.preferences e) = true /\
      temp e a = parseFloat (Args.temperature a) /\ num_truthy (temp e a) = true)).
Proof.
  intros Hr Hp.
  assert (Hm : modelSchema e a =
               if sets_temperature e a
               then set_member parsed "temperature" (VNum (temp e a))
               else Ret parsed).
  { unfold modelSchema, sets_temperature. now rewrite Hr, Hp. }
  split; [|split; [|split; [|split]]].
  - intros Hs. now rewrite Hm, Hs.
  - intros Hs props ->. rewrite Hm, Hs. cbn [set_member].
    eexists. split; [reflexivity|]. split.
    + apply assoc_assoc_set.
    + intros key Hkey. now apply assoc_assoc_set_other.
  - intros Hs -> s. unfold useModel, render. rewrite Hm, Hs. now cbn [set_member].
  - intros m Ho. unfold temp, target, targetModel. now rewrite Ho.
  - intros Ho. unfold temp. rewrite Ho.
    destruct (Pref.includeTemperature (Env.preferences e)); [|now left].
    cbv zeta. destruct (num_truthy (parseFloat (Args.temperature a))) eqn:Ht;
      [right | now left].
    repeat split; assumption.
Qed.

End Temperature.

Lemma temperature_member_witness :
  exists props',
    modelSchema (R := Sample.runtime) HookExample.streaming
      (TemperatureExample.call "hi") = Ret (VObj props') /\
    assoc "temperature" props' = Some (VNum 2%Z) /\
    forall key, key <> "temperature" ->
      assoc key props' = assoc key [("prompt", VStr "hi")].
Proof.
  apply (proj1 (proj2
    (@temperature_member Z Sample.runtime HookExample.streaming
       (TemperatureExample.call "hi") (VObj [("prompt", VStr "hi")])
       eq_refl eq_refl)) eq_refl [("prompt", VStr "hi")] eq_refl).
Defined.

(** ** The lines of a stream *)

Section Lines.

Variable number : Type.
Context {R : Runtime number}.

Local Abbreviation state := (state number).
Local Abbreviation value := (value number).

Lemma includes_length (s t : string) :
  Str.includes s t = true -> String.length t <= String.length s.
Proof.
  intros H. apply StrFacts.includes_spec in H as (a & b & ->).
  rewrite !KeyPathFacts.length_append. lia.
Qed.

Lemma accumulate_length (text fragment : string) :
  String.length text <= String.length (accumulate text fragment).
Proof.
  unfold accumulate. destruct (Str.includes fragment text) eqn:Hi.
  - now apply includes_length.
  - rewrite KeyPathFacts.length_append. lia.
Qed.

Lemma onLine_length (c : chain) (acc : string * value) (line : string) :
  String.length (fst acc) <= String.length (fst (onLine c acc line)).
Proof.
  destruct acc as [text shown]. unfold onLine.
  destruct (Str.startsWith line "data: [DONE]"); [reflexivity|].
  destruct (Str.startsWith line "data: "); [|reflexivity].
  destruct (JSON_parse _); [|reflexivity].
  destruct (get _ _ _); [|reflexivity].
  destruct (to_text _); [|reflexivity].
  apply accumulate_length.
Qed.

(** X11. The text a listener gathers never gets shorter: each merge gives
    a text at least as long as the one before, which ends with the fragment
    merged in, and so whatever lines a listener reads, its text is at least
    as long after them as before. *)
Theorem stream_text_never_shrinks :
  (forall text fragment,
     String.length text <= String.length (accumulate text fragment) /\
     exists before, accumulate text fragment = before ++ fragment) /\
  (forall (c : chain) (lines : list string) (text : string) (shown : value),
     String.length text <=
     String.length (fst (fold_left (onLine c) lines (text, shown)))).
Proof.
  split.
  - intros text fragment. split; [apply accumulate_length|].
    unfold accumulate. destruct (Str.includes fragment text).
    + now exists "".
    + now exists text.
  - intros c lines. induction lines as [|line lines IH]; intros text shown.
    + reflexivity.
    + cbn [fold_left]. pose proof (onLine_length c (text, shown) line) as H.
      destruct (onLine c (text, shown) line) as [text1 shown1].
      specialize (IH text1 shown1). cbn [fst] in H. lia.
Qed.

(** *** Lines that are passed over *)

Lemma onLine_passed_over (c : chain) (acc : string * value) (line : string) :
  passed_over line = true -> onLine c acc line = acc.
Proof.
  unfold passed_over, onLine. destruct acc as [text shown].
  destruct (Str.startsWith line "data: [DONE]"); [reflexivity|].
  now destruct (Str.startsWith line "data: ").
Qed.

Lemma fold_passed_over (c : chain) (lines : list string) (acc : string * value) :
  forallb passed_over lines = true -> fold_left (onLine c) lines acc = acc.
Proof.
  induction lines as [|line lines IH]; intros H; [reflexivity|].
  simpl in H. apply andb_true_iff in H as [H1 H2].
  simpl. rewrite onLine_passed_over by assumption. now apply IH.
Qed.

Lemma deliver_passed_over (text : string) (ls : list listener) (shown : value) :
  forallb passed_over (Str.split newline text) = true ->
  deliver text ls shown = (ls, shown).
Proof.
  intros H. induction ls as [|[c t] ls IH]; [reflexivity|].
  cbn [deliver l_chain l_text]. rewrite fold_passed_over by assumption.
  now rewrite IH.
Qed.

Lemma change_same (id : nat) (f : request -> request) (qs : list request) (q : request) :
  nth_error qs id = Some q -> f q = q -> change id f qs = qs.
Proof.
  revert id. induction qs as [|x qs IH]; intros [|id] Hq Hf; simpl in *;
    try discriminate.
  - injection Hq as ->. now rewrite Hf.
  - now rewrite (IH id Hq Hf).
Qed.

Lemma change_change (id : nat) (f g : request -> request) (qs : list request) :
  change id f (change id g qs) = change id (fun q => f (g q)) qs.
Proof.
  revert id. induction qs as [|x qs IH]; intros [|id]; simpl; try reflexivity.
  now rewrite IH.
Qed.

(** X12. A chunk in which every line is the end marker [data: [DONE]] or
    does not start with [data: ] (a comment, a blank line, a field of
    another name, the rest of a line that was cut) changes nothing: not
    [data], not the text of any listener. *)
Theorem chunk_passed_over (id : nat) (text : string) (s : state) :
  forallb passed_over (Str.split newline text) = true ->
  chunk id text s = s.
Proof.
  intros H. unfold chunk.
  destruct (nth_error (requests s) id) as [q|] eqn:Hq; [|reflexivity].
  destruct (flowing q); [|reflexivity].
  rewrite deliver_passed_over by assumption.
  unfold onRequest. rewrite (change_same id _ (requests s) q Hq) by now destruct q.
  now destruct s.
Qed.

(** *** Chunks cut at a line break *)

Lemma split_not_nil (sep : ascii) (s : string) : Str.split sep s <> [].
Proof.
  destruct s as [|c s]; simpl; [discriminate|].
  destruct (Ascii.eqb c sep); [discriminate|].
  destruct (Str.split sep s); discriminate.
Qed.

Lemma split_app (sep : ascii) (a b : string) :
  Str.split sep (a ++ String sep b) = (Str.split sep a ++ Str.split sep b)%list.
Proof.
  induction a as [|c a IH]; simpl.
  - now rewrite Ascii.eqb_refl.
  - destruct (Ascii.eqb c sep); [now rewrite IH|].
    rewrite IH. pose proof (split_not_nil sep a) as Hne.
    now destruct (Str.split sep a).
Qed.

Lemma deliver_split (a b : string) (l : listener) (shown : value) :
  deliver (a ++ String newline b) [l] shown =
  deliver b (fst (deliver a [l] shown)) (snd (deliver a [l] shown)).
Proof.
  cbn [deliver]. rewrite split_app, fold_left_app.
  destruct (fold_left (onLine (l_chain l)) (Str.split newline a) (l_text l, shown))
    as [text1 shown1].
  reflexivity.
Qed.

(** X13. Where a stream is cut into chunks does not matter as long as it is
    cut at line breaks: for a request with at most one listener, a chunk
    made of two texts with a line break between them does what the two
    texts do as one chunk after the other. *)
Theorem chunk_cut_at_line_break (id : nat) (a b : string) (s : state) (q : request) :
  nth_error (requests s) id = Some q ->
  List.length (q_listeners q) <= 1 ->
  chunk id (a ++ String newline b) s = chunk id b (chunk id a s).
Proof.
  intros Hq Hone. unfold chunk at 1 3. rewrite Hq.
  destruct (flowing q) eqn:Hf.
  2:{ unfold chunk. now rewrite Hq, Hf. }
  assert (Hstep : forall ls1 shown1 ls2 shown2,
            deliver a (q_listeners q) (data s) = (ls1, shown1) ->
            deliver b ls1 shown1 = (ls2, shown2) ->
            deliver (a ++ String newline b) (q_listeners q) (data s) = (ls2, shown2)).
  { intros ls1 shown1 ls2 shown2 H1 H2.
    destruct (q_listeners q) as [|l [|l' ls]]; [| |simpl in Hone; lia].
    - cbn [deliver] in *. injection H1 as <- <-. exact H2.
    - rewrite deliver_split, H1. exact H2. }
  destruct (deliver a (q_listeners q) (data s)) as [ls1 shown1] eqn:H1.
  destruct (deliver b ls1 shown1) as [ls2 shown2] eqn:H2.
  rewrite (Hstep ls1 shown1 ls2 shown2 eq_refl H2).
  unfold chunk, onRequest.
  cbn [requests setData setRequests data].
  rewrite nth_error_change, Nat.eqb_refl, Hq. cbn [option_map].
  assert (Hf' : flowing (withListeners ls1 q) = true) by exact Hf.
  rewrite Hf'. cbn [q_listeners withListeners]. rewrite H2.
  rewrite change_change. destruct s; reflexivity.
Qed.

End Lines.

Lemma chunk_passed_over_witness :
  chunk (R := Sample.runtime) 0 StreamExample.nothing
    (run (R := Sample.runtime)
       [Render HookExample.streaming (HookExample.call "hi" true); Respond 0 true]) =
  run (R := Sample.runtime)
    [Render HookExample.streaming (HookExample.call "hi" true); Respond 0 true].
Proof.
  apply (@chunk_passed_over Z Sample.runtime 0 StreamExample.nothing
           (run (R := Sample.runtime)
              [Render HookExample.streaming (HookExample.call "hi" true); Respond 0 true])
           eq_refl).
Defined.

Lemma chunk_cut_at_line_break_witness :
  data (chunk (R := Sample.runtime) 0
          (StreamExample.first ++ String newline StreamExample.second)
          (run (R := Sample.runtime)
             [Render HookExample.streaming (HookExample.call "hi" true); Respond 0 true])) =
  data (run (R := Sample.runtime)
          [Render HookExample.streaming (HookExample.call "hi" true); Respond 0 true;
           Chunk 0 StreamExample.first; Chunk 0 StreamExample.second]).
Proof.
  apply (f_equal (@data Z)).
  eapply (@chunk_cut_at_line_break Z Sample.runtime 0 StreamExample.first
            StreamExample.second
            (run (R := Sample.runtime)
               [Render HookExample.streaming (HookExample.call "hi" true); Respond 0 true])).
  - reflexivity.
  - simpl. lia.
Defined.

(** ** One request from dispatch to data *)

Section OneRequestFacts.

Variable number : Type.
Context {R : Runtime number}.

Local Abbreviation state := (state number).
Local Abbreviation value := (value number).
Local Abbreviation mounted := (@mounted number).

Lemma run_app (evs more : list event) :
  run (evs ++ more) = fold_left (@step number R) more (run evs).
Proof. unfold run. apply fold_left_app. Qed.

Lemma render_initial (e : Env.t) (a : Args.t) (schema : value) :
  issues e a schema ->
  render e a initial =
  mounted a (VStr "") "" true (sent e a schema Pending [Handle (own_chain e a)] [] Unread).
Proof.
  intros (Hr & Hx & Hp & Hm). unfold render. rewrite Hm.
  cbn [same_deps deps initial]. unfold effect, mounted. rewrite Hr, Hx.
  assert (Hpos : (0 <? String.length (Args.prompt a))%nat = true).
  { destruct (Args.prompt a); [congruence | reflexivity]. }
  cbn [orb negb andb AIRef isLoading requests setDeps initial]. rewrite Hpos.
  reflexivity.
Qed.

Lemma not_managed_name (e : Env.t) (a : Args.t) :
  raycastModel e a = false -> namesRaycastAI (Model.endpoint (target e a)) = false.
Proof.
  unfold raycastModel. intros H.
  apply orb_false_iff in H as [H _]. now apply orb_false_iff in H as [H _].
Qed.

Lemma not_both_empty (a : Args.t) :
  Args.prompt a <> "" ->
  (String.length (Args.basePrompt a) =? 0)%nat &&
  (String.length (Args.prompt a) =? 0)%nat = false.
Proof.
  intros Hp. destruct (Args.prompt a); [congruence|]. apply andb_false_r.
Qed.

(** The result for a model of the user's own, with the registry loaded. *)
Lemma useModel_custom (e : Env.t) (a : Args.t) (schema : value) (s : state) :
  issues e a schema ->
  Models.isLoading (Env.models e) = false ->
  Str.includes (Model.endpoint (target e a)) ":" = true ->
  useModel s e a =
  Ret {| Result.data := data s; Result.isLoading := isLoading s;
         Result.error := error s; Result.dataTag := dataTag s |}.
Proof.
  intros (Hr & Hx & Hp & Hm) Hl Hc. unfold useModel.
  rewrite Hm, (not_managed_name e a Hr), Hl, Hc, (not_both_empty a Hp).
  reflexivity.
Qed.

Lemma respond_failed (e : Env.t) (a : Args.t) (schema : value) :
  respond 0 false
    (mounted a (VStr "") "" true
       (sent e a schema Pending [Handle (own_chain e a)] [] Unread)) =
  mounted a (VStr "") "" false (sent e a schema (Responded false) [] [] Unread).
Proof.
  unfold respond. cbn [nth_error requests mounted q_status sent q_reactions fold_left].
  unfold runThen, runFinally, onResponse, onSettled. cbn [andb me_tag own_tag own_chain].
  now rewrite String.eqb_refl.
Qed.

Lemma reject_sent (e : Env.t) (a : Args.t) (schema : value) :
  reject 0
    (mounted a (VStr "") "" true
       (sent e a schema Pending [Handle (own_chain e a)] [] Unread)) =
  report (FetchFailed 0)
    (mounted a (VStr "") "" false (sent e a schema Rejected [] [] Unread)).
Proof.
  unfold reject. cbn [nth_error requests mounted q_status sent q_reactions fold_left].
  unfold runRejected, onSettled. cbn [andb me_tag own_tag own_chain].
  now rewrite String.eqb_refl.
Qed.

(** X14. A request that fails sets no error: when [fetch] is rejected,
    and when the response is not OK, the hook stops loading with [data],
    [error] and [dataTag] as they were before the request, and for a model
    of the user's own the call returns an empty text with no error. The one
    trace of a rejected [fetch] is a promise rejection that nothing
    handles, the chain ending in [finally] with no [catch]; a response that
    is not OK leaves none. *)
Theorem failure_sets_no_error (e : Env.t) (a : Args.t) (schema : value) :
  issues e a schema ->
  (data (run [Render e a; Reject 0]) = VStr "" /\
   error (run [Render e a; Reject 0]) = None /\
   dataTag (run [Render e a; Reject 0]) = "" /\
   isLoading (run [Render e a; Reject 0]) = false /\
   unhandled (run [Render e a; Reject 0]) = [FetchFailed 0]) /\
  (data (run [Render e a; Respond 0 false]) = VStr "" /\
   error (run [Render e a; Respond 0 false]) = None /\
   dataTag (run [Render e a; Respond 0 false]) = "" /\
   isLoading (run [Render e a; Respond 0 false]) = false /\
   unhandled (run [Render e a; Respond 0 false]) = []) /\
  (Models.isLoading (Env.models e) = false ->
   Str.includes (Model.endpoint (target e a)) ":" = true ->
   useModel (run [Render e a; Reject 0]) e a =
   Ret {| Result.data := VStr ""; Result.isLoading := false;
          Result.error := None; Result.dataTag := "" |} /\
   useModel (run [Render e a; Respond 0 false]) e a =
   Ret {| Result.data := VStr ""; Result.isLoading := false;
          Result.error := None; Result.dataTag := "" |}).
Proof.
  intros Hi.
  assert (Hreject : run [Render e a; Reject 0] =
            report (FetchFailed 0)
              (mounted a (VStr "") "" false (sent e a schema Rejected [] [] Unread))).
  { unfold run. cbn [fold_left step].
    now rewrite (render_initial e a schema Hi), reject_sent. }
  assert (Hfailed : run [Render e a; Respond 0 false] =
            mounted a (VStr "") "" false (sent e a schema (Responded false) [] [] Unread)).
  { unfold run. cbn [fold_left step].
    now rewrite (render_initial e a schema Hi), respond_failed. }
  rewrite Hreject, Hfailed.
  split; [repeat split|]. split; [repeat split|].
  intros Hl Hc. now rewrite !(useModel_custom e a schema _ Hi Hl Hc).
Qed.

(** *** A stream *)

Lemma onLine_own (c : chain) (text line : string) :
  (me_tag c =? own_tag c) = true ->
  snd (onLine c (text, VStr text) line) = VStr (fst (onLine c (text, VStr text) line)).
Proof.
  intros Hc. unfold onLine.
  destruct (Str.startsWith line "data: [DONE]"); [reflexivity|].
  destruct (Str.startsWith line "data: "); [|reflexivity].
  destruct (JSON_parse _); [|reflexivity].
  destruct (get _ _ _); [|reflexivity].
  destruct (to_text _); [|reflexivity].
  now rewrite Hc.
Qed.

Lemma fold_own (c : chain) (lines : list string) (text : string) :
  (me_tag c =? own_tag c) = true ->
  fold_left (onLine c) lines (text, VStr text) =
  (text_after c lines text, VStr (text_after c lines text)).
Proof.
  intros Hc. unfold text_after. revert text.
  induction lines as [|line lines IH]; intros text; [reflexivity|].
  cbn [fold_left]. pose proof (onLine_own c text line Hc) as H.
  destruct (onLine c (text, VStr text) line) as [text1 shown1].
  cbn [fst snd] in H. subst shown1. apply IH.
Qed.

Lemma text_after_app (c : chain) (lines more : list string) (text : string) :
  (me_tag c =? own_tag c) = true ->
  text_after c (lines ++ more) text = text_after c more (text_after c lines text).
Proof.
  intros Hc. unfold text_after at 1. rewrite fold_left_app, (fold_own c lines text Hc).
  reflexivity.
Qed.

Lemma respond_async (e : Env.t) (a : Args.t) (schema : value) :
  Model.outputTiming (target e a) = "async" ->
  respond 0 true
    (mounted a (VStr "") "" true
       (sent e a schema Pending [Handle (own_chain e a)] [] Unread)) =
  mounted a (VStr "") (tag a) false
    (sent e a schema (Responded true) []
       [{| l_chain := own_chain e a; l_text := "" |}] Unread).
Proof.
  intros Ht. unfold respond.
  cbn [nth_error requests mounted q_status sent q_reactions fold_left].
  unfold runThen, runFinally, onResponse, onSettled.
  cbn [andb me_tag own_tag own_chain timing]. rewrite Ht, String.eqb_refl.
  reflexivity.
Qed.

Lemma chunk_streaming (e : Env.t) (a : Args.t) (schema : value) (text chunk_text : string) :
  chunk 0 chunk_text
    (mounted a (VStr text) (tag a) false
       (sent e a schema (Responded true) []
          [{| l_chain := own_chain e a; l_text := text |}] Unread)) =
  mounted a (VStr (text_after (own_chain e a) (Str.split newline chunk_text) text))
    (tag a) false
    (sent e a schema (Responded true) []
       [{| l_chain := own_chain e a;
           l_text := text_after (own_chain e a) (Str.split newline chunk_text) text |}]
       Unread).
Proof.
  unfold chunk. cbn [nth_error requests mounted flowing q_status sent q_closed negb].
  cbn [q_listeners sent deliver l_chain l_text data mounted].
  rewrite fold_own by apply String.eqb_refl.
  reflexivity.
Qed.

Lemma chunks_streaming (e : Env.t) (a : Args.t) (schema : value)
  (chunks : list string) (text : string) :
  fold_left (@step number R) (map (Chunk 0) chunks)
    (mounted a (VStr text) (tag a) false
       (sent e a schema (Responded true) []
          [{| l_chain := own_chain e a; l_text := text |}] Unread)) =
  mounted a
    (VStr (text_after (own_chain e a) (flat_map (Str.split newline) chunks) text))
    (tag a) false
    (sent e a schema (Responded true) []
       [{| l_chain := own_chain e a;
           l_text := text_after (own_chain e a)
                       (flat_map (Str.split newline) chunks) text |}]
       Unread).
Proof.
  revert text. induction chunks as [|chunk_text chunks IH]; intros text.
  - reflexivity.
  - cbn [map fold_left step flat_map]. rewrite chunk_streaming, IH.
    now rewrite text_after_app by apply String.eqb_refl.
Qed.

(** X15. One request of a streaming model, from dispatch to data: after
    the render that issues it, an OK response and any chunks, [data] is the
    text obtained by merging, line after line in the order of arrival, the
    fragments of all the lines of all the chunks; [dataTag] is the tag of
    the call; [isLoading] is false from the response on, before any chunk
    has arrived; and for a model of the user's own, with the registry
    loaded, this is what the call returns, with no error. *)
Theorem stream_shows_merged_lines (e : Env.t) (a : Args.t) (schema : value)
  (chunks : list string) :
  issues e a schema ->
  Model.outputTiming (target e a) = "async" ->
  data (run ([Render e a; Respond 0 true] ++ map (Chunk 0) chunks)) =
    VStr (fst (fold_left (onLine (own_chain e a))
                 (flat_map (Str.split newline) chunks) ("", VStr ""))) /\
  dataTag (run ([Render e a; Respond 0 true] ++ map (Chunk 0) chunks)) = tag a /\
  isLoading (run ([Render e a; Respond 0 true] ++ map (Chunk 0) chunks)) = false /\
  error (run ([Render e a; Respond 0 true] ++ map (Chunk 0) chunks)) = None /\
  List.length (requests (run ([Render e a; Respond 0 true] ++ map (Chunk 0) chunks))) = 1 /\
  (Models.isLoading (Env.models e) = false ->
   Str.includes (Model.endpoint (target e a)) ":" = true ->
   useModel (run ([Render e a; Respond 0 true] ++ map (Chunk 0) chunks)) e a =
   Ret {| Result.data :=
            VStr (fst (fold_left (onLine (own_chain e a))
                         (flat_map (Str.split newline) chunks) ("", VStr "")));
          Result.isLoading := false;
          Result.error := None;
          Result.dataTag := tag a |}).
Proof.
  intros Hi Ht.
  assert (Hrun : run ([Render e a; Respond 0 true] ++ map (Chunk 0) chunks) =
            mounted a
              (VStr (text_after (own_chain e a) (flat_map (Str.split newline) chunks) ""))
              (tag a) false
              (sent e a schema (Responded true) []
                 [{| l_chain := own_chain e a;
                     l_text := text_after (own_chain e a)
                                 (flat_map (Str.split newline) chunks) "" |}]
                 Unread)).
  { rewrite run_app. unfold run. cbn [fold_left step].
    rewrite (render_initial e a schema Hi), (respond_async e a schema Ht).
    apply chunks_streaming. }
  rewrite Hrun. repeat split.
  intros Hl Hc. now rewrite (useModel_custom e a schema _ Hi Hl Hc).
Qed.

(** *** A body read at once *)

Lemma respond_sync (e : Env.t) (a : Args.t) (schema : value) :
  Model.outputTiming (target e a) = "sync" ->
  respond 0 true
    (mounted a (VStr "") "" true
       (sent e a schema Pending [Handle (own_chain e a)] [] Unread)) =
  mounted a (VStr "") "" false
    (sent e a schema (Responded true) [] []
       (Reading (Model.outputKeyPath (target e a)))).
Proof.
  intros Ht. unfold respond.
  cbn [nth_error requests mounted q_status sent q_reactions fold_left].
  unfold runThen, runFinally, onResponse, onSettled.
  cbn [andb me_tag own_tag own_chain timing]. rewrite Ht, String.eqb_refl.
  reflexivity.
Qed.

Lemma body_reading (e : Env.t) (a : Args.t) (schema : value) (path text : string) :
  body 0 text
    (mounted a (VStr "") "" false
       (sent e a schema (Responded true) [] [] (Reading path))) =
  match JSON_parse text with
  | Some json =>
      match get json path None with
      | Ret output =>
          mounted a output "" false (sent e a schema (Responded true) [] [] Read)
      | Throw x =>
          report (BodyFailed 0 x)
            (mounted a (VStr "") "" false (sent e a schema (Responded true) [] [] Read))
      end
  | None =>
      report (BodyFailed 0 SyntaxError)
        (mounted a (VStr "") "" false (sent e a schema (Responded true) [] [] Read))
  end.
Proof.
  unfold body.
  cbn [nth_error requests mounted flowing q_status sent q_closed negb q_reader].
  destruct (JSON_parse text) as [json|]; [|reflexivity].
  destruct (get json path None); reflexivity.
Qed.

(** X16. One request of a model that answers at once, from dispatch to
    data: after the render that issues it and an OK response, [isLoading]
    is false while [data] is still empty; when the body has been read,
    [data] is what the key path finds in the decoded body, whatever kind of
    value that is ([undefined] for a path that is missing), and stays
    empty when the body is no JSON or the extractor throws; [dataTag] is
    never set, no error is reported, and a body is read once. For a model
    of the user's own, with the registry loaded, this is what the call
    returns. *)
Theorem body_shows_extracted (e : Env.t) (a : Args.t) (schema : value) (text : string) :
  issues e a schema ->
  Model.outputTiming (target e a) = "sync" ->
  (data (run [Render e a; Respond 0 true]) = VStr "" /\
   isLoading (run [Render e a; Respond 0 true]) = false) /\
  data (run [Render e a; Respond 0 true; Body 0 text]) =
    match JSON_parse text with
    | Some json =>
        match get json (Model.outputKeyPath (target e a)) None with
        | Ret output => output
        | Throw _ => VStr ""
        end
    | None => VStr ""
    end /\
  dataTag (run [Render e a; Respond 0 true; Body 0 text]) = "" /\
  isLoading (run [Render e a; Respond 0 true; Body 0 text]) = false /\
  error (run [Render e a; Respond 0 true; Body 0 text]) = None /\
  (forall again,
     step (run [Render e a; Respond 0 true; Body 0 text]) (Body 0 again) =
     run [Render e a; Respond 0 true; Body 0 text]) /\
  (Models.isLoading (Env.models e) = false ->
   Str.includes (Model.endpoint (target e a)) ":" = true ->
   useModel (run [Render e a; Respond 0 true; Body 0 text]) e a =
   Ret {| Result.data :=
            match JSON_parse text with
            | Some json =>
                match get json (Model.outputKeyPath (target e a)) None with
                | Ret output => output
                | Throw _ => VStr ""
                end
            | None => VStr ""
            end;
          Result.isLoading := false;
          Result.error := None;
          Result.dataTag := "" |}).
Proof.
  intros Hi Ht. unfold run. cbn [fold_left step].
  rewrite (render_initial e a schema Hi), (respond_sync e a schema Ht).
  split; [split; reflexivity|].
  rewrite body_reading.
  destruct (JSON_parse text) as [json|];
    [destruct (get json (Model.outputKeyPath (target e a)) None)|];
    (repeat split; intros Hl Hc; now rewrite (useModel_custom e a schema _ Hi Hl Hc)).
Qed.

(** X25. A body that cannot be used is left to the runtime: when the body
    of a model that answers at once is no JSON, and when the extractor
    throws on the decoded body, the promise of [response.json().then(...)]
    is rejected with that error and nothing handles it; [data] stays as it
    was and no error is set. A body that decodes and extracts leaves no
    rejection. *)
Theorem body_failure_unhandled (e : Env.t) (a : Args.t) (schema : value) (text : string) :
  issues e a schema ->
  Model.outputTiming (target e a) = "sync" ->
  unhandled (run [Render e a; Respond 0 true; Body 0 text]) =
    match JSON_parse text with
    | Some json =>
        match get json (Model.outputKeyPath (target e a)) None with
        | Ret _ => []
        | Throw x => [BodyFailed 0 x]
        end
    | None => [BodyFailed 0 SyntaxError]
    end /\
  error (run [Render e a; Respond 0 true; Body 0 text]) = None.
Proof.
  intros Hi Ht. unfold run. cbn [fold_left step].
  rewrite (render_initial e a schema Hi), (respond_sync e a schema Ht), body_reading.
  destruct (JSON_parse text) as [json|];
    [destruct (get json (Model.outputKeyPath (target e a)) None)|];
    split; reflexivity.
Qed.

End OneRequestFacts.

Lemma failure_sets_no_error_witness :
  unhandled (run (R := Sample.runtime)
       [Render HookExample.streaming (HookExample.call "hi" true); Reject 0]) =
    [FetchFailed 0] /\
  useModel (R := Sample.runtime)
    (run (R := Sample.runtime)
       [Render HookExample.streaming (HookExample.call "hi" true); Reject 0])
    HookExample.streaming (HookExample.call "hi" true) =
  Ret {| Result.data := VStr ""; Result.isLoading := false;
         Result.error := None; Result.dataTag := "" |}.
Proof.
  assert (Hi : issues (R := Sample.runtime) HookExample.streaming
                 (HookExample.call "hi" true) (VObj [("prompt", VStr "hi")])).
  { repeat split. discriminate. }
  pose proof (@failure_sets_no_error Z Sample.runtime HookExample.streaming
                (HookExample.call "hi" true) (VObj [("prompt", VStr "hi")]) Hi)
    as ((_ & _ & _ & _ & Hu) & _ & Hr).
  split; [exact Hu|].
  apply (proj1 (Hr eq_refl eq_refl)).
Defined.

Lemma stream_shows_merged_lines_witness :
  data (run (R := Sample.runtime)
          ([Render HookExample.streaming (HookExample.call "hi" true); Respond 0 true] ++
           map (Chunk 0) [StreamExample.first; StreamExample.nothing;
                          StreamExample.textless; StreamExample.second])) = VStr "Hello".
Proof.
  assert (Hi : issues (R := Sample.runtime) HookExample.streaming
                 (HookExample.call "hi" true) (VObj [("prompt", VStr "hi")])).
  { repeat split. discriminate. }
  etransitivity.
  - apply (proj1 (@stream_shows_merged_lines Z Sample.runtime HookExample.streaming
                    (HookExample.call "hi" true) (VObj [("prompt", VStr "hi")])
                    [StreamExample.first; StreamExample.nothing; StreamExample.textless;
                     StreamExample.second]
                    Hi eq_refl)).
  - reflexivity.
Defined.

Lemma body_shows_extracted_witness :
  data (run (R := Sample.runtime)
          [Render HookExample.streaming (TemperatureExample.call "hi"); Respond 0 true;
           Body 0 StreamExample.answer]) = VStr "hi" /\
  dataTag (run (R := Sample.runtime)
          [Render HookExample.streaming (TemperatureExample.call "hi"); Respond 0 true;
           Body 0 StreamExample.answer]) = "".
Proof.
  assert (Hi : issues (R := Sample.runtime) HookExample.streaming
                 (TemperatureExample.call "hi")
                 (VObj [("prompt", VStr "hi"); ("temperature", VNum 2%Z)])).
  { repeat split. discriminate. }
  pose proof (@body_shows_extracted Z Sample.runtime HookExample.streaming
                (TemperatureExample.call "hi")
                (VObj [("prompt", VStr "hi"); ("temperature", VNum 2%Z)])
                StreamExample.answer Hi eq_refl) as (_ & Hdata & Htag & _).
  split; [|exact Htag].
  etransitivity; [exact Hdata | reflexivity].
Defined.

Lemma body_failure_unhandled_witness :
  unhandled (run (R := Sample.runtime)
          [Render HookExample.streaming (TemperatureExample.call "hi"); Respond 0 true;
           Body 0 "<html>"]) = [BodyFailed 0 SyntaxError].
Proof.
  assert (Hi : issues (R := Sample.runtime) HookExample.streaming
                 (TemperatureExample.call "hi")
                 (VObj [("prompt", VStr "hi"); ("temperature", VNum 2%Z)])).
  { repeat split. discriminate. }
  etransitivity.
  - apply (proj1 (@body_failure_unhandled Z Sample.runtime HookExample.streaming
                (TemperatureExample.call "hi")
                (VObj [("prompt", VStr "hi"); ("temperature", VNum 2%Z)])
                "<html>" Hi eq_refl)).
  - reflexivity.
Defined.

(** ** Requests that were stopped, prompts that are never sent *)

Section Stopped.

Variable number : Type.
Context {R : Runtime number}.

Local Abbreviation state := (state number).
Local Abbreviation value := (value number).

Lemma doomed_not_flowing (q : request) : doomed q -> flowing q = false.
Proof.
  unfold doomed, live, flowing. intros [H | [-> _]]; [|reflexivity].
  destruct (q_status q) as [|[|]|]; auto.
Qed.

Lemma not_flowing_chunk (i : nat) (text : string) (s : state) :
  (forall q, nth_error (requests s) i = Some q -> flowing q = false) ->
  chunk i text s = s /\ body i text s = s.
Proof.
  intros H. unfold chunk, body.
  destruct (nth_error (requests s) i) as [q|]; [|now split].
  now rewrite (H q eq_refl).
Qed.

(** X17. In every state the hook can reach, a request that
    [AIRef.current] does not point at, as every request after [stopModel],
    has failed, or has had [close] emitted on its body, or has the close
    waiting for its response; read as a body that delivers nothing once
    closed, none of its chunks and no body of it changes anything. *)
Theorem stopped_request_is_closed (s : state) :
  reachable s ->
  (forall i q, nth_error (requests s) i = Some q -> current s i = false -> doomed q) /\
  (forall i text, current s i = false -> chunk i text s = s /\ body i text s = s) /\
  AIRef (stopModel s) = None /\
  (forall i text,
     chunk i text (stopModel s) = stopModel s /\ body i text (stopModel s) = stopModel s).
Proof.
  intros Hs.
  assert (Hquiet : forall s' : state, reachable s' ->
            forall i text, current s' i = false ->
            chunk i text s' = s' /\ body i text s' = s').
  { intros s' Hs' i text Hc. apply not_flowing_chunk. intros q Hq.
    apply doomed_not_flowing.
    exact (inv_doomed _ (reachable_inv number s' Hs') i q Hq Hc). }
  assert (Hnone : AIRef (stopModel s) = None).
  { unfold stopModel. destruct (AIRef s) eqn:Ha; [reflexivity | exact Ha]. }
  split; [|split; [|split]].
  - intros i q Hq Hc. exact (inv_doomed _ (reachable_inv number s Hs) i q Hq Hc).
  - intros i text. apply Hquiet, Hs.
  - exact Hnone.
  - intros i text. apply Hquiet.
    + exact (@reachable_step number R s StopModel Hs).
    + unfold current. now rewrite Hnone.
Qed.

(** *** A hook that waits for nothing *)

Lemma forallb_change (p : request -> bool) (id : nat) (f : request -> request)
  (qs : list request) :
  (forall q, p q = true -> p (f q) = true) ->
  forallb p qs = true -> forallb p (change id f qs) = true.
Proof.
  intros Hf. revert id. induction qs as [|x qs IH]; intros id H; [now destruct id|].
  simpl in H. apply andb_true_iff in H as [Hx Hqs].
  destruct id as [|id]; simpl.
  - now rewrite (Hf x Hx), Hqs.
  - now rewrite Hx, (IH id Hqs).
Qed.

Lemma forallb_nth_error (p : request -> bool) (qs : list request) (i : nat) (q : request) :
  forallb p qs = true -> nth_error qs i = Some q -> p q = true.
Proof.
  intros H Hq. rewrite forallb_forall in H. apply H. now apply nth_error_In with i.
Qed.

Lemma wedged_onRequest (id : nat) (f : request -> request) (s : state) :
  (forall q, chainless q = true -> chainless (f q) = true) ->
  wedged s -> wedged (onRequest id f s).
Proof.
  intros Hf (Ha & Hl & Hq). repeat split; try assumption.
  cbn [requests onRequest setRequests]. now apply forallb_change.
Qed.

Lemma wedged_runThen (id : nat) (ok : bool) (rs : list reaction) (s : state) :
  forallb is_close rs = true -> wedged s -> wedged (fold_left (runThen id ok) rs s).
Proof.
  revert s. induction rs as [|r rs IH]; intros s Hrs Hs; [assumption|].
  simpl in Hrs. apply andb_true_iff in Hrs as [Hr Hrs].
  destruct r as [c|]; [discriminate|].
  cbn [fold_left runThen]. apply IH; [assumption|].
  now apply wedged_onRequest.
Qed.

Lemma runFinally_close (id : nat) (rs : list reaction) (s : state) :
  forallb is_close rs = true -> fold_left (runFinally id) rs s = s.
Proof.
  revert s. induction rs as [|r rs IH]; intros s Hrs; [reflexivity|].
  simpl in Hrs. apply andb_true_iff in Hrs as [Hr Hrs].
  destruct r as [c|]; [discriminate|]. now apply IH.
Qed.

Lemma wedged_report (r : rejection) (s : state) : wedged s -> wedged (report r s).
Proof. intros (Ha & Hl & Hq). now repeat split. Qed.

Lemma wedged_runRejected (id : nat) (rs : list reaction) (s : state) :
  forallb is_close rs = true -> wedged s -> wedged (fold_left (runRejected id) rs s).
Proof.
  revert s. induction rs as [|r rs IH]; intros s Hrs Hs; [assumption|].
  simpl in Hrs. apply andb_true_iff in Hrs as [Hr Hrs].
  destruct r as [c|]; [discriminate|].
  cbn [fold_left runRejected]. apply IH; [assumption|].
  now apply wedged_report.
Qed.

Lemma wedged_render (e : Env.t) (a : Args.t) (s : state) :
  wedged s -> wedged (render e a s).
Proof.
  intros (Ha & Hl & Hq). unfold render.
  destruct (modelSchema e a) as [schema|]; [|now repeat split].
  destruct (same_deps _ _); [now repeat split|].
  unfold effect. destruct (raycastModel e a || negb (Args.execute a));
    [now repeat split|].
  cbn [AIRef setDeps isLoading]. rewrite Ha, Hl.
  rewrite !andb_false_r. cbn [AIRef setIsLoading setDeps]. rewrite Ha.
  now repeat split.
Qed.

Lemma wedged_step (s : state) (ev : event) : wedged s -> wedged (step s ev).
Proof.
  intros Hw. pose proof Hw as (Ha & Hl & Hq).
  destruct ev as [e a| |id ok|id|id text|id text]; cbn [step].
  - now apply wedged_render.
  - unfold stopModel. now rewrite Ha.
  - unfold respond. destruct (nth_error (requests s) id) as [q|] eqn:Hn; [|assumption].
    destruct (q_status q); try assumption.
    pose proof (forallb_nth_error chainless _ id q Hq Hn) as Hc.
    rewrite runFinally_close by exact Hc.
    apply wedged_runThen; [exact Hc|].
    now apply wedged_onRequest.
  - unfold reject. destruct (nth_error (requests s) id) as [q|] eqn:Hn; [|assumption].
    destruct (q_status q); try assumption.
    pose proof (forallb_nth_error chainless _ id q Hq Hn) as Hc.
    apply wedged_runRejected; [exact Hc|].
    now apply wedged_onRequest.
  - unfold chunk. destruct (nth_error (requests s) id) as [q|]; [|assumption].
    destruct (flowing q); [|assumption].
    destruct (deliver text (q_listeners q) (data s)) as [ls shown].
    destruct (wedged_onRequest id (withListeners ls) s) as (Ha' & Hl' & Hq');
      [now intros q' | assumption | now repeat split].
  - unfold body. destruct (nth_error (requests s) id) as [q|]; [|assumption].
    destruct (flowing q); [|assumption].
    destruct (q_reader q); try assumption.
    pose proof (wedged_onRequest id (withReader Read) s (fun q' H => H) Hw) as Hw'.
    destruct (JSON_parse text) as [json|]; [|now apply wedged_report].
    destruct (get json path None); [|now apply wedged_report].
    destruct Hw' as (Ha' & Hl' & Hq'). now repeat split.
Qed.

Lemma wedged_fold (evs : list event) (s : state) :
  wedged s ->
  wedged (fold_left (@step number R) evs s) /\
  List.length (requests (fold_left (@step number R) evs s)) = List.length (requests s).
Proof.
  revert s. induction evs as [|ev evs IH]; intros s Hw; [now split|].
  cbn [fold_left]. destruct (IH (step s ev) (wedged_step s ev Hw)) as [Hw' Hlen].
  split; [exact Hw'|]. rewrite Hlen.
  destruct (step_length number s ev) as [H | (e & a & _ & _ & _ & Hl & _)]; [exact H|].
  destruct Hw as (_ & Hl' & _). congruence.
Qed.

(** X18. A render with execution on and an empty prompt, for a model that
    is not the managed service, with nothing in [AIRef.current] and no
    chain waiting on a request (as at the start), makes the hook wait for
    nothing: whatever events follow, [isLoading] stays true, nothing is put
    in [AIRef.current], and no request is issued, not even for a prompt
    that comes later. *)
Theorem empty_prompt_wedges (e : Env.t) (a : Args.t) (schema : value) (s : state)
  (evs : list event) :
  AIRef s = None -> forallb chainless (requests s) = true ->
  same_deps (deps s)
    (Args.execute a, Args.basePrompt a, Args.input a, Args.prompt a) = false ->
  modelSchema e a = Ret schema ->
  raycastModel e a = false -> Args.execute a = true -> Args.prompt a = "" ->
  isLoading (fold_left (@step number R) evs (render e a s)) = true /\
  AIRef (fold_left (@step number R) evs (render e a s)) = None /\
  List.length (requests (fold_left (@step number R) evs (render e a s))) =
  List.length (requests s).
Proof.
  intros Ha Hq Hd Hm Hr Hx Hp.
  assert (Hrender : render e a s =
            setIsLoading true
              (setDeps (Args.execute a, Args.basePrompt a, Args.input a, Args.prompt a) s)).
  { unfold render. rewrite Hm, Hd. unfold effect. rewrite Hr, Hx, Hp.
    cbn [orb negb andb AIRef setDeps String.length Nat.ltb Nat.leb].
    rewrite Ha. cbn [AIRef setIsLoading setDeps]. now rewrite Ha. }
  assert (Hw : wedged (render e a s)) by (rewrite Hrender; now repeat split).
  destruct (wedged_fold evs (render e a s) Hw) as [(Ha' & Hl' & _) Hlen].
  split; [exact Hl'|]. split; [exact Ha'|].
  rewrite Hlen, Hrender. reflexivity.
Qed.

(** *** A prompt rendered while the hook is loading *)

Lemma same_deps_eq (old : option (bool * string * string * string))
  (d : bool * string * string * string) :
  same_deps old d = true <-> old = Some d.
Proof.
  destruct old as [[[[x1 b1] i1] p1]|], d as [[[x2 b2] i2] p2]; simpl;
    [|split; discriminate].
  rewrite !andb_true_iff, Bool.eqb_true_iff, !String.eqb_eq.
  split; [intros [[[-> ->] ->] ->]; reflexivity | intros [= -> -> -> ->]; auto].
Qed.

Lemma deps_step (s : state) (ev : event) :
  (forall e a, ev <> Render e a) -> deps (step s ev) = deps s.
Proof.
  intros Hev. destruct ev as [e a| |id ok|id|id text|id text]; cbn [step].
  - now destruct (Hev e a).
  - unfold stopModel. destruct (AIRef s) as [me|]; [|reflexivity].
    cbn [deps setAIRef].
    now destruct (keeps_closeBody number (fetch me) s) as (_ & _ & -> & _).
  - unfold respond. destruct (nth_error (requests s) id) as [q|]; [|reflexivity].
    destruct (q_status q); try reflexivity.
    destruct (keeps_fold_left number (runFinally id) (q_reactions q)
                (fold_left (runThen id ok) (q_reactions q)
                   (onRequest id (fun q => withReactions [] (withStatus (Responded ok) q)) s))
                (keeps_runFinally number id)) as (_ & _ & -> & _).
    now destruct (keeps_fold_left number (runThen id ok) (q_reactions q)
                (onRequest id (fun q => withReactions [] (withStatus (Responded ok) q)) s)
                (keeps_runThen number id ok)) as (_ & _ & -> & _).
  - unfold reject. destruct (nth_error (requests s) id) as [q|]; [|reflexivity].
    destruct (q_status q); try reflexivity.
    now destruct (keeps_fold_left number (runRejected id) (q_reactions q)
                (onRequest id (fun q => withReactions [] (withStatus Rejected q)) s)
                (keeps_runRejected number id)) as (_ & _ & -> & _).
  - now destruct (keeps_chunk number id text s) as (_ & _ & -> & _).
  - now destruct (keeps_body number id text s) as (_ & _ & -> & _).
Qed.

Lemma same_deps_fold (d : bool * string * string * string) (evs : list event)
  (s : state) :
  deps s = Some d -> forallb (same_deps_event d) evs = true ->
  List.length (requests (fold_left (@step number R) evs s)) = List.length (requests s).
Proof.
  revert s. induction evs as [|ev evs IH]; intros s Hd Hevs; [reflexivity|].
  simpl in Hevs. apply andb_true_iff in Hevs as [Hev Hevs]. cbn [fold_left].
  destruct ev as [e a| |id ok|id|id text|id text].
  - cbn [same_deps_event] in Hev. cbn [step]. unfold render.
    rewrite Hd, Hev. destruct (modelSchema e a); now apply IH.
  - rewrite IH; [apply stopModel_length | | assumption].
    rewrite deps_step; [assumption | discriminate].
  - rewrite IH; [apply respond_length | | assumption].
    rewrite deps_step; [assumption | discriminate].
  - rewrite IH; [apply reject_length | | assumption].
    rewrite deps_step; [assumption | discriminate].
  - rewrite IH; [apply (keeps_length _ _ _ (keeps_chunk number id text s)) | | assumption].
    rewrite deps_step; [assumption | discriminate].
  - rewrite IH; [apply (keeps_length _ _ _ (keeps_body number id text s)) | | assumption].
    rewrite deps_step; [assumption | discriminate].
Qed.

(** X19. A prompt that is rendered while the hook is loading with nothing
    in [AIRef.current], as after [stopModel] on a request whose response is
    still to come, is not sent: the render issues no request, and nothing
    that follows does (the response of the stopped request, chunks,
    renders) until a render comes with other dependencies. *)
Theorem prompt_dropped_while_loading (e : Env.t) (a : Args.t) (schema : value)
  (s : state) (evs : list event) :
  AIRef s = None -> isLoading s = true ->
  modelSchema e a = Ret schema ->
  forallb (same_deps_event
             (Args.execute a, Args.basePrompt a, Args.input a, Args.prompt a)) evs = true ->
  requests (render e a s) = requests s /\
  List.length (requests (fold_left (@step number R) evs (render e a s))) =
  List.length (requests s).
Proof.
  intros Ha Hl Hm Hevs.
  assert (Hrender : requests (render e a s) = requests s /\
            deps (render e a s) =
            Some (Args.execute a, Args.basePrompt a, Args.input a, Args.prompt a)).
  { unfold render. rewrite Hm.
    destruct (same_deps _ _) eqn:Hd; [split; [reflexivity | now apply same_deps_eq]|].
    unfold effect. destruct (raycastModel e a || negb (Args.execute a));
      [now split|].
    cbn [AIRef setDeps isLoading]. rewrite Ha, Hl.
    rewrite !andb_false_r. cbn [AIRef setIsLoading setDeps]. rewrite Ha.
    now split. }
  destruct Hrender as [Hq Hd]. split; [exact Hq|].
  rewrite (same_deps_fold _ evs (render e a s) Hd Hevs). now rewrite Hq.
Qed.

End Stopped.

Lemma stopped_request_is_closed_witness :
  chunk (R := Sample.runtime) 0 HookExample.line
    (stopModel
       (run (R := Sample.runtime)
          [Render HookExample.streaming (HookExample.call "A" true); Respond 0 true])) =
  stopModel
    (run (R := Sample.runtime)
       [Render HookExample.streaming (HookExample.call "A" true); Respond 0 true]).
Proof.
  apply (proj2 (proj2 (proj2
    (@stopped_request_is_closed Z Sample.runtime
       (run (R := Sample.runtime)
          [Render HookExample.streaming (HookExample.call "A" true); Respond 0 true])
       (@reachable_step Z Sample.runtime _ (Respond 0 true)
          (@reachable_step Z Sample.runtime initial
             (Render HookExample.streaming (HookExample.call "A" true))
             (@reachable_initial Z Sample.runtime))))))).
Defined.

Lemma empty_prompt_wedges_witness :
  isLoading (run (R := Sample.runtime)
               [Render HookExample.streaming (HookExample.call "" true);
                Render HookExample.streaming (HookExample.call "hi" true);
                Respond 0 true]) = true /\
  AIRef (run (R := Sample.runtime)
               [Render HookExample.streaming (HookExample.call "" true);
                Render HookExample.streaming (HookExample.call "hi" true);
                Respond 0 true]) = None /\
  List.length (requests (run (R := Sample.runtime)
               [Render HookExample.streaming (HookExample.call "" true);
                Render HookExample.streaming (HookExample.call "hi" true);
                Respond 0 true])) = 0.
Proof.
  apply (@empty_prompt_wedges Z Sample.runtime HookExample.streaming
           (HookExample.call "" true) (VObj [("prompt", VStr "")]) initial
           [Render HookExample.streaming (HookExample.call "hi" true); Respond 0 true]);
    reflexivity.
Defined.

Lemma prompt_dropped_while_loading_witness :
  List.length (requests
    (fold_left (@step Z Sample.runtime)
       [Respond 0 true; Render HookExample.streaming (HookExample.call "B" true)]
       (render (R := Sample.runtime) HookExample.streaming (HookExample.call "B" true)
          (run (R := Sample.runtime)
             [Render HookExample.streaming (HookExample.call "A" true); StopModel])))) =
  List.length (requests
    (run (R := Sample.runtime)
       [Render HookExample.streaming (HookExample.call "A" true); StopModel])).
Proof.
  apply (proj2 (@prompt_dropped_while_loading Z Sample.runtime HookExample.streaming
           (HookExample.call "B" true) (VObj [("prompt", VStr "B")])
           (run (R := Sample.runtime)
              [Render HookExample.streaming (HookExample.call "A" true); StopModel])
           [Respond 0 true; Render HookExample.streaming (HookExample.call "B" true)]
           eq_refl eq_refl eq_refl eq_refl)).
Defined.

(** ** Key paths beside the grammar *)

Module BracketFacts.
Import Str KeyPath Chars Grammar.

Lemma cut_last_close_end (s : string) : cut_last_close (s ++ "]") = Some (s, "").
Proof. induction s as [|c s IH]; simpl; [reflexivity | now rewrite IH]. Qed.

Lemma run_no_brace_bracketed (s : string) :
  every bracketed_char s = true -> run_no_brace (s ++ "]") = s ++ "]".
Proof.
  induction s as [|c s IH]; simpl; [reflexivity|].
  rewrite andb_true_iff. intros [Hc Hs]. unfold bracketed_char in Hc.
  apply negb_true_iff, orb_false_iff in Hc as [_ ->]. now rewrite (IH Hs).
Qed.

Lemma match_group_bracketed (inner : string) :
  inner <> "" -> every bracketed_char inner = true ->
  match_group ("[" ++ inner ++ "]") = Some (inner, String.length inner + 2).
Proof.
  intros Hne Hi. destruct inner as [|c inner]; [congruence|].
  simpl in Hi. apply andb_true_iff in Hi as [Hc Hi].
  unfold bracketed_char in Hc. apply negb_true_iff, orb_false_iff in Hc as [_ Hb].
  cbn [append match_group]. rewrite Hb. simpl.
  rewrite (run_no_brace_bracketed _ Hi), cut_last_close_end.
  simpl. do 2 f_equal. lia.
Qed.

Lemma trimEnd_close (s : string) : trimEnd (s ++ "]") = s ++ "]".
Proof.
  induction s as [|c s IH]; simpl; [reflexivity|].
  rewrite IH. destruct (s ++ "]") eqn:Hs.
  - destruct s; discriminate.
  - now rewrite andb_false_r.
Qed.

Lemma trim_spaces (s : string) : every is_space s = true -> trim s = "".
Proof.
  unfold trim. induction s as [|c s IH]; simpl; [reflexivity|].
  rewrite andb_true_iff. intros [-> Hs]. now apply IH.
Qed.

Lemma keys_bracketed (name inner : string) :
  plain name = true -> inner <> "" -> every bracketed_char inner = true ->
  keys (name ++ "[" ++ inner ++ "]") = [name; inner].
Proof.
  intros Hn Hne Hi. unfold plain in Hn. apply andb_true_iff in Hn as [Hnn Hp].
  assert (Htrim : trim (name ++ "[" ++ inner ++ "]") = name ++ "[" ++ inner ++ "]").
  { unfold trim. destruct name as [|c name]; [discriminate|].
    simpl in Hp. apply andb_true_iff in Hp as [Hc _].
    destruct (KeyPathFacts.plain_char_facts c Hc) as (_ & _ & _ & _ & Hw).
    cbn [append trimStart]. rewrite Hw.
    replace (String c (name ++ String "["%char (inner ++ "]")))
      with (String c (name ++ String "["%char inner) ++ "]")
      by (cbn [append]; now rewrite StrFacts.append_assoc).
    apply trimEnd_close. }
  assert (Hdot : every not_dot (name ++ "[" ++ inner ++ "]") = true).
  { rewrite !KeyPathFacts.every_app.
    rewrite (KeyPathFacts.every_weaken _ _ _ KeyPathFacts.plain_not_dot Hp).
    rewrite (KeyPathFacts.every_weaken bracketed_char not_dot inner); [reflexivity| |exact Hi].
    intros c Hc. unfold bracketed_char in Hc. unfold not_dot.
    apply negb_true_iff, orb_false_iff in Hc as [-> _]. reflexivity. }
  unfold keys. rewrite Htrim, (KeyPathFacts.split_not_dot _ Hdot).
  cbn [flat_map]. rewrite app_nil_r.
  rewrite (KeyPathFacts.split_groups_plain _ _ _ Hp). simpl append at 1.
  pose proof (match_group_bracketed inner Hne Hi) as Hm.
  change ("[" ++ inner ++ "]") with (String "["%char (inner ++ "]")) in *.
  cbn [split_groups]. rewrite Hm.
  replace (String.length inner + 2 - 1) with (String.length (inner ++ "]"))
    by (rewrite KeyPathFacts.length_append; simpl; lia).
  rewrite KeyPathFacts.split_groups_inside. simpl.
  destruct name; [discriminate|]. simpl.
  destruct inner; [congruence | reflexivity].
Qed.

End BracketFacts.

Section Paths.

Variable number : Type.
Context {R : Runtime number}.

Local Abbreviation value := (value number).

(** X20. In an item of a key path, all that stands between the first
    opening bracket and the last closing bracket is one key, brackets
    included: a name followed by a bracket that holds neither a dot nor a
    closing brace gives two keys, the name and the content of the bracket;
    so of [name[i][j]] the keys are [name] and [i][j], the text from [i] to
    [j] with the two brackets between them, not [name], [i] and [j]. *)
Theorem keys_bracket_is_greedy (name inner : string) :
  Grammar.plain name = true -> inner <> "" ->
  Chars.every bracketed_char inner = true ->
  KeyPath.keys (name ++ "[" ++ inner ++ "]") = [name; inner] /\
  (forall i j,
     inner = i ++ "][" ++ j ->
     KeyPath.keys (name ++ "[" ++ i ++ "][" ++ j ++ "]") = [name; i ++ "][" ++ j]).
Proof.
  intros Hn Hne Hi. split; [now apply BracketFacts.keys_bracketed|].
  intros i j ->.
  replace (name ++ "[" ++ i ++ "][" ++ j ++ "]")
    with (name ++ "[" ++ (i ++ "][" ++ j) ++ "]")
    by (now rewrite !StrFacts.append_assoc).
  now apply BracketFacts.keys_bracketed.
Qed.

(** X21. With a key path that is empty or made of white space only the
    extractor hands back the document it was given, whatever it is, and the
    default is not used. *)
Theorem get_blank_path (obj : value) (pathString : string) (def : option string) :
  Chars.every Str.is_space pathString = true ->
  KeyPath.keys pathString = [] /\ get obj pathString def = Ret obj.
Proof.
  intros Hs.
  assert (Hk : KeyPath.keys pathString = []).
  { unfold KeyPath.keys. now rewrite (BracketFacts.trim_spaces _ Hs). }
  split; [exact Hk|].
  unfold get. rewrite Hk. now destruct (typeof obj =? "object").
Qed.

End Paths.

Lemma keys_bracket_is_greedy_witness :
  KeyPath.keys "a[0][1]" = ["a"; "0][1"] /\
  get (R := Sample.runtime) (VObj [("a", VArr [VArr [VStr "x"; VStr "y"]])])
    "a[0][1]" (Some "none") = Ret (VStr "none").
Proof.
  assert (Hne : "0][1" <> "") by discriminate.
  split; [|reflexivity].
  apply (proj2 (keys_bracket_is_greedy "a" "0][1" eq_refl Hne eq_refl) "0" "1" eq_refl).
Defined.

Lemma get_blank_path_witness :
  get (R := Sample.runtime) ExtractorExample.answered "  " (Some "none") =
  Ret ExtractorExample.answered.
Proof.
  apply (proj2 (@get_blank_path Z Sample.runtime ExtractorExample.answered "  "
                  (Some "none") eq_refl)).
Defined.

(** ** One request to a mount *)

Section OneRequestToAMount.

Variable number : Type.
Context {R : Runtime number}.

Local Abbreviation state := (state number).
Local Abbreviation value := (value number).

Lemma AIRef_step (s : state) (ev : event) (me : ref) :
  not_stop ev = true -> AIRef s = Some me -> AIRef (step s ev) = Some me.
Proof.
  intros Hev Hme. destruct ev as [e a| |id ok|id|id text|id text]; cbn [step].
  - unfold render. destruct (modelSchema e a) as [schema|]; [|exact Hme].
    destruct (same_deps _ _); [exact Hme|].
    unfold effect. destruct (raycastModel e a || negb (Args.execute a)); [exact Hme|].
    cbn [AIRef setDeps setIsLoading]. rewrite Hme. cbn [AIRef setIsLoading setDeps].
    rewrite Hme.
    destruct (keeps_attach number (fetch me)
                {| me_tag := ref_tag me; own_tag := tag a;
                   timing := Model.outputTiming (target e a);
                   keyPath := Model.outputKeyPath (target e a) |}
                (setIsLoading true
                   (setDeps (Args.execute a, Args.basePrompt a, Args.input a,
                             Args.prompt a) s))) as (-> & _).
    exact Hme.
  - discriminate.
  - unfold respond. destruct (nth_error (requests s) id) as [q|]; [|exact Hme].
    destruct (q_status q); try exact Hme.
    destruct (keeps_fold_left number (runFinally id) (q_reactions q)
                (fold_left (runThen id ok) (q_reactions q)
                   (onRequest id (fun q => withReactions [] (withStatus (Responded ok) q)) s))
                (keeps_runFinally number id)) as (-> & _).
    destruct (keeps_fold_left number (runThen id ok) (q_reactions q)
                (onRequest id (fun q => withReactions [] (withStatus (Responded ok) q)) s)
                (keeps_runThen number id ok)) as (-> & _).
    exact Hme.
  - unfold reject. destruct (nth_error (requests s) id) as [q|]; [|exact Hme].
    destruct (q_status q); try exact Hme.
    destruct (keeps_fold_left number (runRejected id) (q_reactions q)
                (onRequest id (fun q => withReactions [] (withStatus Rejected q)) s)
                (keeps_runRejected number id)) as (-> & _).
    exact Hme.
  - destruct (keeps_chunk number id text s) as (-> & _). exact Hme.
  - destruct (keeps_body number id text s) as (-> & _). exact Hme.
Qed.

Lemma kept_until_stopped (evs : list event) (s : state) (me : ref) :
  AIRef s = Some me -> forallb not_stop evs = true ->
  AIRef (fold_left (@step number R) evs s) = Some me /\
  List.length (requests (fold_left (@step number R) evs s)) = List.length (requests s).
Proof.
  revert s. induction evs as [|ev evs IH]; intros s Hme Hevs; [now split|].
  simpl in Hevs. apply andb_true_iff in Hevs as [Hev Hevs]. cbn [fold_left].
  destruct (IH (step s ev) (AIRef_step s ev me Hev Hme) Hevs) as [Hme' Hlen].
  split; [exact Hme'|]. rewrite Hlen.
  destruct (step_length number s ev) as [H | (e & a & _ & _ & Hnone & _)]; [exact H|].
  congruence.
Qed.

Lemma first_request (s : state) (ev : event) :
  AIRef s = None -> requests s = [] ->
  (AIRef (step s ev) = None /\ requests (step s ev) = []) \/
  (exists me, AIRef (step s ev) = Some me /\ List.length (requests (step s ev)) = 1).
Proof.
  intros Ha Hq. destruct ev as [e a| |id ok|id|id text|id text]; cbn [step].
  - unfold render. destruct (modelSchema e a) as [schema|]; [|now left].
    destruct (same_deps _ _); [now left|].
    unfold effect. destruct (raycastModel e a || negb (Args.execute a)); [now left|].
    cbn [AIRef setDeps isLoading requests]. rewrite Ha, Hq.
    destruct (Args.execute a && (0 <? String.length (Args.prompt a))%nat &&
              negb (isLoading s)).
    + right. cbn [AIRef setIsLoading setAIRef].
      match goal with
      | |- exists me, AIRef (attach ?id ?c ?s1) = _ /\ _ =>
          destruct (keeps_attach number id c s1) as (-> & _ & _ & -> & _)
      end.
      eexists. split; reflexivity.
    + left. cbn [AIRef setIsLoading setDeps]. rewrite Ha. now split.
  - left. unfold stopModel. rewrite Ha. now split.
  - left. unfold respond. rewrite Hq. destruct id; now split.
  - left. unfold reject. rewrite Hq. destruct id; now split.
  - left. unfold chunk. rewrite Hq. destruct id; now split.
  - left. unfold body. rewrite Hq. destruct id; now split.
Qed.

Lemma at_most_one_request (evs : list event) (s : state) :
  AIRef s = None -> requests s = [] -> forallb not_stop evs = true ->
  List.length (requests (fold_left (@step number R) evs s)) <= 1.
Proof.
  revert s. induction evs as [|ev evs IH]; intros s Ha Hq Hevs.
  - simpl. rewrite Hq. simpl. lia.
  - simpl in Hevs. apply andb_true_iff in Hevs as [Hev Hevs]. cbn [fold_left].
    destruct (first_request s ev Ha Hq) as [[Ha' Hq'] | (me & Hme & Hone)].
    + now apply IH.
    + destruct (kept_until_stopped evs (step s ev) me Hme Hevs) as [_ ->]. lia.
Qed.

(** X22. Only [stopModel] clears [AIRef.current], and while it holds a
    request no other is issued. A mounted hook that is never stopped calls
    [fetch] at most once, whatever the renders and however the request
    ends; and from any state with a request in [AIRef.current], whatever
    events follow short of [stopModel] (the response, chunks, the end of
    the stream, renders for other prompts), the same request stays there
    and no request is added. *)
Theorem one_request_until_stopped (evs : list event) :
  forallb not_stop evs = true ->
  List.length (requests (run evs)) <= 1 /\
  (forall (s : state) (me : ref),
     AIRef s = Some me ->
     AIRef (fold_left (@step number R) evs s) = Some me /\
     List.length (requests (fold_left (@step number R) evs s)) =
     List.length (requests s)).
Proof.
  intros Hevs. split.
  - now apply at_most_one_request.
  - intros s me Hme. now apply kept_until_stopped.
Qed.

(** X23. In every state the hook can reach, a request whose response is
    still awaited keeps [isLoading] true, is the only one awaited, and is
    the one in [AIRef.current] when there is one. *)
Theorem pending_means_loading (s : state) (i : nat) (q : request) :
  reachable s ->
  nth_error (requests s) i = Some q -> q_status q = Pending ->
  isLoading s = true /\
  (forall me, AIRef s = Some me -> fetch me = i) /\
  (forall j qj, nth_error (requests s) j = Some qj -> q_status qj = Pending -> j = i).
Proof.
  intros Hs Hq Hp. pose proof (reachable_inv number s Hs) as Hinv.
  split; [|split].
  - destruct (isLoading s) eqn:Hl; [reflexivity|].
    now destruct (inv_loading _ Hinv Hl i q Hq).
  - intros me Hme. symmetry. exact (inv_current _ Hinv me i q Hme Hq Hp).
  - intros j qj Hj Hpj. exact (inv_pending _ Hinv j i qj q Hj Hq Hpj Hp).
Qed.

End OneRequestToAMount.

Lemma one_request_until_stopped_witness :
  List.length (requests
    (fold_left (@step Z Sample.runtime)
       [Respond 0 true; Chunk 0 HookExample.line;
        Render HookExample.streaming (HookExample.call "B" true)]
       (run (R := Sample.runtime)
          [Render HookExample.streaming (HookExample.call "A" true)]))) =
  List.length (requests
    (run (R := Sample.runtime)
       [Render HookExample.streaming (HookExample.call "A" true)])).
Proof.
  apply (proj2 (proj2 (@one_request_until_stopped Z Sample.runtime
           [Respond 0 true; Chunk 0 HookExample.line;
            Render HookExample.streaming (HookExample.call "B" true)]
           eq_refl)
           (run (R := Sample.runtime)
              [Render HookExample.streaming (HookExample.call "A" true)])
           {| fetch := 0; ref_tag := "A" |} eq_refl)).
Defined.

Lemma pending_means_loading_witness :
  isLoading (run (R := Sample.runtime)
     [Render HookExample.streaming (HookExample.call "A" true)]) = true.
Proof.
  refine (proj1 (@pending_means_loading Z Sample.runtime
           (run (R := Sample.runtime)
              [Render HookExample.streaming (HookExample.call "A" true)])
           0 _
           (@reachable_step Z Sample.runtime initial
              (Render HookExample.streaming (HookExample.call "A" true))
              (@reachable_initial Z Sample.runtime))
           _ _)); reflexivity.
Defined.
(** ** Where the hook leaves its specification *)

(** C5, template substitution, does not hold of the code. Of a template
    that holds [{prompt}] three times the body of the request keeps the
    third: each of the two passes of the chain replaces one occurrence.
    And a prompt that is a dollar pattern of [String.replace] is not
    inserted: for the prompt [$&] the body still holds the placeholder. As
    the specification words it the bodies hold the prompt at every place. *)
Theorem body_keeps_placeholder :
  (map q_body
     (requests (run (R := Sample.runtime)
                  [Render BodyExample.thrice (HookExample.call "hi" true)])) =
     [BodyExample.object "hi" "hi" "{prompt}"] /\
   body_as_specified (R := Sample.runtime) BodyExample.thrice
     (HookExample.call "hi" true) =
     Some (BodyExample.object "hi" "hi" "hi")) /\
  (map q_body
     (requests (run (R := Sample.runtime)
                  [Render HookExample.streaming (HookExample.call "$&" true)])) =
     ["{" ++ BodyExample.field "prompt" "{prompt}" ++ "}"] /\
   body_as_specified (R := Sample.runtime) HookExample.streaming
     (HookExample.call "$&" true) =
     Some ("{" ++ BodyExample.field "prompt" "$&" ++ "}")).
Proof. vm_compute. repeat split. Qed.

Section Departures.

Variable number : Type.
Context {R : Runtime number}.

(** C7, the configuration-error guard, does not hold of the code. For
    every call with execution on and a prompt that is not empty, whose
    template parses, with the registry loaded and a target endpoint that
    neither names the managed service nor contains a colon: the result is
    the error "Invalid Endpoint" before the effect and after it, and the
    effect of the first render calls [fetch] on that endpoint all the
    same. *)
Theorem invalid_endpoint_is_fetched (e : Env.t) (a : Args.t) (schema : value number) :
  issues e a schema ->
  Models.isLoading (Env.models e) = false ->
  Str.includes (Model.endpoint (target e a)) ":" = false ->
  namesRaycastAI (Model.endpoint (target e a)) = false /\
  useModel initial e a = Ret (failed "Invalid Endpoint") /\
  map q_endpoint (requests (run [Render e a])) = [Model.endpoint (target e a)] /\
  useModel (run [Render e a]) e a = Ret (failed "Invalid Endpoint").
Proof.
  intros Hi Hl Hc. pose proof Hi as (Hr & Hx & Hp & Hm).
  assert (Hres : forall s, useModel s e a = Ret (failed "Invalid Endpoint")).
  { intros s. unfold useModel.
    now rewrite Hm, (not_managed_name e a Hr), Hl, Hc, (not_both_empty a Hp). }
  split; [exact (not_managed_name e a Hr)|].
  split; [apply Hres|]. split; [|apply Hres].
  unfold run. cbn [fold_left step].
  now rewrite (render_initial number e a schema Hi).
Qed.

End Departures.

Lemma invalid_endpoint_is_fetched_witness :
  namesRaycastAI (Model.endpoint
    (target HookExample.invalid (HookExample.call "hi" true))) = false /\
  useModel (R := Sample.runtime) initial HookExample.invalid (HookExample.call "hi" true) =
    Ret (failed "Invalid Endpoint") /\
  map q_endpoint
    (requests (run (R := Sample.runtime)
                 [Render HookExample.invalid (HookExample.call "hi" true)])) =
    [Model.endpoint (target HookExample.invalid (HookExample.call "hi" true))] /\
  useModel (R := Sample.runtime)
    (run (R := Sample.runtime) [Render HookExample.invalid (HookExample.call "hi" true)])
    HookExample.invalid (HookExample.call "hi" true) =
    Ret (failed "Invalid Endpoint").
Proof.
  assert (Hi : issues (R := Sample.runtime) HookExample.invalid
                 (HookExample.call "hi" true) (VObj [("prompt", VStr "hi")])).
  { repeat split. discriminate. }
  exact (@invalid_endpoint_is_fetched Z Sample.runtime HookExample.invalid
           (HookExample.call "hi" true) (VObj [("prompt", VStr "hi")])
           Hi eq_refl eq_refl).
Defined.
